(** * mimic-window: the interaction-and-render engine, embedded in Rocq

    A shallow embedding of the TypeScript sources of the terminal file
    browser: the state store ([core/state-manager.ts]), the layout engine
    ([core/layout-manager.ts]), the directory scanner
    ([core/file-scanner.ts]), the unique-name helper of
    [core/file-operations.ts], the event bus and the mouse handler
    ([events/event-bus.ts], [events/mouse-handler.ts]) and the controller
    ([core/file-manager.ts]).

    Conventions.
    - A JavaScript [number] that holds an index, a coordinate, a size or a
      time stamp is a [Z]; [Math.floor (a / b)] is [a / b] on [Z] (floor
      division, [b <> 0]) and the JavaScript [%] is [Z.rem].
    - [T | null] is [option T]; an array is a [list]; [a[i]] is
      [js_index a i], [None] out of range (JavaScript: [undefined]).
    - Objects that are never mutated after creation ([FileItem]) are compared
      structurally.
    - A [Map<string, Handler[]>] is a [gmap string (list Handler)].
    - An [async] handler is run to completion as one step; what the
      filesystem or the operating system answers is an argument of the
      step. What holds only as long as no other handler runs in between
      is not stated on these runs: an invariant of the state is also
      proved for every sequence of the store calls the handlers make
      ([issued]), in whatever order their steps run.
    - [FileManager.render] draws and cannot fail; when the [render] of
      the source throws is [render_throws], and a theorem about the
      frames drawn carries the hypothesis that it does not. *)

From Stdlib Require Import Ascii Sorted.
From stdpp Require Import base numbers list strings gmap pretty.

Local Open Scope Z_scope.

(** ** JavaScript array indexing with a [number] index *)

Definition js_index {A : Type} (l : list A) (i : Z) : option A :=
  if decide (0 ≤ i) then l !! Z.to_nat i else None.

Definition js_length {A : Type} (l : list A) : Z := Z.of_nat (length l).

(** ** [core/types.ts] *)

Inductive FileType := TFile | TDirectory.

Record FileItem := {
  name : string;
  path : string;
  type : FileType;
  size : option Z;
  lastModified : option Z;
}.

Record Position := { px : Z; py : Z }.

Record Size := { width : Z; height : Z }.

Record SelectionState := {
  selectedIndex : Z;
  selectedItem : option FileItem;
}.

Record ViewportState := {
  currentPath : string;
  items : list FileItem;
  terminalSize : Size;
  itemsPerRow : Z;
  totalRows : Z;
}.

Record ContextMenuState := {
  visible : bool;
  position : Position;
  targetItem : option FileItem;
}.

Inductive ClipboardOperation := OpCopy | OpCut.

Record AppState := {
  viewport : ViewportState;
  selection : SelectionState;
  contextMenu : ContextMenuState;
  clipboard : option FileItem;
  clipboardOperation : option ClipboardOperation;
}.

Inductive Button := BLeft | BRight | BMiddle.

Inductive ClickType := Click | DoubleClick.

Record MouseEventObject := {
  ev_x : Z;
  ev_y : Z;
  button : Button;
  ev_type : ClickType;
}.

Inductive Direction := Up | Down | Left | Right.

#[global] Instance FileType_eq_dec : EqDecision FileType.
Proof. solve_decision. Defined.

#[global] Instance FileItem_eq_dec : EqDecision FileItem.
Proof. solve_decision. Defined.

#[global] Instance Button_eq_dec : EqDecision Button.
Proof. solve_decision. Defined.

#[global] Instance ClipboardOperation_eq_dec : EqDecision ClipboardOperation.
Proof. solve_decision. Defined.

(** ** [core/state-manager.ts]

    The store holds the current [AppState] and the list of listeners. A
    listener is a callback that receives the state and acts on the rest of
    the program, the world [W] (for the controller: its own fields and the
    terminal). Every action goes through [updateState]: install the new
    state, then call every listener in subscription order. *)

Module StateManager.
Section Store.
Context {W : Type}.

Definition Listener : Type := AppState → W → W.

Record t := {
  state : AppState;
  listeners : list Listener;
}.

Definition initialState (initialPath : string) (terminalSize : Size) : AppState :=
  {| viewport := {| currentPath := initialPath;
                    items := [];
                    terminalSize := terminalSize;
                    itemsPerRow := 0;
                    totalRows := 0 |};
     selection := {| selectedIndex := -1; selectedItem := None |};
     contextMenu := {| visible := false;
                       position := {| px := 0; py := 0 |};
                       targetItem := None |};
     clipboard := None;
     clipboardOperation := None |}.

Definition new (initialPath : string) (terminalSize : Size) : t :=
  {| state := initialState initialPath terminalSize; listeners := [] |}.

Definition getState (sm : t) : AppState := state sm.

(** [subscribe] pushes the listener at the end of the array. *)
Definition subscribe (listener : Listener) (sm : t) : t :=
  {| state := state sm; listeners := listeners sm ++ [listener] |}.

Definition notifyListeners (sm : t) (w : W) : W :=
  foldl (λ w' listener, listener (state sm) w') w (listeners sm).

Definition updateState (updater : AppState → AppState) (sm : t) (w : W) : t * W :=
  let sm' := {| state := updater (state sm); listeners := listeners sm |} in
  (sm', notifyListeners sm' w).

Definition setCurrentPath (p : string) : t → W → t * W :=
  updateState (λ state,
    {| viewport := {| currentPath := p;
                      items := items (viewport state);
                      terminalSize := terminalSize (viewport state);
                      itemsPerRow := itemsPerRow (viewport state);
                      totalRows := totalRows (viewport state) |};
       selection := selection state;
       contextMenu := contextMenu state;
       clipboard := clipboard state;
       clipboardOperation := clipboardOperation state |}).

Definition setFileItems (its : list FileItem) : t → W → t * W :=
  updateState (λ state,
    {| viewport := {| currentPath := currentPath (viewport state);
                      items := its;
                      terminalSize := terminalSize (viewport state);
                      itemsPerRow := itemsPerRow (viewport state);
                      totalRows := totalRows (viewport state) |};
       selection := selection state;
       contextMenu := contextMenu state;
       clipboard := clipboard state;
       clipboardOperation := clipboardOperation state |}).

Definition setTerminalSize (sz : Size) : t → W → t * W :=
  updateState (λ state,
    {| viewport := {| currentPath := currentPath (viewport state);
                      items := items (viewport state);
                      terminalSize := sz;
                      itemsPerRow := itemsPerRow (viewport state);
                      totalRows := totalRows (viewport state) |};
       selection := selection state;
       contextMenu := contextMenu state;
       clipboard := clipboard state;
       clipboardOperation := clipboardOperation state |}).

Definition setLayoutInfo (ipr rows : Z) : t → W → t * W :=
  updateState (λ state,
    {| viewport := {| currentPath := currentPath (viewport state);
                      items := items (viewport state);
                      terminalSize := terminalSize (viewport state);
                      itemsPerRow := ipr;
                      totalRows := rows |};
       selection := selection state;
       contextMenu := contextMenu state;
       clipboard := clipboard state;
       clipboardOperation := clipboardOperation state |}).

Definition setSelection (index : Z) (item : option FileItem) : t → W → t * W :=
  updateState (λ state,
    {| viewport := viewport state;
       selection := {| selectedIndex := index; selectedItem := item |};
       contextMenu := contextMenu state;
       clipboard := clipboard state;
       clipboardOperation := clipboardOperation state |}).

Definition clearSelection : t → W → t * W := setSelection (-1) None.

(** The index a move computes; the clamps are one-sided, as in the
    source. *)
Definition newIndex (direction : Direction) (selectedIndex len itemsPerRow : Z) : Z :=
  match direction with
  | Left => Z.max 0 (selectedIndex - 1)
  | Right => Z.min (len - 1) (selectedIndex + 1)
  | Up => Z.max 0 (selectedIndex - itemsPerRow)
  | Down => Z.min (len - 1) (selectedIndex + itemsPerRow)
  end.

(** [items.length === 0] returns before any update: no new state and no
    notification. [items[newIndex] || null] is the lookup itself, a
    [FileItem] being an object and so never falsy. *)
Definition moveSelection (direction : Direction) (sm : t) (w : W) : t * W :=
  let selectedIndex := selectedIndex (selection (state sm)) in
  let its := items (viewport (state sm)) in
  let itemsPerRow := itemsPerRow (viewport (state sm)) in
  if decide (js_length its = 0) then (sm, w)
  else
    let newIndex := newIndex direction selectedIndex (js_length its) itemsPerRow in
    setSelection newIndex (js_index its newIndex) sm w.

Definition showContextMenu (pos : Position) (target : option FileItem) : t → W → t * W :=
  updateState (λ state,
    {| viewport := viewport state;
       selection := selection state;
       contextMenu := {| visible := true; position := pos; targetItem := target |};
       clipboard := clipboard state;
       clipboardOperation := clipboardOperation state |}).

Definition hideContextMenu : t → W → t * W :=
  updateState (λ state,
    {| viewport := viewport state;
       selection := selection state;
       contextMenu := {| visible := false;
                         position := position (contextMenu state);
                         targetItem := targetItem (contextMenu state) |};
       clipboard := clipboard state;
       clipboardOperation := clipboardOperation state |}).

Definition setClipboard (item : option FileItem) (operation : option ClipboardOperation)
    : t → W → t * W :=
  updateState (λ state,
    {| viewport := viewport state;
       selection := selection state;
       contextMenu := contextMenu state;
       clipboard := item;
       clipboardOperation := operation |}).

Definition clearClipboard : t → W → t * W := setClipboard None None.

(** The action methods of the store, as data, so that a sequence of
    calls is a list. *)
Inductive Action :=
| SetCurrentPath (p : string)
| SetFileItems (its : list FileItem)
| SetTerminalSize (sz : Size)
| SetLayoutInfo (ipr rows : Z)
| SetSelection (index : Z) (item : option FileItem)
| ClearSelection
| MoveSelection (direction : Direction)
| ShowContextMenu (pos : Position) (target : option FileItem)
| HideContextMenu
| SetClipboard (item : option FileItem) (operation : option ClipboardOperation)
| ClearClipboard.

Definition call (a : Action) : t → W → t * W :=
  match a with
  | SetCurrentPath p => setCurrentPath p
  | SetFileItems its => setFileItems its
  | SetTerminalSize sz => setTerminalSize sz
  | SetLayoutInfo ipr rows => setLayoutInfo ipr rows
  | SetSelection index item => setSelection index item
  | ClearSelection => clearSelection
  | MoveSelection direction => moveSelection direction
  | ShowContextMenu pos target => showContextMenu pos target
  | HideContextMenu => hideContextMenu
  | SetClipboard item operation => setClipboard item operation
  | ClearClipboard => clearClipboard
  end.

Fixpoint calls (acts : list Action) (sm : t) (w : W) : t * W :=
  match acts with
  | [] => (sm, w)
  | a :: acts' => let '(sm', w') := call a sm w in calls acts' sm' w'
  end.

(** The selection invariant of the data model. *)
Definition selection_inv (s : AppState) : Prop :=
  (selectedIndex (selection s) = -1 ↔ selectedItem (selection s) = None) ∧
  (selectedIndex (selection s) ≠ -1 →
     0 ≤ selectedIndex (selection s) < js_length (items (viewport s)) ∧
     js_index (items (viewport s)) (selectedIndex (selection s)) = selectedItem (selection s)).

(** What a caller has to respect for the invariant to survive a call. *)
Definition respects (s : AppState) (a : Action) : Prop :=
  match a with
  | SetSelection index item =>
      (index = -1 ∧ item = None) ∨
      (0 ≤ index < js_length (items (viewport s)) ∧ js_index (items (viewport s)) index = item)
  | SetFileItems its =>
      selectedIndex (selection s) = -1 ∨
      (0 ≤ selectedIndex (selection s) < js_length its ∧
       js_index its (selectedIndex (selection s)) = selectedItem (selection s))
  | MoveSelection _ => 0 ≤ itemsPerRow (viewport s)
  | _ => True
  end.

Fixpoint respectful (acts : list Action) (sm : t) (w : W) : Prop :=
  match acts with
  | [] => True
  | a :: acts' =>
      respects (state sm) a ∧
      let '(sm', w') := call a sm w in respectful acts' sm' w'
  end.
End Store.
Arguments t : clear implicits.
Arguments Listener : clear implicits.
End StateManager.

(** ** [core/layout-manager.ts] *)

Module LayoutManager.

Record LayoutInfo := {
  itemsPerRow : Z;
  totalRows : Z;
  itemWidth : Z;
  itemHeight : Z;
  startY : Z;
}.

Record ItemPosition := {
  x : Z;
  y : Z;
  row : Z;
  col : Z;
  index : Z;
}.

Definition ITEM_WIDTH : Z := 13.
Definition ITEM_HEIGHT : Z := 5.
Definition HEADER_HEIGHT : Z := 3.
Definition FOOTER_HEIGHT : Z := 2.
Definition MIN_ITEMS_PER_ROW : Z := 1.

Definition calculateLayout (terminalSize : Size) : LayoutInfo :=
  let availableWidth := width terminalSize - 4 in
  let availableHeight := height terminalSize - HEADER_HEIGHT - FOOTER_HEIGHT - 2 in
  let itemsPerRow := Z.max MIN_ITEMS_PER_ROW (availableWidth / ITEM_WIDTH) in
  let maxRows := availableHeight / ITEM_HEIGHT in
  let totalRows := Z.max 1 maxRows in
  {| itemsPerRow := itemsPerRow;
     totalRows := totalRows;
     itemWidth := ITEM_WIDTH;
     itemHeight := ITEM_HEIGHT;
     startY := HEADER_HEIGHT + 1 |}.

Definition getItemPosition (index : Z) (layout : LayoutInfo) : ItemPosition :=
  let row := index / itemsPerRow layout in
  let col := Z.rem index (itemsPerRow layout) in
  let x := col * itemWidth layout + 2 in
  let y := startY layout + row * itemHeight layout in
  {| x := x; y := y; row := row; col := col; index := index |}.

Definition getItemIndexFromPosition (x y : Z) (layout : LayoutInfo) (totalItems : Z) : Z :=
  if decide (y < startY layout ∨ x < 2) then -1
  else
    let adjustedX := x - 2 in
    let adjustedY := y - startY layout in
    let col := adjustedX / itemWidth layout in
    let row := adjustedY / itemHeight layout in
    if decide (col >= itemsPerRow layout) then -1
    else
      let index := row * itemsPerRow layout + col in
      if decide (index < totalItems) then index else -1.

Definition isWithinItemBounds (x y : Z) (itemPosition : ItemPosition) (layout : LayoutInfo)
    : bool :=
  bool_decide (x >= LayoutManager.x itemPosition) &&
  bool_decide (x < LayoutManager.x itemPosition + itemWidth layout) &&
  bool_decide (y >= LayoutManager.y itemPosition) &&
  bool_decide (y < LayoutManager.y itemPosition + itemHeight layout).

Record VisibleItems := {
  v_start : Z;
  v_end : Z;
  visibleCount : Z;
}.

(** [scrollOffset] counts rows. *)
Definition getVisibleItems (totalItems : Z) (layout : LayoutInfo) (scrollOffset : Z)
    : VisibleItems :=
  let itemsPerPage := itemsPerRow layout * totalRows layout in
  let start := scrollOffset * itemsPerRow layout in
  let end_ := Z.min totalItems (start + itemsPerPage) in
  let visibleCount := end_ - start in
  {| v_start := start; v_end := end_; visibleCount := visibleCount |}.

Definition getScrollOffsetForItem (itemIndex : Z) (layout : LayoutInfo)
    (currentScrollOffset : Z) : Z :=
  let itemRow := itemIndex / itemsPerRow layout in
  let visibleRowStart := currentScrollOffset in
  let visibleRowEnd := currentScrollOffset + totalRows layout - 1 in
  if decide (itemRow < visibleRowStart) then itemRow
  else if decide (itemRow > visibleRowEnd) then itemRow - totalRows layout + 1
  else currentScrollOffset.

End LayoutManager.

(** ** The platform: Node's [path] module, [Intl] collation, the file system

    None of these is code of the repository. The sources call them, so the
    embedding takes them as interfaces; [posix_path] below is a small
    POSIX instance for paths of the form [dir/base] used in the worked
    examples. *)

Class PathModule := {
  path_dirname : string → string;
  path_extname : string → string;
  (** [path.basename(p)] *)
  path_basename : string → string;
  (** [path.basename(p, ext)] *)
  path_basename_ext : string → string → string;
  (** [path.join(a, b)] *)
  path_join : string → string → string;
}.

(** [a.localeCompare(b, undefined, {numeric: true, sensitivity: 'base'})] *)
Class Collator := {
  localeCompare : string → string → Z;
}.

Record Dirent := {
  d_name : string;
  d_isDirectory : bool;
  d_isFile : bool;
}.

Record Stats := {
  st_size : Z;
  st_mtime : Z;
}.

Inductive FsOp :=
| FsCopy (source destination : string)
| FsMove (source destination : string)
| FsDelete (target : string)
| OpenWithSystem (target : string)
| OpenWithVSCode (target : string).

(** What the outside answers while one handler runs: [None] and [false]
    stand for a rejected promise. *)
Record Env := {
  readdir : string → option (list Dirent);
  stat : string → option Stats;
  (** the paths for which [fs.access] succeeds *)
  existing : list string;
  succeeds : FsOp → bool;
}.

(** [s.startsWith(p)], [Array.prototype.sort] (stable) *)

Definition startsWith (s p : string) : bool := String.prefix p s.

Section Sort.
Context {A : Type} (compareFn : A → A → Z).

Fixpoint sort_insert (a : A) (l : list A) : list A :=
  match l with
  | [] => [a]
  | b :: l' => if decide (compareFn a b ≤ 0) then a :: b :: l' else b :: sort_insert a l'
  end.

Definition js_sort (l : list A) : list A := foldr sort_insert [] l.
End Sort.

(** Splitting a string at the last occurrence of a character. *)
Fixpoint split_last (c : ascii) (s : string) : option (string * string) :=
  match s with
  | EmptyString => None
  | String a s' =>
      match split_last c s' with
      | Some (b, e) => Some (String a b, e)
      | None => if decide (a = c) then Some (EmptyString, s') else None
      end
  end.

Definition ends_with_strip (s suffix : string) : option string :=
  let n := (String.length s - String.length suffix)%nat in
  if decide (String.length suffix < String.length s)%nat then
    if decide (String.substring n (String.length suffix) s = suffix)
    then Some (String.substring 0 n s) else None
  else None.

Definition posix_basename (p : string) : string :=
  match split_last "/"%char p with
  | Some (_, b) => b
  | None => p
  end.

Definition posix_dirname (p : string) : string :=
  match split_last "/"%char p with
  | Some (EmptyString, _) => "/"
  | Some (d, _) => d
  | None => "."
  end.

Definition posix_extname (p : string) : string :=
  match split_last "."%char (posix_basename p) with
  | Some (EmptyString, _) => ""
  | Some (_, e) => String "."%char e
  | None => ""
  end.

Definition posix_basename_ext (p ext : string) : string :=
  let b := posix_basename p in
  match ends_with_strip b ext with
  | Some stem => stem
  | None => b
  end.

Definition posix_join (a b : string) : string :=
  if decide (a = "/") then "/" +:+ b
  else if decide (a = "." ∨ a = "") then b
  else a +:+ "/" +:+ b.

Definition posix_path : PathModule :=
  {| path_dirname := posix_dirname;
     path_extname := posix_extname;
     path_basename := posix_basename;
     path_basename_ext := posix_basename_ext;
     path_join := posix_join |}.

(** ** [core/file-scanner.ts] *)

Module FileScanner.
Section Scanner.
Context {PM : PathModule} {CO : Collator}.

(** The body of the [for] loop: an entry whose [stat] fails is skipped
    with a warning, every other entry is pushed. *)
Definition scanEntry (env : Env) (dirPath : string) (entry : Dirent) : option FileItem :=
  let fullPath := path_join dirPath (d_name entry) in
  match stat env fullPath with
  | Some stats =>
      Some {| name := d_name entry;
              path := fullPath;
              type := if d_isDirectory entry then TDirectory else TFile;
              size := if d_isFile entry then Some (st_size stats) else None;
              lastModified := Some (st_mtime stats) |}
  | None => None
  end.

Definition compareItems (a b : FileItem) : Z :=
  if decide (type a ≠ type b) then
    (if decide (type a = TDirectory) then -1 else 1)
  else localeCompare (name a) (name b).

(** [None] is the [Error] thrown when [readdir] fails. *)
Definition scanDirectory (env : Env) (dirPath : string) : option (list FileItem) :=
  match readdir env dirPath with
  | Some entries =>
      Some (js_sort compareItems (omap (scanEntry env dirPath) entries))
  | None => None
  end.

Definition getParentPath (filePath : string) : string := path_dirname filePath.

Definition isHiddenFile (fileName : string) : bool := startsWith fileName ".".
End Scanner.
End FileScanner.

(** ** [core/FileSystem.ts], the earlier provider *)

Module FileSystem.
Section Provider.
Context {PM : PathModule}.

Record FileItem := {
  name : string;
  path : string;
  isDirectory : bool;
  size : Z;
  modified : Z;
}.

(** [for (const item of items)] with [continue] on a hidden name; a
    failing [stat] is not caught inside the loop and fails the whole
    listing. The result is given before the final sort. *)
Fixpoint listEntries (env : Env) (dirPath : string) (entries : list Dirent)
    : option (list FileItem) :=
  match entries with
  | [] => Some []
  | item :: rest =>
      if startsWith (d_name item) "." then listEntries env dirPath rest
      else
        let fullPath := path_join dirPath (d_name item) in
        match stat env fullPath with
        | Some stats =>
            match listEntries env dirPath rest with
            | Some fileItems =>
                Some ({| name := d_name item;
                         path := fullPath;
                         isDirectory := d_isDirectory item;
                         size := st_size stats;
                         modified := st_mtime stats |} :: fileItems)
            | None => None
            end
        | None => None
        end
  end.
End Provider.
End FileSystem.

(** ** [core/file-operations.ts]: [getUniqueFileName] *)

Module FileOperations.
Section Operations.
Context {PM : PathModule}.

Definition exists_ (env : Env) (filePath : string) : bool :=
  bool_decide (filePath ∈ existing env).

(** The path tried at a given value of [counter]. *)
Definition candidate (filePath : string) (counter : N) : string :=
  let dir := path_dirname filePath in
  let ext := path_extname filePath in
  let name := path_basename_ext filePath ext in
  path_join dir (name +:+ " (" +:+ pretty counter +:+ ")" +:+ ext).

(** The [do ... while (await this.exists(newPath))] loop, with fuel. *)
Fixpoint uniqueLoop (env : Env) (filePath : string) (fuel : nat) (counter : N)
    : option string :=
  match fuel with
  | O => None
  | S fuel' =>
      let newPath := candidate filePath counter in
      if exists_ env newPath then uniqueLoop env filePath fuel' (counter + 1)%N
      else Some newPath
  end.

(** A file system with [n] paths cannot hold [n + 1] distinct
    candidates, so [n + 1] rounds are enough fuel; see
    [getUniqueFileName_returns]. *)
Definition getUniqueFileName (env : Env) (filePath : string) : option string :=
  if negb (exists_ env filePath) then Some filePath
  else uniqueLoop env filePath (S (length (existing env))) 1%N.
End Operations.
End FileOperations.

(** ** Code that may throw

    A computation acts on a world [W] and either completes normally or
    throws; [try_catch] and [forEach] are the JavaScript constructs: an
    exception leaves [forEach] at once unless the callback catches it. *)

Inductive Completion (A : Type) :=
| Normal (a : A)
| Throw (error : string).
Arguments Normal {A} a.
Arguments Throw {A} error.

Definition Eff (W A : Type) : Type := W → Completion A * W.

Definition try_catch {W A : Type} (body : Eff W A) (handler : string → Eff W A) : Eff W A :=
  λ w, match body w with
       | (Normal a, w') => (Normal a, w')
       | (Throw error, w') => handler error w'
       end.

Fixpoint forEach {W X : Type} (l : list X) (callback : X → Eff W unit) : Eff W unit :=
  λ w, match l with
       | [] => (Normal tt, w)
       | x :: l' =>
           match callback x w with
           | (Normal _, w') => forEach l' callback w'
           | (Throw error, w') => (Throw error, w')
           end
       end.

(** [console.error(message, error)] *)
Class Console (W : Type) := {
  console_error : string → string → W → W;
}.

Definition dquote : string := String "034"%char EmptyString.

(** ** [events/event-bus.ts] *)

Module SimpleEventBus.
Section Bus.
Context {W E : Type} `{Console W}.

(** A handler is a function object: [hid] is its identity (what
    [indexOf] compares), [run] its body, which returns or throws before
    returning and leaves the registry alone. Handlers that are [async]
    or that call the bus while they are called are in [LiveBus]
    below. *)
Record EventHandler := {
  hid : nat;
  run : E → Eff W unit;
}.

Definition t : Type := gmap string (list EventHandler).

Definition new : t := ∅.

Definition on (event : string) (handler : EventHandler) (bus : t) : t :=
  <[event := default [] (bus !! event) ++ [handler]]> bus.

Definition emit (event : string) (data : E) (bus : t) : Eff W unit :=
  match bus !! event with
  | Some handlers =>
      forEach handlers (λ handler,
        try_catch (run handler data)
          (λ error w,
             (Normal tt,
              console_error ("Error in event handler for " +:+ dquote +:+ event +:+ dquote +:+ ":")
                            error w)))
  | None => λ w, (Normal tt, w)
  end.

(** [handlers.splice(handlers.indexOf(handler), 1)] *)
Fixpoint remove_first (h : nat) (handlers : list EventHandler) : list EventHandler :=
  match handlers with
  | [] => []
  | h' :: rest => if decide (hid h' = h) then rest else h' :: remove_first h rest
  end.

Definition off (event : string) (handler : option EventHandler) (bus : t) : t :=
  match handler with
  | None => delete event bus
  | Some h =>
      match bus !! event with
      | Some handlers =>
          let handlers' := remove_first (hid h) handlers in
          if decide (length handlers' = 0%nat) then delete event bus
          else <[event := handlers']> bus
      | None => bus
      end
  end.

Definition clear (bus : t) : t := ∅.

(** One handler call as [emit] wraps it: the world after it, with the
    error logged when it threw. *)
Definition guarded (event : string) (data : E) (w : W) (handler : EventHandler) : W :=
  match run handler data w with
  | (Normal _, w') => w'
  | (Throw error, w') =>
      console_error ("Error in event handler for " +:+ dquote +:+ event +:+ dquote +:+ ":")
                    error w'
  end.
(** The calls that change the registry, as data. *)
Inductive Op :=
| OpOn (event : string) (handler : EventHandler)
| OpOff (event : string) (handler : option EventHandler)
| OpClear.

Definition apply (bus : t) (op : Op) : t :=
  match op with
  | OpOn event handler => on event handler bus
  | OpOff event handler => off event handler bus
  | OpClear => clear bus
  end.

(** No topic is kept with an empty array. *)
Definition no_empty (bus : t) : Prop :=
  ∀ event handlers, bus !! event = Some handlers → handlers ≠ [].
End Bus.
Arguments EventHandler : clear implicits.
Arguments t : clear implicits.
Arguments Op : clear implicits.
End SimpleEventBus.

(** ** [events/mouse-handler.ts] *)

Module MouseHandler.

Record t := {
  isListening : bool;
  lastClickTime : Z;
  lastClickX : Z;
  lastClickY : Z;
}.

Definition DOUBLE_CLICK_THRESHOLD : Z := 300.

Definition new : t :=
  {| isListening := false; lastClickTime := 0; lastClickX := 0; lastClickY := 0 |}.

Definition parseButtonCode (code : Z) : option Button :=
  let button := Z.land code 3 in
  if decide (button = 0) then Some BLeft
  else if decide (button = 1) then Some BMiddle
  else if decide (button = 2) then Some BRight
  else None.

(** What [emitMouseEvent] hands to the handlers registered under
    [topic] in [mouseHandlers]. *)
Record Emitted := {
  topic : string;
  payload : MouseEventObject;
}.

Definition isDoubleClick (now : Z) (event : MouseEventObject) (mh : t) : bool :=
  bool_decide (now - lastClickTime mh < DOUBLE_CLICK_THRESHOLD) &&
  bool_decide (Z.abs (ev_x event - lastClickX mh) ≤ 1) &&
  bool_decide (Z.abs (ev_y event - lastClickY mh) ≤ 1) &&
  bool_decide (button event = BLeft).

(** [now] is the value of [Date.now()], milliseconds since the epoch. *)
Definition emitMouseEvent (now : Z) (event : MouseEventObject) (mh : t) : Emitted * t :=
  if isDoubleClick now event mh then
    let doubleClickEvent :=
      {| ev_x := ev_x event; ev_y := ev_y event; button := button event;
         ev_type := DoubleClick |} in
    ({| topic := "double-click"; payload := doubleClickEvent |},
     {| isListening := isListening mh;
        lastClickTime := 0;
        lastClickX := lastClickX mh;
        lastClickY := lastClickY mh |})
  else
    let eventType := if decide (button event = BRight) then "right-click" else "click" in
    ({| topic := eventType; payload := event |},
     if decide (button event = BLeft) then
       {| isListening := isListening mh;
          lastClickTime := now;
          lastClickX := ev_x event;
          lastClickY := ev_y event |}
     else mh).

(** A stream of parsed presses, each with the clock at its arrival. *)
Fixpoint emitAll (presses : list (Z * MouseEventObject)) (mh : t) : list Emitted * t :=
  match presses with
  | [] => ([], mh)
  | (now, event) :: rest =>
      let '(e, mh') := emitMouseEvent now event mh in
      let '(es, mh'') := emitAll rest mh' in
      (e :: es, mh'')
  end.

(** [registerCommonHandlers]: the bus topic an emitted event is
    forwarded to, if any. *)
Definition forwarded (e : Emitted) : option (string * MouseEventObject) :=
  if decide (topic e = "click") then
    if decide (button (payload e) = BLeft) then Some ("mouse:click", payload e) else None
  else if decide (topic e = "double-click") then Some ("mouse:double-click", payload e)
  else if decide (topic e = "right-click") then Some ("mouse:right-click", payload e)
  else None.

Definition press (x y : Z) (b : Button) : MouseEventObject :=
  {| ev_x := x; ev_y := y; button := b; ev_type := Click |}.

(** The three shapes of an emitted event, and the tracked click. *)
Definition as_click (event : MouseEventObject) : Emitted :=
  {| topic := "click"; payload := event |}.

Definition as_right_click (event : MouseEventObject) : Emitted :=
  {| topic := "right-click"; payload := event |}.

Definition as_double_click (event : MouseEventObject) : Emitted :=
  {| topic := "double-click";
     payload := {| ev_x := ev_x event; ev_y := ev_y event;
                   button := button event; ev_type := DoubleClick |} |}.

Definition tracking (mh : t) : Z * Z * Z :=
  (lastClickTime mh, lastClickX mh, lastClickY mh).

End MouseHandler.

(** ** [core/file-manager.ts]: the controller *)

Module FileManager.
Section Controller.
Context {PM : PathModule} {CO : Collator}.

(** The controller's own fields and what it has done to the outside.
    A frame is a function of the state rendered, so [stdout] records
    that state for every call of [render] that draws. *)
Record Ctl := {
  isRunning : bool;
  (** [Some ms]: the interval installed by [setInterval] *)
  renderTimer : option Z;
  (** the handlers of [setupEventHandlers] are on the bus *)
  wired : bool;
  (** listeners installed by [process.stdout.on('resize', ...)] *)
  resizeListeners : nat;
  stdout : list AppState;
  performed : list FsOp;
}.

Record t := {
  stateManager : StateManager.t Ctl;
  ctl : Ctl;
}.

Definition getState (fm : t) : AppState := StateManager.getState (stateManager fm).

(** A call of a store action from the controller. *)
Definition store (act : StateManager.t Ctl → Ctl → StateManager.t Ctl * Ctl) (fm : t) : t :=
  let '(sm, c) := act (stateManager fm) (ctl fm) in
  {| stateManager := sm; ctl := c |}.

Definition new (cwd : string) (termSize : Size) : t :=
  {| stateManager := StateManager.new cwd termSize;
     ctl := {| isRunning := false; renderTimer := None; wired := true;
               resizeListeners := 0; stdout := []; performed := [] |} |}.

(** [render]: nothing when not running, else one full frame. The
    [render] of the source can also throw; when it does is
    [render_throws] below, and a theorem that counts frames carries the
    hypothesis that it does not. *)
Definition render (state : AppState) (c : Ctl) : Ctl :=
  if isRunning c then
    {| isRunning := isRunning c; renderTimer := renderTimer c; wired := wired c;
       resizeListeners := resizeListeners c;
       stdout := stdout c ++ [state];
       performed := performed c |}
  else c.

Definition renderNow (fm : t) : t :=
  {| stateManager := stateManager fm; ctl := render (getState fm) (ctl fm) |}.

(** A [FileOperations] call: recorded, and answered by the outside. *)
Definition perform (env : Env) (op : FsOp) (fm : t) : bool * t :=
  (succeeds env op,
   {| stateManager := stateManager fm;
      ctl := {| isRunning := isRunning (ctl fm); renderTimer := renderTimer (ctl fm);
                wired := wired (ctl fm); resizeListeners := resizeListeners (ctl fm);
                stdout := stdout (ctl fm);
                performed := performed (ctl fm) ++ [op] |} |}).

Definition loadCurrentDirectory (env : Env) (fm : t) : t :=
  let state := getState fm in
  match FileScanner.scanDirectory env (currentPath (viewport state)) with
  | Some its =>
      let fm1 := store (StateManager.setFileItems its) fm in
      let layout := LayoutManager.calculateLayout (terminalSize (viewport state)) in
      let fm2 := store (StateManager.setLayoutInfo (LayoutManager.itemsPerRow layout)
                                                   (LayoutManager.totalRows layout)) fm1 in
      let selectedIndex := selectedIndex (selection state) in
      if decide (selectedIndex >= js_length its) then store StateManager.clearSelection fm2
      else fm2
  | None => store (StateManager.setFileItems []) fm
  end.

Definition handleNavigation (env : Env) (direction : string) (fm : t) : t :=
  let state := getState fm in
  if decide (direction = "up") then store (StateManager.moveSelection Up) fm
  else if decide (direction = "down") then store (StateManager.moveSelection Down) fm
  else if decide (direction = "left") then store (StateManager.moveSelection Left) fm
  else if decide (direction = "right") then store (StateManager.moveSelection Right) fm
  else if decide (direction = "back") then
    let parentPath := FileScanner.getParentPath (currentPath (viewport state)) in
    if decide (parentPath ≠ currentPath (viewport state)) then
      loadCurrentDirectory env (store (StateManager.setCurrentPath parentPath) fm)
    else fm
  else fm.

Definition itemIndexAt (state : AppState) (event : MouseEventObject) : Z :=
  let layout := LayoutManager.calculateLayout (terminalSize (viewport state)) in
  LayoutManager.getItemIndexFromPosition (ev_x event) (ev_y event) layout
    (js_length (items (viewport state))).

Definition handleMouseClick (event : MouseEventObject) (fm : t) : t :=
  let state := getState fm in
  if visible (contextMenu state) then store StateManager.hideContextMenu fm
  else
    let itemIndex := itemIndexAt state event in
    if decide (itemIndex >= 0) then
      let item := js_index (items (viewport state)) itemIndex in
      store (StateManager.setSelection itemIndex item) fm
    else store StateManager.clearSelection fm.

Definition handleFileOpen (env : Env) (fm : t) : t :=
  let state := getState fm in
  match selectedItem (selection state) with
  | None => fm
  | Some selectedItem =>
      if decide (type selectedItem = TDirectory) then
        loadCurrentDirectory env (store (StateManager.setCurrentPath (path selectedItem)) fm)
      else (perform env (OpenWithSystem (path selectedItem)) fm).2
  end.

Definition handleMouseDoubleClick (env : Env) (event : MouseEventObject) (fm : t) : t :=
  let state := getState fm in
  let itemIndex := itemIndexAt state event in
  if decide (itemIndex >= 0) then
    let item := js_index (items (viewport state)) itemIndex in
    handleFileOpen env (store (StateManager.setSelection itemIndex item) fm)
  else fm.

Definition handleMouseRightClick (event : MouseEventObject) (fm : t) : t :=
  let state := getState fm in
  let itemIndex := itemIndexAt state event in
  let targetItem :=
    if decide (itemIndex >= 0) then js_index (items (viewport state)) itemIndex else None in
  let fm1 :=
    if decide (itemIndex >= 0) then store (StateManager.setSelection itemIndex targetItem) fm
    else fm in
  store (StateManager.showContextMenu {| px := ev_x event; py := ev_y event |} targetItem) fm1.

Definition handleFileCopy (fm : t) : t :=
  match selectedItem (selection (getState fm)) with
  | Some selectedItem => store (StateManager.setClipboard (Some selectedItem) (Some OpCopy)) fm
  | None => fm
  end.

Definition handleFileCut (fm : t) : t :=
  match selectedItem (selection (getState fm)) with
  | Some selectedItem => store (StateManager.setClipboard (Some selectedItem) (Some OpCut)) fm
  | None => fm
  end.

(** The destination a paste computes for a clipboard entry. *)
Definition pasteDestination (env : Env) (state : AppState) (clip : FileItem) : option string :=
  let fileName := path_basename (path clip) in
  let destinationPath := path_join (currentPath (viewport state)) fileName in
  FileOperations.getUniqueFileName env destinationPath.

(** An operation that fails throws into the [catch] of the handler:
    neither [clearClipboard] nor the reload runs. *)
Definition handleFilePaste (env : Env) (fm : t) : t :=
  let state := getState fm in
  match clipboard state, clipboardOperation state with
  | Some clip, Some operation =>
      match pasteDestination env state clip with
      | Some finalPath =>
          match operation with
          | OpCopy =>
              let '(ok, fm1) := perform env (FsCopy (path clip) finalPath) fm in
              if ok then loadCurrentDirectory env fm1 else fm1
          | OpCut =>
              let '(ok, fm1) := perform env (FsMove (path clip) finalPath) fm in
              if ok then loadCurrentDirectory env (store StateManager.clearClipboard fm1)
              else fm1
          end
      | None => fm
      end
  | _, _ => fm
  end.

Definition handleFileDelete (env : Env) (fm : t) : t :=
  match selectedItem (selection (getState fm)) with
  | None => fm
  | Some selectedItem =>
      let '(ok, fm1) := perform env (FsDelete (path selectedItem)) fm in
      if ok then loadCurrentDirectory env fm1 else fm1
  end.

Definition handleOpenWithVSCode (env : Env) (fm : t) : t :=
  match selectedItem (selection (getState fm)) with
  | None => fm
  | Some selectedItem => (perform env (OpenWithVSCode (path selectedItem)) fm).2
  end.

Definition handleContextMenuAction (env : Env) (action : string) (fm : t) : t :=
  let fm1 := store StateManager.hideContextMenu fm in
  if decide (action = "open") then handleFileOpen env fm1
  else if decide (action = "open-vscode") then handleOpenWithVSCode env fm1
  else if decide (action = "copy") then handleFileCopy fm1
  else if decide (action = "cut") then handleFileCut fm1
  else if decide (action = "paste") then handleFilePaste env fm1
  else if decide (action = "delete") then handleFileDelete env fm1
  else if decide (action = "refresh") then loadCurrentDirectory env fm1
  else fm1.

(** [renderContextMenu]: which menu is drawn for the stored target. *)
Inductive MenuKind := FileMenu | DirectoryMenu | EmptySpaceMenu.

Definition menuFor (menu : ContextMenuState) : MenuKind :=
  match targetItem menu with
  | Some target => if decide (type target = TDirectory) then DirectoryMenu else FileMenu
  | None => EmptySpaceMenu
  end.

(** [startRenderLoop]: one frame at once, then one every 50 ms. *)
Definition startRenderLoop (fm : t) : t :=
  let fm1 := renderNow fm in
  {| stateManager := stateManager fm1;
     ctl := {| isRunning := isRunning (ctl fm1); renderTimer := Some 50;
               wired := wired (ctl fm1); resizeListeners := resizeListeners (ctl fm1);
               stdout := stdout (ctl fm1); performed := performed (ctl fm1) |} |}.

Definition start (env : Env) (fm : t) : t :=
  if isRunning (ctl fm) then fm
  else
    let fm1 :=
      {| stateManager := stateManager fm;
         ctl := {| isRunning := true; renderTimer := renderTimer (ctl fm);
                   wired := wired (ctl fm);
                   resizeListeners := S (resizeListeners (ctl fm));
                   stdout := stdout (ctl fm); performed := performed (ctl fm) |} |} in
    let fm2 := loadCurrentDirectory env fm1 in
    let fm3 := startRenderLoop fm2 in
    {| stateManager := StateManager.subscribe render (stateManager fm3); ctl := ctl fm3 |}.

Definition stop (fm : t) : t :=
  if negb (isRunning (ctl fm)) then fm
  else
    {| stateManager := stateManager fm;
       ctl := {| isRunning := false; renderTimer := None; wired := false;
                 resizeListeners := resizeListeners (ctl fm);
                 stdout := stdout (ctl fm); performed := performed (ctl fm) |} |}.

(** The interval elapses. *)
Definition tick (fm : t) : t :=
  match renderTimer (ctl fm) with
  | Some _ => renderNow fm
  | None => fm
  end.

(** The terminal is resized: every installed listener stores the size. *)
Definition resize (sz : Size) (fm : t) : t :=
  Nat.iter (resizeListeners (ctl fm)) (store (StateManager.setTerminalSize sz)) fm.

(** The topics of [setupEventHandlers]. *)
Inductive Event :=
| Navigation (direction : string)
| MouseClick (event : MouseEventObject)
| MouseDoubleClick (event : MouseEventObject)
| MouseRightClick (event : MouseEventObject)
| FileOpened
| FileCopy
| FileCut
| FilePaste
| FileDelete
| FileOpenVSCode
| ContextMenuAction (action : string)
| Refresh.

Definition handle (env : Env) (e : Event) (fm : t) : t :=
  if wired (ctl fm) then
    match e with
    | Navigation direction => handleNavigation env direction fm
    | MouseClick event => handleMouseClick event fm
    | MouseDoubleClick event => handleMouseDoubleClick env event fm
    | MouseRightClick event => handleMouseRightClick event fm
    | FileOpened => handleFileOpen env fm
    | FileCopy => handleFileCopy fm
    | FileCut => handleFileCut fm
    | FilePaste => handleFilePaste env fm
    | FileDelete => handleFileDelete env fm
    | FileOpenVSCode => handleOpenWithVSCode env fm
    | ContextMenuAction action => handleContextMenuAction env action fm
    | Refresh => loadCurrentDirectory env fm
    end
  else fm.

(** Everything that can happen to the controller. [ClearClipboard] is
    the store action called on its own. *)
Inductive Input :=
| Start
| Stop
| Tick
| Resize (sz : Size)
| Bus (e : Event)
| ClearClipboard.

Definition step (env : Env) (i : Input) (fm : t) : t :=
  match i with
  | Start => start env fm
  | Stop => stop fm
  | Tick => tick fm
  | Resize sz => resize sz fm
  | Bus e => handle env e fm
  | ClearClipboard => store StateManager.clearClipboard fm
  end.

Fixpoint run (inputs : list (Env * Input)) (fm : t) : t :=
  match inputs with
  | [] => fm
  | (env, i) :: rest => run rest (step env i fm)
  end.

Definition clipboard_inv (s : AppState) : Prop :=
  clipboard s = None ↔ clipboardOperation s = None.

Definition clip_ok (fm : t) : Prop := clipboard_inv (getState fm).

Definition frames (fm : t) : nat := length (stdout (ctl fm)).

(** The controller is running, with its render timer installed and
    [render] as the only listener of the store. *)
Definition rendering (fm : t) : Prop :=
  isRunning (ctl fm) = true ∧
  renderTimer (ctl fm) = Some 50 ∧
  StateManager.listeners (stateManager fm) = [render].
End Controller.
End FileManager.

(** ** JavaScript strings as sequences of UTF-16 code units

    The text functions below measure and cut strings by [length] and
    [substring], which count code units; a string is therefore a list
    of code units here, and an ASCII literal is written [lit "..."]. *)

Definition JsString : Type := list N.

Definition lit (s : string) : JsString := N_of_ascii <$> String.list_ascii_of_string s.

Definition str_length (s : JsString) : Z := Z.of_nat (length s).

(** [s.substring(start, end)]: both ends clamped to [[0, length]], and
    swapped when [start > end]. *)
Definition substring (s : JsString) (start end_ : Z) : JsString :=
  let clamp := λ i, Z.to_nat (Z.max 0 (Z.min i (str_length s))) in
  let lo := Nat.min (clamp start) (clamp end_) in
  let hi := Nat.max (clamp start) (clamp end_) in
  take (hi - lo) (drop lo s).

(** [s.substring(start)] *)
Definition substring_from (s : JsString) (start : Z) : JsString :=
  substring s start (str_length s).

(** [' '.repeat(count)] throws a [RangeError] on a negative count. *)
Definition repeat_space (count : Z) : Completion JsString :=
  if decide (count < 0) then Throw "RangeError: Invalid count value"
  else Normal (replicate (Z.to_nat count) 32%N).

Definition bindC {A B : Type} (c : Completion A) (k : A → Completion B) : Completion B :=
  match c with
  | Normal a => k a
  | Throw error => Throw error
  end.

(** [s.split(' ')] *)
Fixpoint split_space (s : JsString) : list JsString :=
  match s with
  | [] => [[]]
  | c :: s' =>
      if decide (c = 32%N) then [] :: split_space s'
      else match split_space s' with
           | w :: ws => (c :: w) :: ws
           | [] => [[c]]
           end
  end.

(** ** [components/icons.ts]: text helpers *)

Module Icons.

Inductive Align := AlignLeft | AlignCenter | AlignRight.

Definition centerSingleLine (text : JsString) (width : Z) : Completion JsString :=
  let padding := (width - str_length text) / 2 in
  bindC (repeat_space padding) (λ left,
  bindC (repeat_space (width - str_length text - padding)) (λ right,
  Normal (left ++ text ++ right))).

(** The [for (const word of words)] loop of [centerText], on the lines
    pushed so far and [currentLine]. *)
Fixpoint wrapWords (words : list JsString) (width : Z) (lines : list JsString)
    (currentLine : JsString) : Completion (list JsString * JsString) :=
  match words with
  | [] => Normal (lines, currentLine)
  | word :: rest =>
      if decide (str_length currentLine + str_length word + 1 ≤ width) then
        wrapWords rest width lines
          (currentLine ++ (if decide (currentLine ≠ []) then lit " " else []) ++ word)
      else if decide (currentLine ≠ []) then
        bindC (centerSingleLine currentLine width) (λ line,
          wrapWords rest width (lines ++ [line]) word)
      else
        bindC (centerSingleLine (substring word 0 (width - 3) ++ lit "...") width) (λ line,
          wrapWords rest width (lines ++ [line]) [])
  end.

Definition centerText (text : JsString) (width : Z) : Completion (list JsString) :=
  if decide (str_length text ≤ width) then
    let padding := (width - str_length text) / 2 in
    bindC (repeat_space padding) (λ left,
    bindC (repeat_space (width - str_length text - padding)) (λ right,
    Normal [left ++ text ++ right]))
  else
    bindC (wrapWords (split_space text) width [] []) (λ '(lines, currentLine),
      if decide (currentLine ≠ []) then
        bindC (centerSingleLine currentLine width) (λ line, Normal (lines ++ [line]))
      else Normal lines).

Definition truncateText (text : JsString) (maxLength : Z) : JsString :=
  if decide (str_length text ≤ maxLength) then text
  else substring text 0 (maxLength - 3) ++ lit "...".

Definition padText (text : JsString) (width : Z) (align : Align) : Completion JsString :=
  if decide (str_length text >= width) then Normal (substring text 0 width)
  else
    let padding := width - str_length text in
    match align with
    | AlignCenter =>
        let leftPad := padding / 2 in
        let rightPad := padding - leftPad in
        bindC (repeat_space leftPad) (λ left,
        bindC (repeat_space rightPad) (λ right,
        Normal (left ++ text ++ right)))
    | AlignRight => bindC (repeat_space padding) (λ left, Normal (left ++ text))
    | AlignLeft => bindC (repeat_space padding) (λ right, Normal (text ++ right))
    end.

End Icons.

(** ** [components/context-menu.ts] *)

(** [c.repeat(count)] for a one-unit string [c]. *)
Definition repeat_unit (c : N) (count : Z) : Completion JsString :=
  if decide (count < 0) then Throw "RangeError: Invalid count value"
  else Normal (replicate (Z.to_nat count) c).

(** [Math.max(...xs)]: [None] is the [-Infinity] of an empty argument
    list. *)
Definition max_of (xs : list Z) : option Z :=
  foldr (λ a acc, Some (match acc with Some b => Z.max a b | None => a end)) None xs.

(** The colours of [components/theme.ts] used by the menu: functions on
    strings supplied by the [tinyrainbow] package. *)
Class MenuTheme := {
  menu_border : JsString → JsString;
  menu_item : JsString → JsString;
}.

Module ContextMenu.

Record ContextMenuItem := {
  label : JsString;
  action : JsString;
  shortcut : option JsString;
  separator : bool;
}.

Record Bounds := {
  b_x : Z;
  b_y : Z;
  b_width : Z;
  b_height : Z;
}.

Record Menu := {
  lines : list JsString;
  bounds : Bounds;
}.

(** [item.shortcut?.length || 0] *)
Definition shortcutLength (item : ContextMenuItem) : Z :=
  match shortcut item with
  | Some sc => str_length sc
  | None => 0
  end.

Definition maxLabelWidth (items : list ContextMenuItem) : option Z :=
  max_of ((λ item, str_length (label item)) <$> items).

Definition maxShortcutWidth (items : list ContextMenuItem) : option Z :=
  max_of (shortcutLength <$> items).

(** [Math.max(20, maxLabelWidth + maxShortcutWidth + 6)]; with
    [-Infinity] in the sum the maximum is 20. *)
Definition menuWidth (items : list ContextMenuItem) : Z :=
  match maxLabelWidth items, maxShortcutWidth items with
  | Some l, Some sc => Z.max 20 (l + sc + 6)
  | _, _ => 20
  end.

Definition menuHeight (items : list ContextMenuItem) : Z := js_length items + 2.

(** The position after the two off-screen adjustments and the clamp
    at 0. *)
Definition adjust (pos : Position) (items : list ContextMenuItem)
    (terminalWidth terminalHeight : Z) : Z * Z :=
  let x := px pos in
  let y := py pos in
  let x := if decide (x + menuWidth items > terminalWidth)
           then terminalWidth - menuWidth items else x in
  let y := if decide (y + menuHeight items > terminalHeight)
           then terminalHeight - menuHeight items else y in
  (Z.max 0 x, Z.max 0 y).

Definition horizontal (left right : N) (width : Z) : Completion JsString :=
  bindC (repeat_unit 9472 (width - 2)) (λ bar, Normal ([left] ++ bar ++ [right])).

(** One pass of the [for (const item of items)] loop. The two maxima
    are read only here, where [items] is not empty. *)
Definition itemLine (items : list ContextMenuItem) (item : ContextMenuItem)
    : Completion JsString :=
  let ml := default 0 (maxLabelWidth items) in
  let ms := default 0 (maxShortcutWidth items) in
  if separator item then horizontal 9500 9508 (menuWidth items)
  else
    bindC (Icons.padText (label item) ml Icons.AlignLeft) (λ lbl,
    bindC (match shortcut item with
           | Some sc =>
               if decide (sc ≠ []) then Icons.padText sc ms Icons.AlignRight
               else repeat_space ms
           | None => repeat_space ms
           end) (λ sc,
    let spacing := menuWidth items - 2 - str_length lbl - str_length sc in
    bindC (repeat_space spacing) (λ gap,
    Normal ([9474%N] ++ lbl ++ gap ++ sc ++ [9474%N])))).

Fixpoint mapC {A B : Type} (f : A → Completion B) (l : list A) : Completion (list B) :=
  match l with
  | [] => Normal []
  | a :: l' => bindC (f a) (λ b, bindC (mapC f l') (λ bs, Normal (b :: bs)))
  end.

(** The lines before colouring: top border, one line per item, bottom
    border. *)
Definition rawLines (items : list ContextMenuItem) : Completion (list JsString) :=
  bindC (horizontal 9581 9582 (menuWidth items)) (λ top,
  bindC (mapC (itemLine items) items) (λ body,
  bindC (horizontal 9584 9583 (menuWidth items)) (λ bottom,
  Normal ([top] ++ body ++ [bottom])))).

(** [colorContextMenu]: a line with a corner or a tee is a border. *)
Definition colorContextMenu `{MenuTheme} (lines : list JsString) : list JsString :=
  (λ line,
     if decide (9581%N ∈ line ∨ 9583%N ∈ line ∨ 9500%N ∈ line ∨ 9508%N ∈ line)
     then menu_border line else menu_item line) <$> lines.

Definition createContextMenu `{MenuTheme} (items : list ContextMenuItem) (pos : Position)
    (terminalWidth terminalHeight : Z) : Completion Menu :=
  let '(x, y) := adjust pos items terminalWidth terminalHeight in
  bindC (rawLines items) (λ raw,
  Normal {| lines := colorContextMenu raw;
            bounds := {| b_x := x; b_y := y;
                         b_width := menuWidth items;
                         b_height := menuHeight items |} |}).

Definition item (lbl act sc : string) : ContextMenuItem :=
  {| label := lit lbl; action := lit act; shortcut := Some (lit sc); separator := false |}.

Definition separatorItem : ContextMenuItem :=
  {| label := []; action := []; shortcut := None; separator := true |}.


Definition getEmptySpaceContextMenuItems : list ContextMenuItem :=
  [ item "Paste" "paste" "Ctrl+V";
    separatorItem;
    item "Refresh" "refresh" "F5" ].

End ContextMenu.

(** ** [events/mouse-handler.ts]: decoding the reports *)

(** [\d] and [parseInt] on a run of decimal digits. [parseInt] here is
    the value of the digits; the [parseInt] of JavaScript returns the
    nearest double, which is that value up to [Number.MAX_SAFE_INTEGER]:
    a theorem that depends on the value carries that bound. *)
Definition is_digit (c : N) : bool := bool_decide (48 ≤ c ≤ 57)%N.

Fixpoint span_digits (s : JsString) : JsString * JsString :=
  match s with
  | c :: s' =>
      if is_digit c then let '(ds, rest) := span_digits s' in (c :: ds, rest)
      else ([], s)
  | [] => ([], [])
  end.

Definition parseInt (digits : JsString) : Z :=
  foldl (λ acc c, acc * 10 + (Z.of_N c - 48)) 0 digits.

(** [(\d+)] followed by the code unit [stop]. *)
Definition digits_then (stop : N → bool) (s : JsString) : option (JsString * N * JsString) :=
  match span_digits s with
  | (d :: ds, c :: rest) => if stop c then Some (d :: ds, c, rest) else None
  | _ => None
  end.

Module MouseParser.

Definition ESC : N := 27.

Definition is_semicolon (c : N) : bool := bool_decide (c = 59%N).
Definition is_action (c : N) : bool := bool_decide (c = 77%N ∨ c = 109%N).

(** [sequence.match(/^\x1b\[<(\d+);(\d+);(\d+)([Mm])/)]: the three
    digit groups and the action. *)
Definition sgrMatch (sequence : JsString) : option (JsString * JsString * JsString * N) :=
  match sequence with
  | e :: b :: l :: s1 =>
      if bool_decide (e = ESC ∧ b = 91%N ∧ l = 60%N) then
        match digits_then is_semicolon s1 with
        | Some (buttonCode, _, s2) =>
            match digits_then is_semicolon s2 with
            | Some (x, _, s3) =>
                match digits_then is_action s3 with
                | Some (y, action, _) => Some (buttonCode, x, y, action)
                | None => None
                end
            | None => None
            end
        | None => None
        end
      else None
  | _ => None
  end.

(** The legacy branch: [ESC [ M] and at least three more code units. *)
Definition legacy (sequence : JsString) : option MouseEventObject :=
  match sequence with
  | e :: b :: m :: cb :: cx :: cy :: _ =>
      if bool_decide (e = ESC ∧ b = 91%N ∧ m = 77%N) then
        let buttonByte := Z.of_N cb - 32 in
        let x := Z.of_N cx - 33 in
        let y := Z.of_N cy - 33 in
        match MouseHandler.parseButtonCode buttonByte with
        | Some button => Some {| ev_x := x; ev_y := y; button := button; ev_type := Click |}
        | None => None
        end
      else None
  | _ => None
  end.

Definition parseMouseEvent (sequence : JsString) : option MouseEventObject :=
  let sgr :=
    match sgrMatch sequence with
    | Some (buttonCode, x, y, action) =>
        let isPress := bool_decide (action = 77%N) in
        match MouseHandler.parseButtonCode (parseInt buttonCode) with
        | Some button =>
            if isPress then
              Some {| ev_x := parseInt x - 1; ev_y := parseInt y - 1;
                      button := button; ev_type := Click |}
            else None
        | None => None
        end
    | None => None
    end in
  match sgr with
  | Some event => Some event
  | None => legacy sequence
  end.

(** [handleMouseInput]: what is emitted, if anything, and the tracking
    afterwards. *)
Definition handleMouseInput (now : Z) (input : JsString) (mh : MouseHandler.t)
    : option MouseHandler.Emitted * MouseHandler.t :=
  match input with
  | e :: b :: _ =>
      if bool_decide (e = ESC ∧ b = 91%N) then
        match parseMouseEvent input with
        | Some mouseEvent =>
            let '(out, mh') := MouseHandler.emitMouseEvent now mouseEvent mh in
            (Some out, mh')
        | None => (None, mh)
        end
      else (None, mh)
  | _ => (None, mh)
  end.

(** An SGR report as the terminal writes it. *)
Definition sgr (buttonCode x y : JsString) (action : N) : JsString :=
  [ESC; 91%N; 60%N] ++ buttonCode ++ [59%N] ++ x ++ [59%N] ++ y ++ [action].

End MouseParser.

(** ** [events/keyboard-handler.ts] *)

Module KeyboardHandler.

Record KeyEvent := {
  key : JsString;
  ctrl : bool;
  alt : bool;
  shift : bool;
}.

Definition plain (k : JsString) : KeyEvent :=
  {| key := k; ctrl := false; alt := false; shift := false |}.

(** [command.match(/^\d+~/)] *)
Definition matchesDigitsTilde (command : JsString) : bool :=
  match digits_then (λ c, bool_decide (c = 126%N)) command with
  | Some _ => true
  | None => false
  end.

Definition parseEscapeSequence (sequence : JsString) : JsString :=
  if decide (str_length sequence < 3) then lit "escape"
  else
    match sequence with
    | 27%N :: 91%N :: _ =>
        let command := substring_from sequence 2 in
        if decide (command = lit "A") then lit "up"
        else if decide (command = lit "B") then lit "down"
        else if decide (command = lit "C") then lit "right"
        else if decide (command = lit "D") then lit "left"
        else if decide (command = lit "H") then lit "home"
        else if decide (command = lit "F") then lit "end"
        else if decide (command = lit "2~") then lit "insert"
        else if decide (command = lit "3~") then lit "delete"
        else if decide (command = lit "5~") then lit "pageup"
        else if decide (command = lit "6~") then lit "pagedown"
        else if matchesDigitsTilde command then
          lit "f" ++ substring command 0 (str_length command - 1)
        else lit "ansi:" ++ command
    | _ => lit "escape:" ++ substring_from sequence 1
    end.

(** [chunk.charCodeAt(0)] is [NaN] on the empty chunk: every comparison
    fails and the key is [unknown:NaN]. *)
Definition parseKey (chunk : JsString) : KeyEvent :=
  match chunk with
  | [] => plain (lit "unknown:NaN")
  | code :: _ =>
      if decide (code = 3%N) then
        {| key := lit "ctrl+c"; ctrl := true; alt := false; shift := false |}
      else if decide (code = 27%N) then
        if decide (str_length chunk = 1) then plain (lit "escape")
        else plain (parseEscapeSequence chunk)
      else if decide (code = 13%N) then plain (lit "enter")
      else if decide (code = 8%N ∨ code = 127%N) then plain (lit "backspace")
      else if decide (code = 9%N) then plain (lit "tab")
      else if decide (code = 32%N) then plain (lit "space")
      else if decide (1 ≤ code ≤ 26)%N then
        {| key := lit "ctrl+" ++ [(code + 96)%N]; ctrl := true; alt := false; shift := false |}
      else if decide (32 ≤ code ≤ 126)%N then plain chunk
      else plain (lit "unknown:" ++ lit (pretty code))
  end.

(** [registerCommonShortcuts]: the bus topic and direction a decoded key
    is bound to. *)
Definition shortcut (event : KeyEvent) : option (string * string) :=
  let k := key event in
  if decide (k = lit "up") then Some ("navigation", "up")
  else if decide (k = lit "down") then Some ("navigation", "down")
  else if decide (k = lit "left") then Some ("navigation", "left")
  else if decide (k = lit "right") then Some ("navigation", "right")
  else if decide (k = lit "enter") then Some ("file:opened", "")
  else if decide (k = lit "escape") then Some ("navigation", "back")
  else if decide (k = lit "ctrl+c") then
    if ctrl event then Some ("file:copy", "") else None
  else if decide (k = lit "ctrl+x") then Some ("file:cut", "")
  else if decide (k = lit "ctrl+v") then Some ("file:paste", "")
  else if decide (k = lit "delete") then Some ("file:delete", "")
  else if decide (k = lit "f5") then Some ("refresh", "")
  else if decide (k = lit "ctrl+o") then Some ("file:open-vscode", "")
  else None.

(** A CSI sequence [ESC [ body]. *)
Definition csi (body : JsString) : JsString := [27%N; 91%N] ++ body.

End KeyboardHandler.

(** ** [events/event-bus.ts]: handlers that are async or change the registry

    The interface type of a handler is
    [(event) => void | Promise<void>], and a handler holds the bus: it
    may call [on], [off] and [clear] while [emit] is calling it. Here a
    handler is known by its identity, and a [Behaviour] tells what a
    call of each handler does: how the call ends, the world after its
    synchronous part, and the calls it made on the bus, in order.

    [off] splices the array that [emit] is iterating with [forEach].
    [forEach] reads the length once and skips an index that is no
    longer in the array, so the loop is modelled over the array as it
    is at each step, with a flag that tells whether the registry still
    holds that array for the topic. *)

Module LiveBus.

Inductive Outcome :=
(** returns [undefined], or a promise that is fulfilled *)
| Returns
(** throws before returning *)
| Throws (error : string)
(** returns a promise that is rejected: an [async] handler that throws *)
| Rejects (error : string).

Inductive Op :=
| On (event : string) (handler : nat)
| Off (event : string) (handler : option nat)
| Clear.

Definition Registry : Type := gmap string (list nat).

Fixpoint remove_first (h : nat) (handlers : list nat) : list nat :=
  match handlers with
  | [] => []
  | h' :: rest => if decide (h' = h) then rest else h' :: remove_first h rest
  end.

Definition on (event : string) (handler : nat) (registry : Registry) : Registry :=
  <[event := default [] (registry !! event) ++ [handler]]> registry.

Definition off (event : string) (handler : option nat) (registry : Registry) : Registry :=
  match handler with
  | None => delete event registry
  | Some h =>
      match registry !! event with
      | Some handlers =>
          let handlers' := remove_first h handlers in
          if decide (length handlers' = 0%nat) then delete event registry
          else <[event := handlers']> registry
      | None => registry
      end
  end.

Definition clear (registry : Registry) : Registry := ∅.

Definition apply (registry : Registry) (op : Op) : Registry :=
  match op with
  | On event handler => on event handler registry
  | Off event handler => off event handler registry
  | Clear => clear registry
  end.

Section Live.
Context {W E : Type} `{Console W}.

Definition Behaviour : Type := nat → E → W → Outcome * W * list Op.

Record State := {
  registry : Registry;
  (** the array [forEach] is iterating *)
  array : list nat;
  (** the registry still holds that array for the topic *)
  attached : bool;
  world : W;
  (** the handlers called so far, in order *)
  called : list nat;
  (** the rejected promises that nothing handles *)
  unhandled : list string;
}.

(** One call on the bus made by a handler while [event] is dispatched. *)
Definition step_op (event : string) (s : State) (op : Op) : State :=
  let array' :=
    if attached s then
      match op with
      | On e h => if decide (e = event) then array s ++ [h] else array s
      | Off e (Some h) => if decide (e = event) then remove_first h (array s) else array s
      | Off _ None => array s
      | Clear => array s
      end
    else array s in
  let attached' :=
    attached s &&
    match op with
    | On _ _ => true
    | Off e (Some _) => bool_decide (e ≠ event ∨ array' ≠ [])
    | Off e None => bool_decide (e ≠ event)
    | Clear => false
    end in
  {| registry := apply (registry s) op; array := array'; attached := attached';
     world := world s; called := called s; unhandled := unhandled s |}.

(** [handler(data)] *)
Definition call (behaviour : Behaviour) (event : string) (data : E) (h : nat)
    : Eff State unit :=
  λ s,
    let '(outcome, w, ops) := behaviour h data (world s) in
    let s1 :=
      foldl (step_op event)
        {| registry := registry s; array := array s; attached := attached s;
           world := w; called := called s ++ [h]; unhandled := unhandled s |} ops in
    match outcome with
    | Returns => (Normal tt, s1)
    | Throws error => (Throw error, s1)
    | Rejects error =>
        (Normal tt,
         {| registry := registry s1; array := array s1; attached := attached s1;
            world := world s1; called := called s1; unhandled := unhandled s1 ++ [error] |})
    end.

(** The [catch] of [emit]. *)
Definition log (event : string) (error : string) : Eff State unit :=
  λ s,
    (Normal tt,
     {| registry := registry s; array := array s; attached := attached s;
        world := console_error
                   ("Error in event handler for " +:+ dquote +:+ event +:+ dquote +:+ ":")
                   error (world s);
        called := called s; unhandled := unhandled s |}).

(** [array.forEach(callback)] from index [k], with [remaining] indices
    to go. *)
Fixpoint forEachLive (callback : nat → Eff State unit) (remaining k : nat) : Eff State unit :=
  λ s,
    match remaining with
    | O => (Normal tt, s)
    | S remaining' =>
        match array s !! k with
        | Some h =>
            match callback h s with
            | (Normal _, s') => forEachLive callback remaining' (S k) s'
            | (Throw error, s') => (Throw error, s')
            end
        | None => forEachLive callback remaining' (S k) s
        end
    end.

Definition emit (behaviour : Behaviour) (event : string) (data : E)
    (registry : Registry) (w : W) : Completion unit * State :=
  match registry !! event with
  | Some handlers =>
      forEachLive (λ h, try_catch (call behaviour event data h) (log event))
        (length handlers) 0
        {| registry := registry; array := handlers; attached := true;
           world := w; called := []; unhandled := [] |}
  | None =>
      (Normal tt,
       {| registry := registry; array := []; attached := false;
          world := w; called := []; unhandled := [] |})
  end.

(** One handler call as [emit] wraps it: the world after it, with the
    error logged when it threw, and the rejections left unhandled. *)
Definition guarded (behaviour : Behaviour) (event : string) (data : E)
    (acc : W * list string) (h : nat) : W * list string :=
  match behaviour h data acc.1 with
  | (Returns, w, _) => (w, acc.2)
  | (Throws error, w, _) =>
      (console_error ("Error in event handler for " +:+ dquote +:+ event +:+ dquote +:+ ":")
                     error w,
       acc.2)
  | (Rejects error, w, _) => (w, acc.2 ++ [error])
  end.
End Live.
Arguments Behaviour : clear implicits.
Arguments State : clear implicits.
End LiveBus.

(** ** [render] and exceptions

    [FileManager.render] records the frame it draws. The [render] of the
    source can also throw a [RangeError]: [createWindowFrame] calls
    [repeat(width - 2)], and for a list that is not empty
    [renderFileGrid] calls [createFileItem] for every item, which calls
    [centerText(name, 9)]. Nothing else in [render] throws: the other
    components pad with [padText], and [createContextMenu] never throws.
    A name is a string of code units below 256. *)

Definition centerText_throws (name : string) : bool :=
  match Icons.centerText (lit name) 9 with
  | Throw _ => true
  | Normal _ => false
  end.

Definition render_throws (state : AppState) : bool :=
  bool_decide (width (terminalSize (viewport state)) < 2) ||
  existsb (λ item, centerText_throws (name item)) (items (viewport state)).

(** ** The calls of the store made by the controller

    [issued s a]: what is known of the arguments of a store action
    where [file-manager.ts] calls it, [s] being the state at the time
    of the call. [setSelection] is called by the three mouse handlers,
    each time with an index [>= 0] that [getItemIndexFromPosition]
    returned for the length of the list read in the same synchronous
    block, and the item at that index; [setLayoutInfo] is called with a
    layout computed by [calculateLayout], possibly of a terminal size
    read before an [await]. Whatever the order in which the handlers'
    steps run, and whether or not a listener throws after the state is
    installed, the store goes through a sequence of such calls. *)

Definition issued (s : AppState) (a : StateManager.Action) : Prop :=
  match a with
  | StateManager.SetLayoutInfo perRow rows =>
      ∃ terminalSize,
        perRow = LayoutManager.itemsPerRow (LayoutManager.calculateLayout terminalSize) ∧
        rows = LayoutManager.totalRows (LayoutManager.calculateLayout terminalSize)
  | StateManager.SetSelection index item =>
      ∃ event,
        index = FileManager.itemIndexAt s event ∧ 0 ≤ index ∧
        item = js_index (items (viewport s)) index
  | _ => True
  end.

Fixpoint all_issued {W : Type} (acts : list StateManager.Action)
    (sm : StateManager.t W) (w : W) : Prop :=
  match acts with
  | [] => True
  | a :: acts' =>
      issued (StateManager.state sm) a ∧
      let '(sm', w') := StateManager.call a sm w in all_issued acts' sm' w'
  end.

(** [Number.MAX_SAFE_INTEGER]: up to it, the double that [parseInt]
    returns is the value of the digits. *)
Definition MAX_SAFE_INTEGER : Z := 9007199254740991.

(** A collation by code units, for the worked examples. *)
Definition code_unit_order : Collator :=
  {| localeCompare := λ a b,
       match String.compare a b with
       | Lt => -1
       | Eq => 0
       | Gt => 1
       end |}.

(** ** The controller's own fields across a handler

    The listeners the controller subscribes are all [render], which
    writes a frame and touches no other field. [steady fm0 fm]: from
    [fm0] to [fm] the listeners of the store, the flags, the timer and
    the resize listeners are the same; [quiet fm0 fm]: no file operation
    was performed either. *)

Definition subscribed_render (fm : FileManager.t) : Prop :=
  Forall (λ listener, listener = FileManager.render)
    (StateManager.listeners (FileManager.stateManager fm)).

Definition steady (fm0 fm : FileManager.t) : Prop :=
  StateManager.listeners (FileManager.stateManager fm)
    = StateManager.listeners (FileManager.stateManager fm0) ∧
  FileManager.isRunning (FileManager.ctl fm) = FileManager.isRunning (FileManager.ctl fm0) ∧
  FileManager.renderTimer (FileManager.ctl fm) = FileManager.renderTimer (FileManager.ctl fm0) ∧
  FileManager.wired (FileManager.ctl fm) = FileManager.wired (FileManager.ctl fm0) ∧
  FileManager.resizeListeners (FileManager.ctl fm)
    = FileManager.resizeListeners (FileManager.ctl fm0).

Definition quiet (fm0 fm : FileManager.t) : Prop :=
  steady fm0 fm ∧
  FileManager.performed (FileManager.ctl fm) = FileManager.performed (FileManager.ctl fm0).

(** What every handler keeps of the selection. *)
Definition selection_shape (s : AppState) : Prop :=
  0 ≤ itemsPerRow (viewport s) ∧
  -1 ≤ selectedIndex (selection s) ∧
  (selectedIndex (selection s) = -1 → selectedItem (selection s) = None).

(** ** Data for the worked examples *)

Definition size80 : Size := {| width := 80; height := 24 |}.

Definition item_a : FileItem :=
  {| name := "a.txt"; path := "/home/u/a.txt"; type := TFile;
     size := Some 12; lastModified := Some 1700000000000 |}.

Definition item_b : FileItem :=
  {| name := "b.txt"; path := "/home/u/b.txt"; type := TFile;
     size := Some 7; lastModified := Some 1700000000001 |}.

Definition home_listing : list Dirent :=
  [ {| d_name := "notes.txt"; d_isDirectory := false; d_isFile := true |};
    {| d_name := ".git"; d_isDirectory := true; d_isFile := false |} ].

Definition home_env : Env :=
  {| readdir := λ p, if decide (p = "/home/u") then Some home_listing else None;
     stat := λ _, Some {| st_size := 4096; st_mtime := 1700000000000 |};
     existing := ["/home/u/notes.txt"; "/home/u/.git"];
     succeeds := λ _, true |}.

Definition report_env : Env :=
  {| readdir := λ _, None;
     stat := λ _, None;
     existing := ["/home/u/report.txt"; "/home/u/report (1).txt"];
     succeeds := λ _, true |}.

Definition report_item : FileItem :=
  {| name := "report.txt"; path := "/tmp/in/report.txt"; type := TFile;
     size := Some 120; lastModified := Some 1700000000000 |}.

(** Two files as in the example of the specification, in the directory
    shown; the collation keeps the order of [readdir]. *)
Definition report_listing : list Dirent :=
  [ {| d_name := "report.txt"; d_isDirectory := false; d_isFile := true |};
    {| d_name := "report (1).txt"; d_isDirectory := false; d_isFile := true |} ].

Definition report_dir_env : Env :=
  {| readdir := λ p, if decide (p = "/home/u") then Some report_listing else None;
     stat := λ _, Some {| st_size := 120; st_mtime := 1700000000000 |};
     existing := ["/home/u/report.txt"; "/home/u/report (1).txt"];
     succeeds := λ _, true |}.

Definition readdir_order : Collator := {| localeCompare := λ _ _, 0 |}.

(** A directory [docs] with one file in it. *)
Definition docs_env : Env :=
  {| readdir := λ p,
       if decide (p = "/home/u") then
         Some [ {| d_name := "docs"; d_isDirectory := true; d_isFile := false |} ]
       else if decide (p = "/home/u/docs") then
         Some [ {| d_name := "x.txt"; d_isDirectory := false; d_isFile := true |} ]
       else None;
     stat := λ _, Some {| st_size := 9; st_mtime := 1700000000000 |};
     existing := ["/home/u/docs"; "/home/u/docs/x.txt"];
     succeeds := λ _, true |}.

(** A world that records what happened, in order. *)
#[local] Instance trace_console : Console (list string) :=
  {| console_error := λ message error w, w ++ [message +:+ " " +:+ error] |}.

Definition says (hid : nat) (line : string) : SimpleEventBus.EventHandler (list string) unit :=
  {| SimpleEventBus.hid := hid;
     SimpleEventBus.run := λ _ w, (Normal tt, w ++ [line]) |}.

Definition fails (hid : nat) (line error : string)
    : SimpleEventBus.EventHandler (list string) unit :=
  {| SimpleEventBus.hid := hid;
     SimpleEventBus.run := λ _ w, (Throw error, w ++ [line]) |}.

Definition three_handlers : SimpleEventBus.t (list string) unit :=
  SimpleEventBus.on "refresh" (says 3 "third")
    (SimpleEventBus.on "refresh" (fails 2 "second" "boom")
       (SimpleEventBus.on "refresh" (says 1 "first") SimpleEventBus.new)).

Definition selected_a : FileManager.t :=
  FileManager.store (StateManager.setSelection 0 (Some item_a))
    (FileManager.store (StateManager.setFileItems [item_a; item_b])
       (FileManager.new "/home/u" size80)).

(** A controller started in [/home/u], and one with a cut item. *)
Definition running_home : FileManager.t :=
  FileManager.start (PM := posix_path) (CO := readdir_order) home_env
    (FileManager.new "/home/u" size80).

Definition cut_a : FileManager.t :=
  FileManager.store (StateManager.setClipboard (Some item_a) (Some OpCut)) selected_a.

Definition failing_move_env : Env :=
  {| readdir := λ _, None;
     stat := λ _, None;
     existing := [];
     succeeds := λ _, false |}.

(** Three handlers on [refresh]; the first unsubscribes itself when it
    is called, as a handler that is to run once does. The fourth is an
    [async] handler that throws. *)
Definition once_table : LiveBus.Behaviour (list string) unit :=
  λ h _ w,
    if decide (h = 1%nat) then
      (LiveBus.Returns, w ++ ["first"], [LiveBus.Off "refresh" (Some 1%nat)])
    else if decide (h = 2%nat) then (LiveBus.Returns, w ++ ["second"], [])
    else if decide (h = 3%nat) then (LiveBus.Returns, w ++ ["third"], [])
    else (LiveBus.Rejects "boom", w ++ ["fourth"], []).

(** The handlers of [three_handlers], which leave the bus alone. *)
Definition plain_table : LiveBus.Behaviour (list string) unit :=
  λ h _ w,
    if decide (h = 1%nat) then (LiveBus.Returns, w ++ ["first"], [])
    else if decide (h = 2%nat) then (LiveBus.Throws "boom", w ++ ["second"], [])
    else (LiveBus.Returns, w ++ ["third"], [LiveBus.On "refresh" 4%nat]).

Definition refresh_registry : LiveBus.Registry := {[ "refresh" := [1%nat; 2%nat; 3%nat] ]}.

(** A directory whose entries [readdir] returns out of order. *)
Definition mixed_listing : list Dirent :=
  [ {| d_name := "b.txt"; d_isDirectory := false; d_isFile := true |};
    {| d_name := "docs"; d_isDirectory := true; d_isFile := false |};
    {| d_name := "c.txt"; d_isDirectory := false; d_isFile := true |};
    {| d_name := "archive"; d_isDirectory := true; d_isFile := false |};
    {| d_name := "a.txt"; d_isDirectory := false; d_isFile := true |} ].

Definition mixed_env : Env :=
  {| readdir := λ p, if decide (p = "/home/u") then Some mixed_listing else None;
     stat := λ _, Some {| st_size := 1; st_mtime := 1700000000000 |};
     existing := [];
     succeeds := λ _, true |}.


(** * Properties *)

(** ** Array indexing *)

Lemma js_index_Some {A : Type} (l : list A) (i : Z) :
  0 ≤ i < js_length l → ∃ a, js_index l i = Some a.
Proof.
  intros [Hlo Hhi]. unfold js_index, js_length in *.
  destruct (decide (0 ≤ i)) as [_|]; [|lia].
  apply lookup_lt_is_Some_2. lia.
Qed.

Lemma js_index_None {A : Type} (l : list A) (i : Z) :
  i < 0 ∨ js_length l ≤ i → js_index l i = None.
Proof.
  intros Hi. unfold js_index, js_length in *.
  destruct (decide (0 ≤ i)); [|done].
  apply lookup_ge_None_2. lia.
Qed.

Lemma js_index_is_Some {A : Type} (l : list A) (i : Z) (a : A) :
  js_index l i = Some a → 0 ≤ i < js_length l.
Proof.
  unfold js_index, js_length.
  destruct (decide (0 ≤ i)); [|done].
  intros Hl. apply lookup_lt_Some in Hl. lia.
Qed.

(** ** The state store *)

Section StoreFacts.
Context {W : Type}.
Implicit Types (sm : StateManager.t W) (w : W) (s : AppState).
Import StateManager.

Lemma state_updateState (f : AppState → AppState) sm w :
  state (updateState f sm w).1 = f (state sm).
Proof. reflexivity. Qed.

Lemma listeners_updateState (f : AppState → AppState) sm w :
  listeners (updateState f sm w).1 = listeners sm.
Proof. reflexivity. Qed.

(** One action, one notification round: the world after an update is
    the old one passed through every listener once, in order, with the
    new state. *)
Lemma world_updateState (f : AppState → AppState) sm w :
  (updateState f sm w).2 = foldl (λ w' l, l (f (state sm)) w') w (listeners sm).
Proof. reflexivity. Qed.

Lemma selection_inv_initial (p : string) (sz : Size) :
  selection_inv (initialState p sz).
Proof. split; [done|]. simpl. intros Hne. by destruct Hne. Qed.

(** A selection that differs from the old one only in fields the
    invariant does not read. *)
Lemma selection_inv_same s s' :
  selection s' = selection s → items (viewport s') = items (viewport s) →
  selection_inv s → selection_inv s'.
Proof. unfold selection_inv. intros -> ->. done. Qed.

Lemma selection_inv_set (index : Z) (item : option FileItem) sm w :
  (index = -1 ∧ item = None) ∨
  (0 ≤ index < js_length (items (viewport (state sm))) ∧
   js_index (items (viewport (state sm))) index = item) →
  selection_inv (state (setSelection index item sm w).1).
Proof.
  intros [[-> ->]|[Hrange Hitem]]; unfold selection_inv; simpl.
  - split; [done|]. intros Hne. by destruct Hne.
  - destruct (js_index_Some _ _ Hrange) as [a Ha].
    split; [|done]. split; [lia|]. congruence.
Qed.

Lemma newIndex_range (d : Direction) (i len ipr : Z) :
  0 < len → -1 ≤ i < len → 0 ≤ ipr → -1 ≤ newIndex d i len ipr < len.
Proof. intros Hlen Hi Hipr. destruct d; simpl; lia. Qed.

Lemma newIndex_range_strict (d : Direction) (i len ipr : Z) :
  0 < len → -1 ≤ i < len → 1 ≤ ipr → 0 ≤ newIndex d i len ipr < len.
Proof. intros Hlen Hi Hipr. destruct d; simpl; lia. Qed.

Lemma selection_inv_index_range s :
  selection_inv s → -1 ≤ selectedIndex (selection s) < Z.max 1 (js_length (items (viewport s))).
Proof.
  intros [_ Hin].
  destruct (decide (selectedIndex (selection s) = -1)) as [->|Hne]; [lia|].
  specialize (Hin Hne). lia.
Qed.

Lemma selection_inv_move (d : Direction) sm w :
  0 ≤ itemsPerRow (viewport (state sm)) →
  selection_inv (state sm) → selection_inv (state (moveSelection d sm w).1).
Proof.
  intros Hipr Hinv. unfold moveSelection.
  destruct (decide (js_length (items (viewport (state sm))) = 0)) as [|Hlen]; [done|].
  assert (0 < js_length (items (viewport (state sm)))) as Hpos
    by (unfold js_length in *; lia).
  pose proof (selection_inv_index_range _ Hinv) as Hidx.
  pose proof (newIndex_range d (selectedIndex (selection (state sm))) _ _ Hpos
                ltac:(lia) Hipr) as Hnew.
  apply selection_inv_set.
  set (n := newIndex _ _ _ _) in *.
  destruct (decide (n = -1)) as [->|Hne].
  - left. split; [done|]. apply js_index_None. lia.
  - right. split; [lia|done].
Qed.

Lemma selection_inv_call (a : Action) sm w :
  selection_inv (state sm) → respects (state sm) a →
  selection_inv (state (call a sm w).1).
Proof.
  intros Hinv Hresp. destruct a; cbn [call respects] in *;
    try (by eapply selection_inv_same; [| |exact Hinv]).
  - (* setFileItems *)
    destruct Hinv as [Hiff _]. split; [exact Hiff|]. simpl.
    intros Hne. destruct Hresp as [?|?]; [done|done].
  - by apply selection_inv_set.
  - apply selection_inv_set. by left.
  - by apply selection_inv_move.
Qed.
End StoreFacts.

(** C1, as the code has it. The store keeps the selection invariant
    only as far as its callers do: it holds in the initial state and
    after every sequence of action calls in which [setSelection] is given
    [(-1, null)] or an index in range with the item at that index,
    [setFileItems] is given a list in which the current selection is
    still the item at the selected index (or nothing is selected), and
    [moveSelection] is called with a stored [itemsPerRow >= 0]. *)
Theorem selection_inv_kept_by_respectful_callers
    {W : Type} (acts : list StateManager.Action) (sm : StateManager.t W) (w : W) :
  StateManager.selection_inv (StateManager.state sm) →
  StateManager.respectful acts sm w →
  StateManager.selection_inv (StateManager.state (StateManager.calls acts sm w).1).
Proof.
  revert sm w. induction acts as [|a acts IH]; intros sm w Hinv Hresp; [done|].
  simpl in *. destruct Hresp as [Ha Hrest].
  pose proof (selection_inv_call a sm w Hinv Ha) as Hinv'.
  destruct (StateManager.call a sm w) as [sm' w']. by apply IH.
Qed.

Lemma selection_inv_kept_by_respectful_callers_witness :
  let acts := [StateManager.SetFileItems [item_a; item_b];
               StateManager.SetLayoutInfo 5 3;
               StateManager.SetSelection 1 (Some item_b);
               StateManager.MoveSelection Left;
               StateManager.SetFileItems [item_a];
               StateManager.ClearSelection] in
  let sm : StateManager.t unit := StateManager.new "/home/u" size80 in
  StateManager.selection_inv (StateManager.state sm) ∧
  StateManager.respectful acts sm () ∧
  StateManager.selection_inv (StateManager.state (StateManager.calls acts sm ()).1).
Proof.
  intros acts sm.
  assert (StateManager.selection_inv (StateManager.state sm)) as Hinv
    by apply selection_inv_initial.
  assert (StateManager.respectful acts sm ()) as Hresp.
  { vm_compute. repeat split; auto; try (right; repeat split; congruence);
      try (left; reflexivity); discriminate. }
  split; [exact Hinv|]. split; [exact Hresp|].
  exact (selection_inv_kept_by_respectful_callers acts sm () Hinv Hresp).
Defined.

(** C1, as stated, fails: the store installs whatever [setSelection] is
    given and [setFileItems] leaves the selection alone. After
    [setFileItems([a]); setSelection(0, a); setFileItems([])] the
    selected index is 0 in an empty list. *)
Lemma store_does_not_enforce_selection_inv :
  let sm : StateManager.t unit := StateManager.new "/home/u" size80 in
  ¬ StateManager.selection_inv
      (StateManager.state
         (StateManager.calls [StateManager.SetFileItems [item_a];
                              StateManager.SetSelection 0 (Some item_a);
                              StateManager.SetFileItems []] sm ()).1).
Proof.
  intros sm [_ Hin]. simpl in Hin.
  destruct Hin as [[_ Hlt] _]; [done|]. vm_compute in Hlt. discriminate.
Qed.

(** The controller does not restore the invariant after every load
    either: opening the selected directory replaces the items and keeps
    the old selection when its index is still in range. *)
Example reload_keeps_stale_item :
  let fm :=
    FileManager.run (PM := posix_path) (CO := readdir_order)
      [(docs_env, FileManager.Start);
       (docs_env, FileManager.Bus (FileManager.MouseClick (MouseHandler.press 3 5 BLeft)));
       (docs_env, FileManager.Bus FileManager.FileOpened)]
      (FileManager.new "/home/u" size80) in
  let s := FileManager.getState fm in
  currentPath (viewport s) = "/home/u/docs" ∧
  name <$> items (viewport s) = ["x.txt"] ∧
  selectedIndex (selection s) = 0 ∧
  name <$> selectedItem (selection s) = Some "docs" ∧
  ¬ StateManager.selection_inv s.
Proof.
  intros fm s. repeat (split; [vm_compute; reflexivity|]).
  intros [_ Hin]. destruct Hin as [_ Hitem]; [vm_compute; discriminate|].
  vm_compute in Hitem. discriminate.
Qed.

(** ** Moving the selection *)

(** C4, as the code has it. For a list that is not empty the index
    [moveSelection] selects is in [[0, items.length)] exactly when:
    left, the old index is at most [items.length]; right, it is at
    least [-1]; up, the old index less [itemsPerRow] is below
    [items.length]; down, the old index plus [itemsPerRow] is not
    negative. So for every old index in [[-1, items.length)] and every
    [itemsPerRow >= 0], the initial 0 included, the new index is in
    range and an item is selected, in every case but one: down with
    nothing selected and [itemsPerRow = 0], which selects nothing
    again. The item selected is always the one at the new index. When
    the list is empty [moveSelection] changes nothing and notifies
    nobody, whatever the selection and [itemsPerRow] are. *)
Theorem moveSelection_in_range
    {W : Type} (d : Direction) (sm : StateManager.t W) (w : W) :
  let s := StateManager.state sm in
  let s' := StateManager.state (StateManager.moveSelection d sm w).1 in
  let len := js_length (items (viewport s)) in
  let index := selectedIndex (selection s) in
  let perRow := itemsPerRow (viewport s) in
  (0 < len →
     (0 ≤ selectedIndex (selection s') < len ↔
        match d with
        | Left => index ≤ len
        | Right => -1 ≤ index
        | Up => index - perRow < len
        | Down => 0 ≤ index + perRow
        end) ∧
     items (viewport s') = items (viewport s) ∧
     selectedItem (selection s') = js_index (items (viewport s)) (selectedIndex (selection s'))) ∧
  (0 < len → -1 ≤ index < len → 0 ≤ perRow →
     (¬ (d = Down ∧ index = -1 ∧ perRow = 0) →
        0 ≤ selectedIndex (selection s') < len ∧ is_Some (selectedItem (selection s'))) ∧
     (d = Down ∧ index = -1 ∧ perRow = 0 →
        selectedIndex (selection s') = -1 ∧ selectedItem (selection s') = None)) ∧
  (len = 0 → StateManager.moveSelection d sm w = (sm, w)).
Proof.
  intros s s' len index perRow. subst s s' len index perRow.
  unfold StateManager.moveSelection.
  destruct (decide (js_length (items (viewport (StateManager.state sm))) = 0)) as [Hz|Hnz].
  - split; [intros Hlen; rewrite Hz in Hlen; done|]. split; [intros Hlen; rewrite Hz in Hlen; done|done].
  - unfold StateManager.setSelection. rewrite state_updateState. cbn [selection viewport
      selectedIndex selectedItem items].
    set (len := js_length (items (viewport (StateManager.state sm)))) in *.
    set (index := selectedIndex (selection (StateManager.state sm))).
    set (perRow := itemsPerRow (viewport (StateManager.state sm))).
    split; [|split; [|done]].
    + intros Hlen. split; [|done]. destruct d; simpl; lia.
    + intros Hlen Hindex HperRow. split.
      * intros Hnot.
        assert (0 ≤ StateManager.newIndex d index len perRow < len) as Hnew
          by (destruct d; simpl; try lia;
              assert (¬ (index = -1 ∧ perRow = 0)) by (intros ?; by apply Hnot); lia).
        split; [exact Hnew|]. destruct (js_index_Some _ _ Hnew) as [a ->]. by eexists.
      * intros (-> & Hi & Hp). simpl. rewrite Hi, Hp.
        replace (Z.min (len - 1) (-1 + 0)) with (-1) by lia.
        split; [done|]. apply js_index_None. lia.
Qed.

Lemma moveSelection_in_range_witness :
  let sm : StateManager.t unit :=
    (StateManager.calls [StateManager.SetFileItems [item_a; item_b]]
                        (StateManager.new "/home/u" size80) ()).1 in
  let s := StateManager.state sm in
  let s' := StateManager.state (StateManager.moveSelection Right sm ()).1 in
  (0 < js_length (items (viewport s)) ∧
   -1 ≤ selectedIndex (selection s) < js_length (items (viewport s)) ∧
   0 ≤ itemsPerRow (viewport s) ∧ itemsPerRow (viewport s) = 0 ∧
   ¬ (Right = Down ∧ selectedIndex (selection s) = -1 ∧ itemsPerRow (viewport s) = 0)) ∧
  0 ≤ selectedIndex (selection s') < js_length (items (viewport s)) ∧
  is_Some (selectedItem (selection s')).
Proof.
  intros sm s s'.
  assert (0 < js_length (items (viewport s))) as H1 by (vm_compute; reflexivity).
  assert (-1 ≤ selectedIndex (selection s) < js_length (items (viewport s))) as H2
    by (vm_compute; split; [discriminate|reflexivity]).
  assert (0 ≤ itemsPerRow (viewport s)) as H3 by (vm_compute; discriminate).
  assert (itemsPerRow (viewport s) = 0) as H4 by reflexivity.
  assert (¬ (Right = Down ∧ selectedIndex (selection s) = -1 ∧ itemsPerRow (viewport s) = 0))
    as H5 by (intros [Hd _]; discriminate).
  split; [done|].
  exact (proj1 (proj1 (proj2 (moveSelection_in_range Right sm ())) H1 H2 H3) H5).
Defined.

(** C4, as stated, fails: with nothing selected and the initial
    [itemsPerRow = 0] (items stored, layout not yet), [down] computes
    [min(len - 1, -1 + 0) = -1]. *)
Lemma moveSelection_out_of_range :
  let sm : StateManager.t unit :=
    (StateManager.calls [StateManager.SetFileItems [item_a]]
                        (StateManager.new "/home/u" size80) ()).1 in
  let s := StateManager.state sm in
  let s' := StateManager.state (StateManager.moveSelection Down sm ()).1 in
  selectedIndex (selection s) = -1 ∧ itemsPerRow (viewport s) = 0 ∧
  ¬ (0 < js_length (items (viewport s)) →
     0 ≤ selectedIndex (selection s') < js_length (items (viewport s))).
Proof.
  intros sm s s'. split; [reflexivity|]. split; [reflexivity|].
  intros Hclaim. destruct Hclaim as [Hlo _]; [reflexivity|].
  vm_compute in Hlo. by apply Hlo.
Qed.

(** ** The layout engine *)

Lemma calculateLayout_positive (terminalSize : Size) :
  1 ≤ LayoutManager.itemsPerRow (LayoutManager.calculateLayout terminalSize) ∧
  1 ≤ LayoutManager.totalRows (LayoutManager.calculateLayout terminalSize).
Proof. simpl. unfold LayoutManager.MIN_ITEMS_PER_ROW. lia. Qed.

Lemma getItemIndexFromPosition_outside (x y totalItems : Z) (layout : LayoutManager.LayoutInfo) :
  y < LayoutManager.startY layout ∨ x < 2 →
  LayoutManager.getItemIndexFromPosition x y layout totalItems = -1.
Proof.
  intros Hout. unfold LayoutManager.getItemIndexFromPosition.
  by destruct (decide (y < LayoutManager.startY layout ∨ x < 2)).
Qed.

(** The index found is [-1] or an index below [totalItems]. *)
Lemma getItemIndexFromPosition_bound (x y totalItems : Z) (layout : LayoutManager.LayoutInfo) :
  LayoutManager.getItemIndexFromPosition x y layout totalItems = -1 ∨
  LayoutManager.getItemIndexFromPosition x y layout totalItems < totalItems.
Proof.
  unfold LayoutManager.getItemIndexFromPosition.
  repeat (case_decide; auto).
Qed.

(** Row and column of an index in a grid with a positive number of
    columns. *)
Lemma getItemPosition_row_col (index : Z) (layout : LayoutManager.LayoutInfo) :
  0 ≤ index → 0 < LayoutManager.itemsPerRow layout →
  let p := LayoutManager.getItemPosition index layout in
  0 ≤ LayoutManager.row p ∧
  0 ≤ LayoutManager.col p < LayoutManager.itemsPerRow layout ∧
  index = LayoutManager.row p * LayoutManager.itemsPerRow layout + LayoutManager.col p.
Proof.
  intros Hidx Hipr p. subst p. simpl.
  rewrite Z.rem_mod_nonneg by lia.
  pose proof (Z.mod_pos_bound index (LayoutManager.itemsPerRow layout) Hipr).
  pose proof (Z.div_mod index (LayoutManager.itemsPerRow layout)).
  pose proof (Z.div_pos index (LayoutManager.itemsPerRow layout)).
  split; [lia|]. split; [lia|]. lia.
Qed.

(** C6. For a layout computed by [calculateLayout] and an index of the
    grid, the coordinates [getItemPosition] gives for the index are
    mapped back to the index by [getItemIndexFromPosition], for every
    [totalItems] above the index. *)
Theorem getItemIndexFromPosition_getItemPosition
    (terminalSize : Size) (index totalItems : Z) :
  let L := LayoutManager.calculateLayout terminalSize in
  let p := LayoutManager.getItemPosition index L in
  0 ≤ index < LayoutManager.itemsPerRow L * LayoutManager.totalRows L →
  index < totalItems →
  LayoutManager.getItemIndexFromPosition (LayoutManager.x p) (LayoutManager.y p) L totalItems
  = index.
Proof.
  intros L p [Hlo Hhi] Htotal.
  destruct (calculateLayout_positive terminalSize) as [Hipr _]. fold L in Hipr.
  destruct (getItemPosition_row_col index L Hlo ltac:(lia)) as (Hrow & Hcol & Hsplit).
  fold p in Hrow, Hcol, Hsplit.
  assert (LayoutManager.x p = LayoutManager.col p * 13 + 2) as Hx by reflexivity.
  assert (LayoutManager.y p = 4 + LayoutManager.row p * 5) as Hy by reflexivity.
  unfold LayoutManager.getItemIndexFromPosition.
  assert (LayoutManager.startY L = 4) as -> by reflexivity.
  assert (LayoutManager.itemWidth L = 13) as -> by reflexivity.
  assert (LayoutManager.itemHeight L = 5) as -> by reflexivity.
  rewrite Hx, Hy.
  replace (LayoutManager.col p * 13 + 2 - 2) with (LayoutManager.col p * 13) by lia.
  replace (4 + LayoutManager.row p * 5 - 4) with (LayoutManager.row p * 5) by lia.
  rewrite !Z.div_mul by lia.
  repeat case_decide; lia.
Qed.

Lemma getItemIndexFromPosition_getItemPosition_witness :
  let L := LayoutManager.calculateLayout size80 in
  let p := LayoutManager.getItemPosition 7 L in
  (0 ≤ 7 < LayoutManager.itemsPerRow L * LayoutManager.totalRows L ∧ 7 < 9) ∧
  LayoutManager.getItemIndexFromPosition (LayoutManager.x p) (LayoutManager.y p) L 9 = 7.
Proof.
  intros L p.
  assert (0 ≤ 7 < LayoutManager.itemsPerRow L * LayoutManager.totalRows L) as H1
    by (vm_compute; split; [discriminate|reflexivity]).
  assert (7 < 9) as H2 by lia.
  split; [done|].
  exact (getItemIndexFromPosition_getItemPosition size80 7 9 H1 H2).
Defined.

(** ** The directory scanner *)

Lemma sort_insert_Permutation {A : Type} (compareFn : A → A → Z) (a : A) (l : list A) :
  sort_insert compareFn a l ≡ₚ a :: l.
Proof.
  induction l as [|b l IH]; simpl; [done|].
  case_decide; [done|]. rewrite IH. apply Permutation_swap.
Qed.

Lemma js_sort_Permutation {A : Type} (compareFn : A → A → Z) (l : list A) :
  js_sort compareFn l ≡ₚ l.
Proof.
  induction l as [|a l IH]; simpl; [done|].
  rewrite sort_insert_Permutation. by rewrite IH.
Qed.

Section ScannerFacts.
Context {PM : PathModule} {CO : Collator}.

Lemma scanEntry_name (env : Env) (dirPath : string) (entry : Dirent) (item : FileItem) :
  FileScanner.scanEntry env dirPath entry = Some item → name item = d_name entry.
Proof.
  unfold FileScanner.scanEntry.
  destruct (stat env (path_join dirPath (d_name entry))); [|done].
  by intros [= <-].
Qed.

(** What a scan returns: one item for every entry of [readdir] whose
    [stat] succeeds, whatever its name, in sorted order. *)
Lemma scanDirectory_Permutation (env : Env) (dirPath : string)
    (entries : list Dirent) (its : list FileItem) :
  readdir env dirPath = Some entries →
  FileScanner.scanDirectory env dirPath = Some its →
  its ≡ₚ omap (FileScanner.scanEntry env dirPath) entries.
Proof.
  unfold FileScanner.scanDirectory. intros -> [= <-]. apply js_sort_Permutation.
Qed.

(** Any readable entry is returned, hidden or not. *)
Lemma scanDirectory_keeps_entry (env : Env) (dirPath : string)
    (entries : list Dirent) (entry : Dirent) :
  readdir env dirPath = Some entries → entry ∈ entries →
  is_Some (stat env (path_join dirPath (d_name entry))) →
  ∃ its item, FileScanner.scanDirectory env dirPath = Some its ∧
              item ∈ its ∧ name item = d_name entry.
Proof.
  intros Hdir Hin [stats Hstat].
  unfold FileScanner.scanDirectory. rewrite Hdir.
  set (item := {| name := d_name entry;
                  path := path_join dirPath (d_name entry);
                  type := if d_isDirectory entry then TDirectory else TFile;
                  size := if d_isFile entry then Some (st_size stats) else None;
                  lastModified := Some (st_mtime stats) |}).
  assert (FileScanner.scanEntry env dirPath entry = Some item) as Hscan
    by (unfold FileScanner.scanEntry; by rewrite Hstat).
  eexists _, item. split; [done|]. split; [|reflexivity].
  rewrite js_sort_Permutation. apply list_elem_of_omap. eauto.
Qed.

(** The earlier provider, [FileSystem.listDirectory], does skip the
    hidden names. *)
Lemma listEntries_no_hidden (env : Env) (dirPath : string)
    (entries : list Dirent) (fileItems : list FileSystem.FileItem) :
  FileSystem.listEntries env dirPath entries = Some fileItems →
  Forall (λ item, startsWith (FileSystem.name item) "." = false) fileItems.
Proof.
  revert fileItems. induction entries as [|item rest IH]; intros fileItems; simpl.
  - by intros [= <-].
  - destruct (startsWith (d_name item) ".") eqn:Hhidden; [by apply IH|].
    destruct (stat env (path_join dirPath (d_name item))); [|done].
    destruct (FileSystem.listEntries env dirPath rest) as [fileItems'|]; [|done].
    intros [= <-]. constructor; [done|]. by apply IH.
Qed.
End ScannerFacts.

(** C3 at a directory that holds [.git]: [scanDirectory] returns it,
    first (directories sort before files), and [isHiddenFile] is true of
    its name. The claim expects no such entry; the helper
    [isHiddenFile] is never called by the scan. *)
Theorem scanDirectory_returns_hidden_entry (collator : Collator) :
  FileScanner.scanDirectory (PM := posix_path) home_env "/home/u" =
    Some [ {| name := ".git"; path := "/home/u/.git"; type := TDirectory;
              size := None; lastModified := Some 1700000000000 |};
           {| name := "notes.txt"; path := "/home/u/notes.txt"; type := TFile;
              size := Some 4096; lastModified := Some 1700000000000 |} ] ∧
  FileScanner.isHiddenFile ".git" = true.
Proof. split; reflexivity. Qed.

(** ** Unique file names *)

Lemma string_app_length (s1 s2 : string) :
  String.length (s1 +:+ s2) = (String.length s1 + String.length s2)%nat.
Proof. induction s1 as [|a s1 IH]; simpl; [done|]. by rewrite IH. Qed.

Lemma string_app_inv_tail (s1 s2 t : string) : s1 +:+ t = s2 +:+ t → s1 = s2.
Proof.
  revert s2. induction s1 as [|a s1 IH]; intros [|b s2] Heq; simpl in *.
  - done.
  - apply (f_equal String.length) in Heq.
    rewrite ?string_app_length in Heq. simpl in Heq.
    rewrite ?string_app_length in Heq. lia.
  - apply (f_equal String.length) in Heq.
    rewrite ?string_app_length in Heq. simpl in Heq.
    rewrite ?string_app_length in Heq. lia.
  - injection Heq as -> Heq. f_equal. by apply IH.
Qed.

Lemma posix_join_inj (a b1 b2 : string) : posix_join a b1 = posix_join a b2 → b1 = b2.
Proof.
  unfold posix_join. repeat case_decide; intros Heq; [| done |].
  - by simplify_eq.
  - by do 2 apply String.app_inj in Heq.
Qed.

Section UniqueName.
Context {PM : PathModule}.
Import FileOperations.

(** The name tried at [counter] has " (counter)" between the stem and
    the extension. *)
Lemma candidate_shape (filePath : string) (counter : N) :
  candidate filePath counter =
    path_join (path_dirname filePath)
      (path_basename_ext filePath (path_extname filePath)
         +:+ " (" +:+ pretty counter +:+ ")" +:+ path_extname filePath).
Proof. reflexivity. Qed.

(** The loop either stops at the first free candidate from [counter]
    on, or runs out of fuel with every candidate it tried taken. *)
Lemma uniqueLoop_cases (env : Env) (filePath : string) (fuel : nat) (counter : N) :
  (∃ n, (counter ≤ n < counter + N.of_nat fuel)%N ∧
        uniqueLoop env filePath fuel counter = Some (candidate filePath n) ∧
        exists_ env (candidate filePath n) = false ∧
        ∀ k, (counter ≤ k < n)%N → exists_ env (candidate filePath k) = true) ∨
  (uniqueLoop env filePath fuel counter = None ∧
   ∀ k, (counter ≤ k < counter + N.of_nat fuel)%N →
        exists_ env (candidate filePath k) = true).
Proof.
  revert counter. induction fuel as [|fuel IH]; intros counter.
  - right. split; [done|]. intros k Hk. lia.
  - simpl uniqueLoop.
    destruct (exists_ env (candidate filePath counter)) eqn:Htaken.
    + destruct (IH (counter + 1)%N) as [(n & Hn & Hloop & Hfree & Hbelow)|[Hloop Hall]].
      * left. exists n. split; [lia|]. split; [done|]. split; [done|].
        intros k Hk. destruct (decide (k = counter)) as [->|]; [done|].
        apply Hbelow. lia.
      * right. split; [done|]. intros k Hk.
        destruct (decide (k = counter)) as [->|]; [done|]. apply Hall. lia.
    + left. exists counter. split; [lia|]. split; [done|]. split; [done|].
      intros k Hk. lia.
Qed.

(** Pigeonhole: distinct candidates cannot all be among the finitely
    many existing paths. *)
Lemma candidates_not_all_taken (env : Env) (filePath : string) :
  (∀ m n, candidate filePath m = candidate filePath n → m = n) →
  ¬ (∀ k, (1 ≤ k < 1 + N.of_nat (S (length (existing env))))%N →
          exists_ env (candidate filePath k) = true).
Proof.
  intros Hinj Hall.
  set (cands := (λ i : nat, candidate filePath (1 + N.of_nat i)) <$>
                  seq 0 (S (length (existing env)))).
  assert (NoDup cands) as Hnodup.
  { apply NoDup_fmap_2; [|apply NoDup_seq].
    intros i j Hij. apply Hinj in Hij. lia. }
  assert (cands ⊆+ existing env) as Hsub.
  { apply NoDup_submseteq; [done|]. intros p Hp.
    apply list_elem_of_fmap in Hp as (i & -> & Hi).
    apply elem_of_seq in Hi.
    specialize (Hall (1 + N.of_nat i)%N ltac:(lia)).
    unfold exists_ in Hall. by apply bool_decide_eq_true in Hall. }
  apply submseteq_length in Hsub.
  unfold cands in Hsub. rewrite length_fmap, length_seq in Hsub. lia.
Qed.

(** The loop returns: the fuel it is given is enough. *)
Lemma getUniqueFileName_returns (env : Env) (filePath : string) :
  (∀ m n, candidate filePath m = candidate filePath n → m = n) →
  is_Some (getUniqueFileName env filePath).
Proof.
  intros Hinj. unfold getUniqueFileName.
  destruct (exists_ env filePath); cbn [negb]; [|by eexists].
  destruct (uniqueLoop_cases env filePath (S (length (existing env))) 1)
    as [(n & _ & -> & _)|[_ Hall]]; [by eexists|].
  by destruct (candidates_not_all_taken env filePath Hinj).
Qed.
End UniqueName.

Lemma posix_candidate_inj (filePath : string) (m n : N) :
  FileOperations.candidate (PM := posix_path) filePath m =
  FileOperations.candidate (PM := posix_path) filePath n → m = n.
Proof.
  unfold FileOperations.candidate. simpl. intros Heq.
  apply posix_join_inj in Heq.
  do 2 apply String.app_inj in Heq.
  apply string_app_inv_tail in Heq.
  by apply (inj pretty) in Heq.
Qed.

(** C7. [getUniqueFileName] returns the path unchanged when it does not
    exist; when it exists, the result is the candidate
    "stem (n)ext" in the same directory for the smallest [n >= 1] whose
    candidate does not exist (for path functions under which candidates
    with different [n] are different paths, so that a finite file system
    cannot hold them all). With [report.txt] and [report (1).txt]
    present, the destination computed by a paste of [report.txt] is
    [report (2).txt]. *)
Theorem getUniqueFileName_smallest_free_suffix :
  (∀ (PM : PathModule) (env : Env) (filePath : string),
     (∀ m n, FileOperations.candidate filePath m = FileOperations.candidate filePath n → m = n) →
     (FileOperations.exists_ env filePath = false →
        FileOperations.getUniqueFileName env filePath = Some filePath) ∧
     (FileOperations.exists_ env filePath = true →
        ∃ n, (1 ≤ n)%N ∧
             FileOperations.getUniqueFileName env filePath
               = Some (path_join (path_dirname filePath)
                         (path_basename_ext filePath (path_extname filePath)
                            +:+ " (" +:+ pretty n +:+ ")" +:+ path_extname filePath)) ∧
             FileOperations.exists_ env (FileOperations.candidate filePath n) = false ∧
             ∀ k, (1 ≤ k < n)%N →
                  FileOperations.exists_ env (FileOperations.candidate filePath k) = true)) ∧
  (∀ state : AppState,
     currentPath (viewport state) = "/home/u" →
     FileManager.pasteDestination (PM := posix_path) report_env state report_item
       = Some "/home/u/report (2).txt").
Proof.
  split.
  - intros PM env filePath Hinj. split.
    + intros Hfree. unfold FileOperations.getUniqueFileName. by rewrite Hfree.
    + intros Htaken. unfold FileOperations.getUniqueFileName. rewrite Htaken.
      cbn [negb].
      destruct (uniqueLoop_cases env filePath (S (length (existing env))) 1)
        as [(n & Hn & Hloop & Hfree & Hbelow)|[_ Hall]].
      * exists n. split; [lia|]. split; [exact Hloop|]. split; [done|].
        intros k Hk. by apply Hbelow.
      * by destruct (candidates_not_all_taken env filePath Hinj).
  - intros state Hpath. unfold FileManager.pasteDestination. rewrite Hpath.
    reflexivity.
Qed.

Lemma getUniqueFileName_smallest_free_suffix_witness :
  (∀ m n, FileOperations.candidate (PM := posix_path) "/home/u/report.txt" m =
          FileOperations.candidate (PM := posix_path) "/home/u/report.txt" n → m = n) ∧
  FileOperations.exists_ report_env "/home/u/report.txt" = true ∧
  ∃ n, (1 ≤ n)%N ∧
       FileOperations.getUniqueFileName (PM := posix_path) report_env "/home/u/report.txt"
         = Some (posix_join "/home/u" ("report" +:+ " (" +:+ pretty n +:+ ")" +:+ ".txt")) ∧
       FileOperations.exists_ report_env
         (FileOperations.candidate (PM := posix_path) "/home/u/report.txt" n) = false ∧
       ∀ k, (1 ≤ k < n)%N →
            FileOperations.exists_ report_env
              (FileOperations.candidate (PM := posix_path) "/home/u/report.txt" k) = true.
Proof.
  split; [exact (posix_candidate_inj "/home/u/report.txt")|].
  split; [reflexivity|].
  exact (proj2 (proj1 getUniqueFileName_smallest_free_suffix posix_path report_env
                  "/home/u/report.txt" (posix_candidate_inj "/home/u/report.txt"))
               eq_refl).
Defined.

(** ** The event bus *)

Section BusFacts.
Context {W E : Type} `{Console W}.
Import SimpleEventBus.

(** Subscription order is list order: [on] appends. *)
Lemma on_lookup (bus : t W E) (event : string) (handler : EventHandler W E) :
  on event handler bus !! event = Some (default [] (bus !! event) ++ [handler]).
Proof. unfold on, t in *. by rewrite lookup_insert_eq. Qed.

Lemma on_lookup_ne (bus : t W E) (event event' : string) (handler : EventHandler W E) :
  event ≠ event' → on event handler bus !! event' = bus !! event'.
Proof. intros Hne. unfold on, t in *. by rewrite lookup_insert_ne. Qed.

(** The loop of [emit] over any list of handlers. *)
Lemma forEach_guarded (event : string) (data : E) (handlers : list (EventHandler W E)) (w : W) :
  forEach handlers (λ handler,
    try_catch (run handler data)
      (λ error w',
         (Normal tt,
          console_error ("Error in event handler for " +:+ dquote +:+ event +:+ dquote +:+ ":")
                        error w'))) w
  = (Normal tt, foldl (guarded event data) w handlers).
Proof.
  revert w. induction handlers as [|h handlers IH]; intros w; simpl; [done|].
  unfold try_catch at 1, guarded at 2.
  destruct (run h data w) as [[[]|error] w']; apply IH.
Qed.

Lemma emit_no_handlers (bus : t W E) (event : string) (data : E) (w : W) :
  bus !! event = None → emit event data bus w = (Normal tt, w).
Proof. intros Hnone. unfold emit. by rewrite Hnone. Qed.
End BusFacts.

(** For handlers that return or throw before returning and leave the
    registry alone, which is what an [EventHandler] is: [emit] calls
    every handler subscribed to the topic, in subscription order; a
    handler that throws has its exception caught and logged, and the
    handlers after it still run. *)
Lemma emit_guarded_handlers
    {W E : Type} `{Console W}
    (bus : SimpleEventBus.t W E) (event : string) (data : E)
    (handlers : list (SimpleEventBus.EventHandler W E)) (w : W) :
  bus !! event = Some handlers →
  SimpleEventBus.emit event data bus w
    = (Normal tt, foldl (SimpleEventBus.guarded event data) w handlers) ∧
  ∀ handler,
    SimpleEventBus.emit event data (SimpleEventBus.on event handler bus) w
    = (Normal tt,
       SimpleEventBus.guarded event data
         (foldl (SimpleEventBus.guarded event data) w handlers) handler).
Proof.
  intros Hsome. split.
  - unfold SimpleEventBus.emit. rewrite Hsome. apply forEach_guarded.
  - intros handler. unfold SimpleEventBus.emit. rewrite on_lookup, Hsome. simpl.
    rewrite forEach_guarded. by rewrite foldl_app.
Qed.

(** The run above, spelled out: the second handler throws, its error is
    logged, the third still runs, and the publisher sees a normal
    completion. Without the [try]/[catch] the loop would stop there. *)
Example emit_three_handlers :
  SimpleEventBus.emit "refresh" () three_handlers []
    = (Normal tt,
       ["first"; "second";
        "Error in event handler for " +:+ dquote +:+ "refresh" +:+ dquote +:+ ": boom";
        "third"]) ∧
  forEach [says 1 "first"; fails 2 "second" "boom"; says 3 "third"]
          (λ handler, SimpleEventBus.run handler ()) []
    = (Throw "boom", ["first"; "second"]).
Proof. split; vm_compute; reflexivity. Qed.

(** ** The event bus, with handlers that are async or that unsubscribe *)

Section LiveBusFacts.
Context {W E : Type} `{Console W}.
Import LiveBus.

Implicit Types (s : State W) (behaviour : Behaviour W E).

Lemma live_on_lookup (registry : Registry) (event : string) (handler : nat) :
  on event handler registry !! event
    = Some (default [] (registry !! event) ++ [handler]).
Proof. unfold on, Registry in *. by rewrite lookup_insert_eq. Qed.

(** A call on the bus that is not [off(event, handler)] leaves the
    handlers that were in the array where they are. *)
Lemma step_op_prefix (event : string) (handlers : list nat) s (op : Op) :
  (∀ h, op ≠ Off event (Some h)) →
  handlers `prefix_of` array s →
  handlers `prefix_of` array (step_op event s op) ∧
  world (step_op event s op) = world s ∧
  called (step_op event s op) = called s ∧
  unhandled (step_op event s op) = unhandled s.
Proof.
  intros Hop Hprefix. unfold step_op. simpl. split; [|done].
  destruct (attached s); [|done].
  destruct op as [e h|e [h|]|]; try done.
  - case_decide; [|done]. by apply prefix_app_r.
  - case_decide as He; [|done]. subst e. by destruct (Hop h).
Qed.

Lemma foldl_step_op_prefix (event : string) (handlers : list nat) (ops : list Op) s :
  (∀ h, Off event (Some h) ∉ ops) →
  handlers `prefix_of` array s →
  handlers `prefix_of` array (foldl (step_op event) s ops) ∧
  world (foldl (step_op event) s ops) = world s ∧
  called (foldl (step_op event) s ops) = called s ∧
  unhandled (foldl (step_op event) s ops) = unhandled s.
Proof.
  revert s. induction ops as [|op ops IH]; intros s Hops Hprefix; simpl; [done|].
  destruct (step_op_prefix event handlers s op) as (Hp & Hw & Hc & Hu); [|done|].
  { intros h ->. apply (Hops h). by left. }
  destruct (IH (step_op event s op)) as (? & -> & -> & ->); [|done|done].
  intros h Hin. apply (Hops h). by right.
Qed.

(** One round of the loop of [emit]. *)
Lemma guarded_call behaviour (event : string) (data : E) (handlers : list nat) (h : nat) s :
  (∀ h', Off event (Some h') ∉ (behaviour h data (world s)).2) →
  handlers `prefix_of` array s →
  ∃ s',
    try_catch (call behaviour event data h) (log event) s = (Normal tt, s') ∧
    handlers `prefix_of` array s' ∧
    called s' = called s ++ [h] ∧
    (world s', unhandled s') = guarded behaviour event data (world s, unhandled s) h.
Proof.
  intros Hops Hprefix. unfold try_catch, call, guarded. cbn [fst snd].
  destruct (behaviour h data (world s)) as [[outcome w] ops]. cbn [snd] in Hops.
  match goal with
  | |- context [foldl (step_op event) ?s0 ops] =>
      destruct (foldl_step_op_prefix event handlers ops s0 Hops Hprefix)
        as (Hp & Hw & Hc & Hu);
      set (s1 := foldl (step_op event) s0 ops) in *
  end.
  simpl in Hw, Hc, Hu.
  destruct outcome as [|error|error].
  - exists s1. by rewrite Hw, Hc, Hu.
  - eexists. split; [reflexivity|]. simpl. by rewrite Hw, Hc, Hu.
  - eexists. split; [reflexivity|]. simpl. by rewrite Hw, Hc, Hu.
Qed.

Lemma forEachLive_guarded behaviour (event : string) (data : E) (handlers : list nat)
    (remaining k : nat) s :
  (∀ h w h', h ∈ handlers → Off event (Some h') ∉ (behaviour h data w).2) →
  (k + remaining = length handlers)%nat →
  handlers `prefix_of` array s →
  ∃ s',
    forEachLive (λ h, try_catch (call behaviour event data h) (log event)) remaining k s
      = (Normal tt, s') ∧
    called s' = called s ++ drop k handlers ∧
    (world s', unhandled s')
      = foldl (guarded behaviour event data) (world s, unhandled s) (drop k handlers).
Proof.
  intros Hops. revert k s. induction remaining as [|remaining IH]; intros k s Hk Hprefix.
  - exists s. split; [done|]. rewrite drop_ge by lia. by rewrite app_nil_r.
  - cbn [forEachLive].
    destruct (lookup_lt_is_Some_2 handlers k ltac:(lia)) as [h Hh].
    rewrite (prefix_lookup_Some _ _ _ _ Hh Hprefix).
    destruct (guarded_call behaviour event data handlers h s) as (s1 & -> & Hp1 & Hc1 & Hw1);
      [|done|].
    { intros h'. apply Hops. by eapply list_elem_of_lookup_2. }
    destruct (IH (S k) s1 ltac:(lia) Hp1) as (s' & -> & Hc & Hw).
    exists s'. split; [done|].
    rewrite (drop_S _ _ _ Hh). cbn [foldl]. rewrite <- Hw1, Hw, Hc, Hc1.
    by rewrite <- app_assoc.
Qed.
End LiveBusFacts.

(** C8, as the code has it. [emit] calls the handlers that are
    subscribed to the topic when it is called, all of them and in
    subscription order ([on] appends), provided no handler calls
    [off(event, handler)] for that topic while it is dispatched. A
    handler that throws before returning has its exception caught and
    logged with [console.error]; the handlers after it still run, on
    the world it left, and [emit] completes normally. A handler that
    returns a rejected promise is not caught: nothing is logged and the
    rejection is left unhandled. *)
Theorem emit_isolates_synchronous_exceptions
    {W E : Type} `{Console W}
    (behaviour : LiveBus.Behaviour W E) (event : string) (data : E)
    (registry : LiveBus.Registry) (handlers : list nat) (w : W) :
  registry !! event = Some handlers →
  (∀ h w' h', h ∈ handlers →
     LiveBus.Off event (Some h') ∉ (behaviour h data w').2) →
  (∃ s,
     LiveBus.emit behaviour event data registry w = (Normal tt, s) ∧
     LiveBus.called s = handlers ∧
     (LiveBus.world s, LiveBus.unhandled s)
       = foldl (LiveBus.guarded behaviour event data) (w, []) handlers) ∧
  ∀ handler,
    LiveBus.on event handler registry !! event = Some (handlers ++ [handler]).
Proof.
  intros Hsome Hops. split.
  - unfold LiveBus.emit. rewrite Hsome.
    match goal with
    | |- context [LiveBus.forEachLive _ _ _ ?s0] =>
        destruct (forEachLive_guarded behaviour event data handlers (length handlers) 0 s0
                    Hops eq_refl) as (s & -> & Hc & Hw); [done|]
    end.
    exists s. split; [done|]. split; [exact Hc|exact Hw].
  - intros handler. by rewrite live_on_lookup, Hsome.
Qed.

Lemma emit_isolates_synchronous_exceptions_witness :
  (refresh_registry !! "refresh" = Some [1%nat; 2%nat; 3%nat] ∧
   ∀ h w' h', h ∈ [1%nat; 2%nat; 3%nat] →
     LiveBus.Off "refresh" (Some h') ∉ (plain_table h () w').2) ∧
  ∃ s,
    LiveBus.emit plain_table "refresh" () refresh_registry [] = (Normal tt, s) ∧
    LiveBus.called s = [1%nat; 2%nat; 3%nat] ∧
    LiveBus.world s
      = ["first"; "second";
         "Error in event handler for " +:+ dquote +:+ "refresh" +:+ dquote +:+ ": boom";
         "third"].
Proof.
  assert (refresh_registry !! "refresh" = Some [1%nat; 2%nat; 3%nat]) as H1
    by (vm_compute; reflexivity).
  assert (∀ h w' h', h ∈ [1%nat; 2%nat; 3%nat] →
            LiveBus.Off "refresh" (Some h') ∉ (plain_table h () w').2) as H2.
  { intros h w' h' Hh. unfold plain_table.
    repeat case_decide; simpl; intros Hin;
      repeat (apply elem_of_cons in Hin as [Hin|Hin]; [discriminate|]);
      by apply elem_of_nil in Hin. }
  split; [done|].
  destruct (proj1 (emit_isolates_synchronous_exceptions plain_table "refresh" ()
                     refresh_registry _ [] H1 H2)) as (s & Hemit & Hcalled & Hworld).
  exists s. split; [exact Hemit|]. split; [exact Hcalled|].
  apply (f_equal fst) in Hworld. exact Hworld.
Defined.

(** C8, as stated, fails twice. A handler that unsubscribes itself
    while it is called shortens the array [forEach] is iterating: of
    the three handlers subscribed to [refresh], the second is never
    called, although it is still subscribed afterwards. And the
    exception of an [async] handler is a rejected promise, which the
    [try]/[catch] of [emit] does not see: nothing is logged. *)
Lemma emit_skips_handler_after_unsubscribe :
  refresh_registry !! "refresh" = Some [1%nat; 2%nat; 3%nat] ∧
  (∃ s,
     LiveBus.emit once_table "refresh" () refresh_registry [] = (Normal tt, s) ∧
     LiveBus.called s = [1%nat; 3%nat] ∧
     LiveBus.world s = ["first"; "third"] ∧
     LiveBus.registry s !! "refresh" = Some [2%nat; 3%nat]) ∧
  (∃ s,
     LiveBus.emit once_table "refresh" () {[ "refresh" := [4%nat; 2%nat] ]} []
       = (Normal tt, s) ∧
     LiveBus.called s = [4%nat; 2%nat] ∧
     LiveBus.world s = ["fourth"; "second"] ∧
     LiveBus.unhandled s = ["boom"]).
Proof.
  split; [vm_compute; reflexivity|]. split.
  - eexists. split; [vm_compute; reflexivity|]. simpl. split; [done|]. split; [done|].
    vm_compute. reflexivity.
  - eexists. split; [vm_compute; reflexivity|]. done.
Qed.

(** ** Double-click synthesis *)

Lemma isDoubleClick_true (now : Z) (event : MouseEventObject) (mh : MouseHandler.t) :
  MouseHandler.isDoubleClick now event mh = true ↔
  now - MouseHandler.lastClickTime mh < 300 ∧
  Z.abs (ev_x event - MouseHandler.lastClickX mh) ≤ 1 ∧
  Z.abs (ev_y event - MouseHandler.lastClickY mh) ≤ 1 ∧
  button event = BLeft.
Proof.
  unfold MouseHandler.isDoubleClick, MouseHandler.DOUBLE_CLICK_THRESHOLD.
  rewrite !andb_true_iff, !bool_decide_eq_true. tauto.
Qed.

Lemma emitMouseEvent_double (now : Z) (event : MouseEventObject) (mh : MouseHandler.t) :
  MouseHandler.isDoubleClick now event mh = true →
  (MouseHandler.emitMouseEvent now event mh).1 = MouseHandler.as_double_click event ∧
  MouseHandler.tracking (MouseHandler.emitMouseEvent now event mh).2
    = (0, MouseHandler.lastClickX mh, MouseHandler.lastClickY mh).
Proof. intros Hd. unfold MouseHandler.emitMouseEvent. by rewrite Hd. Qed.

Lemma emitMouseEvent_single_left (now : Z) (event : MouseEventObject) (mh : MouseHandler.t) :
  MouseHandler.isDoubleClick now event mh = false → button event = BLeft →
  (MouseHandler.emitMouseEvent now event mh).1 = MouseHandler.as_click event ∧
  MouseHandler.tracking (MouseHandler.emitMouseEvent now event mh).2 = (now, ev_x event, ev_y event).
Proof.
  intros Hd Hleft. unfold MouseHandler.emitMouseEvent. rewrite Hd.
  rewrite (decide_True (P := button event = BLeft)) by done.
  rewrite (decide_False (P := button event = BRight)) by (rewrite Hleft; done). done.
Qed.

Lemma emitMouseEvent_not_left (now : Z) (event : MouseEventObject) (mh : MouseHandler.t) :
  button event ≠ BLeft →
  MouseHandler.emitMouseEvent now event mh
    = (if decide (button event = BRight) then MouseHandler.as_right_click event else MouseHandler.as_click event, mh).
Proof.
  intros Hnl. unfold MouseHandler.emitMouseEvent.
  assert (MouseHandler.isDoubleClick now event mh = false) as ->.
  { apply not_true_is_false. rewrite isDoubleClick_true. tauto. }
  rewrite (decide_False (P := button event = BLeft)) by done.
  by case_decide.
Qed.

(** After the reset, no press read at a clock of 300 or more is inside
    the window. *)
Lemma isDoubleClick_after_reset (now : Z) (event : MouseEventObject) (mh : MouseHandler.t) :
  MouseHandler.lastClickTime mh = 0 → 300 ≤ now →
  MouseHandler.isDoubleClick now event mh = false.
Proof.
  intros Hzero Hnow. apply not_true_is_false. rewrite isDoubleClick_true, Hzero. lia.
Qed.

(** C9. [now] is [Date.now()], milliseconds since the epoch, taken to be
    at least 300.
    - A left press less than 300 ms after the tracked left click and at
      most one cell from it in both axes is emitted as [double-click],
      with type [double-click], and the tracked time is reset to 0; the
      tracked click is the last left press that was emitted as a click.
    - The press after a double-click is then a single click; if it is a
      left press it becomes the tracked click, so a fresh pair starts.
    - A right or middle press is never emitted as a double-click and
      leaves the MouseHandler.tracking as it is.
    - From a fresh handler, two left presses 500 ms apart are two
      [click] events; presses at (5,5) and (5,6) 100 ms apart are a
      [click] and a [double-click], and a third one 50 ms later is a
      [click] again. *)
Theorem double_click_synthesis :
  (∀ mh now event,
     button event = BLeft →
     now - MouseHandler.lastClickTime mh < 300 →
     Z.abs (ev_x event - MouseHandler.lastClickX mh) ≤ 1 →
     Z.abs (ev_y event - MouseHandler.lastClickY mh) ≤ 1 →
     (MouseHandler.emitMouseEvent now event mh).1 = MouseHandler.as_double_click event ∧
     MouseHandler.lastClickTime (MouseHandler.emitMouseEvent now event mh).2 = 0) ∧
  (∀ mh t0 e0 t1 e1,
     button e0 = BLeft → button e1 = BLeft →
     MouseHandler.isDoubleClick t0 e0 mh = false →
     t1 - t0 < 300 → Z.abs (ev_x e1 - ev_x e0) ≤ 1 → Z.abs (ev_y e1 - ev_y e0) ≤ 1 →
     (MouseHandler.emitAll [(t0, e0); (t1, e1)] mh).1
       = [MouseHandler.as_click e0; MouseHandler.as_double_click e1]) ∧
  (∀ mh now event now' event',
     MouseHandler.isDoubleClick now event mh = true → 300 ≤ now' →
     let mh' := (MouseHandler.emitMouseEvent now event mh).2 in
     (MouseHandler.emitMouseEvent now' event' mh').1
       = (if decide (button event' = BRight) then MouseHandler.as_right_click event' else MouseHandler.as_click event') ∧
     (button event' = BLeft →
        MouseHandler.tracking (MouseHandler.emitMouseEvent now' event' mh').2
          = (now', ev_x event', ev_y event'))) ∧
  (∀ mh now event,
     button event ≠ BLeft →
     MouseHandler.topic (MouseHandler.emitMouseEvent now event mh).1 ≠ "double-click" ∧
     MouseHandler.payload (MouseHandler.emitMouseEvent now event mh).1 = event ∧
     (MouseHandler.emitMouseEvent now event mh).2 = mh) ∧
  (∀ now x0 y0 x1 y1,
     300 ≤ now →
     (MouseHandler.emitAll [(now, MouseHandler.press x0 y0 BLeft);
                            (now + 500, MouseHandler.press x1 y1 BLeft)]
                           MouseHandler.new).1
       = [MouseHandler.as_click (MouseHandler.press x0 y0 BLeft);
          MouseHandler.as_click (MouseHandler.press x1 y1 BLeft)]) ∧
  (∀ now,
     300 ≤ now →
     (MouseHandler.emitAll [(now, MouseHandler.press 5 5 BLeft);
                            (now + 100, MouseHandler.press 5 6 BLeft);
                            (now + 150, MouseHandler.press 5 6 BLeft)]
                           MouseHandler.new).1
       = [MouseHandler.as_click (MouseHandler.press 5 5 BLeft);
          MouseHandler.as_double_click (MouseHandler.press 5 6 BLeft);
          MouseHandler.as_click (MouseHandler.press 5 6 BLeft)]).
Proof.
  split; [|split; [|split; [|split; [|split]]]].
  - intros mh now event Hleft Htime Hx Hy.
    assert (MouseHandler.isDoubleClick now event mh = true) as Hd
      by (by apply isDoubleClick_true).
    destruct (emitMouseEvent_double now event mh Hd) as [Hout Htrack].
    split; [done|]. by injection Htrack.
  - intros mh t0 e0 t1 e1 Hl0 Hl1 Hfirst Htime Hx Hy. simpl.
    destruct (emitMouseEvent_single_left t0 e0 mh Hfirst Hl0) as [Hout0 Htrack0].
    destruct (MouseHandler.emitMouseEvent t0 e0 mh) as [out0 mh0]. simpl in Hout0, Htrack0.
    injection Htrack0 as Ht Hx0 Hy0.
    assert (MouseHandler.isDoubleClick t1 e1 mh0 = true) as Hd
      by (apply isDoubleClick_true; rewrite Ht, Hx0, Hy0; done).
    destruct (emitMouseEvent_double t1 e1 mh0 Hd) as [Hout1 _].
    destruct (MouseHandler.emitMouseEvent t1 e1 mh0) as [out1 mh1]. simpl in Hout1.
    simpl. by rewrite Hout0, Hout1.
  - intros mh now event now' event' Hd Hnow' mh'.
    destruct (emitMouseEvent_double now event mh Hd) as [_ Htrack].
    assert (MouseHandler.lastClickTime mh' = 0) as Hzero by (by injection Htrack).
    pose proof (isDoubleClick_after_reset now' event' mh' Hzero Hnow') as Hnd.
    destruct (decide (button event' = BLeft)) as [Hleft|Hnl].
    + destruct (emitMouseEvent_single_left now' event' mh' Hnd Hleft) as [-> ->].
      rewrite (decide_False (P := button event' = BRight)) by (rewrite Hleft; done). done.
    + rewrite emitMouseEvent_not_left by done. done.
  - intros mh now event Hnl. rewrite emitMouseEvent_not_left by done.
    by case_decide.
  - intros now x0 y0 x1 y1 Hnow. simpl.
    assert (MouseHandler.isDoubleClick now (MouseHandler.press x0 y0 BLeft) MouseHandler.new
            = false) as Hfirst by (by apply isDoubleClick_after_reset).
    unfold MouseHandler.emitMouseEvent at 1. rewrite Hfirst. simpl.
    unfold MouseHandler.emitMouseEvent, MouseHandler.isDoubleClick. simpl.
    rewrite (bool_decide_eq_false_2 (now + 500 - now < MouseHandler.DOUBLE_CLICK_THRESHOLD))
      by (unfold MouseHandler.DOUBLE_CLICK_THRESHOLD; lia).
    done.
  - intros now Hnow. simpl.
    assert (MouseHandler.isDoubleClick now (MouseHandler.press 5 5 BLeft) MouseHandler.new
            = false) as Hfirst by (by apply isDoubleClick_after_reset).
    unfold MouseHandler.emitMouseEvent at 1. rewrite Hfirst. simpl.
    unfold MouseHandler.emitMouseEvent at 1. unfold MouseHandler.isDoubleClick at 1. simpl.
    rewrite (bool_decide_eq_true_2 (now + 100 - now < MouseHandler.DOUBLE_CLICK_THRESHOLD))
      by (unfold MouseHandler.DOUBLE_CLICK_THRESHOLD; lia).
    simpl.
    unfold MouseHandler.emitMouseEvent, MouseHandler.isDoubleClick. simpl.
    rewrite (bool_decide_eq_false_2 (now + 150 - 0 < MouseHandler.DOUBLE_CLICK_THRESHOLD))
      by (unfold MouseHandler.DOUBLE_CLICK_THRESHOLD; lia).
    done.
Qed.

Lemma double_click_synthesis_witness :
  300 ≤ 1700000000000 ∧
  (MouseHandler.emitAll [(1700000000000, MouseHandler.press 5 5 BLeft);
                         (1700000000000 + 100, MouseHandler.press 5 6 BLeft);
                         (1700000000000 + 150, MouseHandler.press 5 6 BLeft)]
                        MouseHandler.new).1
    = [MouseHandler.as_click (MouseHandler.press 5 5 BLeft);
       MouseHandler.as_double_click (MouseHandler.press 5 6 BLeft);
       MouseHandler.as_click (MouseHandler.press 5 6 BLeft)].
Proof.
  assert (300 ≤ 1700000000000) as Hnow by lia.
  split; [exact Hnow|].
  exact (proj2 (proj2 (proj2 (proj2 (proj2 double_click_synthesis)))) 1700000000000 Hnow).
Defined.

(** ** The controller *)

Create HintDb clip.

Section ControllerFacts.
Context {PM : PathModule} {CO : Collator}.
Import FileManager.

Implicit Types (fm : t) (env : Env).

Lemma getState_store_update (f : AppState → AppState) fm :
  getState (store (StateManager.updateState f) fm) = f (getState fm).
Proof. reflexivity. Qed.

Lemma clip_ok_store_update (f : AppState → AppState) fm :
  (∀ s, clipboard_inv s → clipboard_inv (f s)) →
  clip_ok fm → clip_ok (store (StateManager.updateState f) fm).
Proof. intros Hf Hok. unfold clip_ok. rewrite getState_store_update. by apply Hf. Qed.

Lemma clip_ok_setCurrentPath p fm :
  clip_ok fm → clip_ok (store (StateManager.setCurrentPath p) fm).
Proof. by apply clip_ok_store_update. Qed.

Lemma clip_ok_setFileItems its fm :
  clip_ok fm → clip_ok (store (StateManager.setFileItems its) fm).
Proof. by apply clip_ok_store_update. Qed.

Lemma clip_ok_setTerminalSize sz fm :
  clip_ok fm → clip_ok (store (StateManager.setTerminalSize sz) fm).
Proof. by apply clip_ok_store_update. Qed.

Lemma clip_ok_setLayoutInfo ipr rows fm :
  clip_ok fm → clip_ok (store (StateManager.setLayoutInfo ipr rows) fm).
Proof. by apply clip_ok_store_update. Qed.

Lemma clip_ok_setSelection index item fm :
  clip_ok fm → clip_ok (store (StateManager.setSelection index item) fm).
Proof. by apply clip_ok_store_update. Qed.

Lemma clip_ok_clearSelection fm :
  clip_ok fm → clip_ok (store StateManager.clearSelection fm).
Proof. by apply clip_ok_store_update. Qed.

Lemma clip_ok_moveSelection d fm :
  clip_ok fm → clip_ok (store (StateManager.moveSelection d) fm).
Proof.
  intros Hok. unfold store, StateManager.moveSelection.
  case_decide; [by destruct fm|]. by apply clip_ok_setSelection.
Qed.

Lemma clip_ok_showContextMenu pos target fm :
  clip_ok fm → clip_ok (store (StateManager.showContextMenu pos target) fm).
Proof. by apply clip_ok_store_update. Qed.

Lemma clip_ok_hideContextMenu fm :
  clip_ok fm → clip_ok (store StateManager.hideContextMenu fm).
Proof. by apply clip_ok_store_update. Qed.

(** The two ways the controller writes the clipboard: an item with its
    operation, or nothing with nothing. *)
Lemma clip_ok_setClipboard_both item operation fm :
  clip_ok (store (StateManager.setClipboard (Some item) (Some operation)) fm).
Proof. unfold clip_ok, clipboard_inv. simpl. split; discriminate. Qed.

Lemma clip_ok_clearClipboard fm : clip_ok (store StateManager.clearClipboard fm).
Proof. unfold clip_ok, clipboard_inv. simpl. done. Qed.

Lemma clip_ok_perform env op fm : clip_ok fm → clip_ok (perform env op fm).2.
Proof. done. Qed.

Lemma clip_ok_renderNow fm : clip_ok fm → clip_ok (renderNow fm).
Proof. done. Qed.

Hint Resolve clip_ok_setCurrentPath clip_ok_setFileItems clip_ok_setTerminalSize
  clip_ok_setLayoutInfo clip_ok_setSelection clip_ok_clearSelection clip_ok_moveSelection
  clip_ok_showContextMenu clip_ok_hideContextMenu clip_ok_setClipboard_both
  clip_ok_clearClipboard clip_ok_perform clip_ok_renderNow : clip.

Lemma clip_ok_loadCurrentDirectory env fm :
  clip_ok fm → clip_ok (loadCurrentDirectory env fm).
Proof.
  intros Hok. unfold loadCurrentDirectory.
  destruct (FileScanner.scanDirectory env _); [|auto with clip].
  case_decide; auto 6 with clip.
Qed.
Hint Resolve clip_ok_loadCurrentDirectory : clip.

Lemma clip_ok_handleNavigation env direction fm :
  clip_ok fm → clip_ok (handleNavigation env direction fm).
Proof. intros Hok. unfold handleNavigation. repeat case_decide; auto with clip. Qed.

Lemma clip_ok_handleMouseClick event fm :
  clip_ok fm → clip_ok (handleMouseClick event fm).
Proof.
  intros Hok. unfold handleMouseClick.
  destruct (visible _); [auto with clip|]. case_decide; auto with clip.
Qed.

Lemma clip_ok_handleFileOpen env fm : clip_ok fm → clip_ok (handleFileOpen env fm).
Proof.
  intros Hok. unfold handleFileOpen.
  destruct (selectedItem _); [|done]. case_decide; auto with clip.
Qed.
Hint Resolve clip_ok_handleFileOpen : clip.

Lemma clip_ok_handleMouseDoubleClick env event fm :
  clip_ok fm → clip_ok (handleMouseDoubleClick env event fm).
Proof. intros Hok. unfold handleMouseDoubleClick. case_decide; auto with clip. Qed.

Lemma clip_ok_handleMouseRightClick event fm :
  clip_ok fm → clip_ok (handleMouseRightClick event fm).
Proof. intros Hok. unfold handleMouseRightClick. case_decide; auto with clip. Qed.

Lemma clip_ok_handleFileCopy fm : clip_ok fm → clip_ok (handleFileCopy fm).
Proof. intros Hok. unfold handleFileCopy. destruct (selectedItem _); auto with clip. Qed.

Lemma clip_ok_handleFileCut fm : clip_ok fm → clip_ok (handleFileCut fm).
Proof. intros Hok. unfold handleFileCut. destruct (selectedItem _); auto with clip. Qed.

Lemma clip_ok_handleFilePaste env fm : clip_ok fm → clip_ok (handleFilePaste env fm).
Proof.
  intros Hok. unfold handleFilePaste.
  destruct (clipboard _); [|done]. destruct (clipboardOperation _) as [[]|]; [| |done].
  - destruct (pasteDestination _ _ _); [|done]. cbn [perform].
    destruct (succeeds _ _); auto with clip.
  - destruct (pasteDestination _ _ _); [|done]. cbn [perform].
    destruct (succeeds _ _); auto with clip.
Qed.

Lemma clip_ok_handleFileDelete env fm : clip_ok fm → clip_ok (handleFileDelete env fm).
Proof.
  intros Hok. unfold handleFileDelete.
  destruct (selectedItem _); [|done]. cbn [perform].
  destruct (succeeds _ _); auto with clip.
Qed.

Lemma clip_ok_handleOpenWithVSCode env fm :
  clip_ok fm → clip_ok (handleOpenWithVSCode env fm).
Proof. intros Hok. unfold handleOpenWithVSCode. destruct (selectedItem _); auto with clip. Qed.

Hint Resolve clip_ok_handleNavigation clip_ok_handleMouseClick
  clip_ok_handleMouseDoubleClick clip_ok_handleMouseRightClick clip_ok_handleFileCopy
  clip_ok_handleFileCut clip_ok_handleFilePaste clip_ok_handleFileDelete
  clip_ok_handleOpenWithVSCode : clip.

Lemma clip_ok_handleContextMenuAction env action fm :
  clip_ok fm → clip_ok (handleContextMenuAction env action fm).
Proof. intros Hok. unfold handleContextMenuAction. repeat case_decide; auto with clip. Qed.

Lemma clip_ok_handle env e fm : clip_ok fm → clip_ok (handle env e fm).
Proof.
  intros Hok. unfold handle. destruct (wired _); [|done].
  destruct e; auto using clip_ok_handleContextMenuAction with clip.
Qed.

Lemma clip_ok_start env fm : clip_ok fm → clip_ok (start env fm).
Proof.
  intros Hok. unfold start. destruct (isRunning _); [done|].
  unfold clip_ok, getState. simpl.
  match goal with
  | |- clipboard_inv (StateManager.state (stateManager (loadCurrentDirectory env ?fm1))) =>
      by apply (clip_ok_loadCurrentDirectory env fm1)
  end.
Qed.

Lemma clip_ok_stop fm : clip_ok fm → clip_ok (stop fm).
Proof. intros Hok. unfold stop. by destruct (negb _). Qed.

Lemma clip_ok_tick fm : clip_ok fm → clip_ok (tick fm).
Proof. intros Hok. unfold tick. by destruct (renderTimer _). Qed.

Lemma clip_ok_iter_setTerminalSize sz (n : nat) fm :
  clip_ok fm → clip_ok (Nat.iter n (store (StateManager.setTerminalSize sz)) fm).
Proof. intros Hok. induction n as [|n IH]; simpl; auto with clip. Qed.

Lemma clip_ok_step env i fm : clip_ok fm → clip_ok (step env i fm).
Proof.
  intros Hok. destruct i; simpl.
  - by apply clip_ok_start.
  - by apply clip_ok_stop.
  - by apply clip_ok_tick.
  - by apply clip_ok_iter_setTerminalSize.
  - by apply clip_ok_handle.
  - apply clip_ok_clearClipboard.
Qed.

Lemma clip_ok_run inputs fm : clip_ok fm → clip_ok (run inputs fm).
Proof.
  revert fm. induction inputs as [|[env i] inputs IH]; intros fm Hok; simpl; [done|].
  apply IH. by apply clip_ok_step.
Qed.
End ControllerFacts.

(** C5. In every state the controller reaches from its initial state,
    by any sequence of inputs (copy, cut, paste and clear-clipboard among
    them, with whatever the file system answers), the clipboard holds an
    item exactly when it holds an operation. *)
Theorem clipboard_invariant
    {PM : PathModule} {CO : Collator}
    (cwd : string) (termSize : Size) (inputs : list (Env * FileManager.Input)) :
  let s := FileManager.getState (FileManager.run inputs (FileManager.new cwd termSize)) in
  clipboard s = None ↔ clipboardOperation s = None.
Proof. apply clip_ok_run. unfold FileManager.clip_ok, FileManager.clipboard_inv. done. Qed.

(** C10. With no context menu visible and presses that map to no item
    (index [-1]): the left-click handler clears the selection; the
    right-click handler leaves the selection as it was and shows the
    menu at the press, with no target, which is drawn as the empty-space
    menu. *)
Theorem empty_space_click_asymmetry
    {PM : PathModule} {CO : Collator}
    (leftPress rightPress : MouseEventObject) (fm : FileManager.t) :
  visible (contextMenu (FileManager.getState fm)) = false →
  FileManager.itemIndexAt (FileManager.getState fm) leftPress = -1 →
  FileManager.itemIndexAt (FileManager.getState fm) rightPress = -1 →
  selection (FileManager.getState (FileManager.handleMouseClick leftPress fm))
    = {| selectedIndex := -1; selectedItem := None |} ∧
  selection (FileManager.getState (FileManager.handleMouseRightClick rightPress fm))
    = selection (FileManager.getState fm) ∧
  contextMenu (FileManager.getState (FileManager.handleMouseRightClick rightPress fm))
    = {| visible := true;
         position := {| px := ev_x rightPress; py := ev_y rightPress |};
         targetItem := None |} ∧
  FileManager.menuFor
    (contextMenu (FileManager.getState (FileManager.handleMouseRightClick rightPress fm)))
    = FileManager.EmptySpaceMenu.
Proof.
  intros Hhidden Hleft Hright.
  unfold FileManager.handleMouseClick, FileManager.handleMouseRightClick.
  rewrite Hhidden, Hleft, Hright.
  rewrite !(decide_False (P := -1 >= 0)) by lia.
  done.
Qed.

Lemma empty_space_click_asymmetry_witness :
  let leftPress := MouseHandler.press 70 20 BLeft in
  let rightPress := MouseHandler.press 70 20 BRight in
  (visible (contextMenu (FileManager.getState selected_a)) = false ∧
   FileManager.itemIndexAt (FileManager.getState selected_a) leftPress = -1 ∧
   FileManager.itemIndexAt (FileManager.getState selected_a) rightPress = -1) ∧
  selection (FileManager.getState (FileManager.handleMouseClick leftPress selected_a))
    = {| selectedIndex := -1; selectedItem := None |} ∧
  selection (FileManager.getState (FileManager.handleMouseRightClick rightPress selected_a))
    = {| selectedIndex := 0; selectedItem := Some item_a |}.
Proof.
  intros leftPress rightPress.
  assert (visible (contextMenu (FileManager.getState selected_a)) = false) as H1
    by reflexivity.
  assert (FileManager.itemIndexAt (FileManager.getState selected_a) leftPress = -1) as H2
    by (vm_compute; reflexivity).
  assert (FileManager.itemIndexAt (FileManager.getState selected_a) rightPress = -1) as H3
    by (vm_compute; reflexivity).
  split; [done|].
  pose proof (empty_space_click_asymmetry (PM := posix_path) (CO := readdir_order)
                leftPress rightPress selected_a H1 H2 H3) as (Hleft & Hright & _).
  split; [exact Hleft|]. rewrite Hright. reflexivity.
Defined.

(** ** Rendering *)

Section RenderFacts.
Context {PM : PathModule} {CO : Collator}.
Import FileManager.

Implicit Types (fm : t) (env : Env).

Lemma isRunning_store_update (f : AppState → AppState) fm :
  StateManager.listeners (stateManager fm) = [] →
  ctl (store (StateManager.updateState f) fm) = ctl fm.
Proof.
  intros Hl. unfold store, StateManager.updateState, StateManager.notifyListeners.
  simpl. by rewrite Hl.
Qed.

(** One notification, one frame, of the state just installed. *)
Lemma render_per_notification (f : AppState → AppState) fm :
  rendering fm →
  stdout (ctl (store (StateManager.updateState f) fm)) = stdout (ctl fm) ++ [f (getState fm)] ∧
  rendering (store (StateManager.updateState f) fm).
Proof.
  intros (Hrun & Htimer & Hl).
  unfold store, StateManager.updateState, StateManager.notifyListeners, rendering.
  simpl. rewrite Hl. simpl. unfold render. rewrite Hrun. simpl. done.
Qed.

(** One timer tick, one frame, of the unchanged state. *)
Lemma render_per_tick fm :
  rendering fm →
  stdout (ctl (tick fm)) = stdout (ctl fm) ++ [getState fm] ∧
  getState (tick fm) = getState fm ∧
  rendering (tick fm).
Proof.
  intros (Hrun & Htimer & Hl). unfold tick, rendering. rewrite Htimer.
  unfold renderNow, render. rewrite Hrun. simpl. done.
Qed.

Lemma loadCurrentDirectory_unsubscribed env fm :
  StateManager.listeners (stateManager fm) = [] →
  ctl (loadCurrentDirectory env fm) = ctl fm ∧
  StateManager.listeners (stateManager (loadCurrentDirectory env fm)) = [].
Proof.
  intros Hl. unfold loadCurrentDirectory.
  destruct (FileScanner.scanDirectory env _) as [its|].
  - case_decide; unfold store, StateManager.clearSelection, StateManager.setSelection,
      StateManager.setLayoutInfo, StateManager.setFileItems, StateManager.updateState,
      StateManager.notifyListeners; simpl; rewrite Hl; simpl; by destruct (ctl fm).
  - unfold store, StateManager.setFileItems, StateManager.updateState,
      StateManager.notifyListeners; simpl; rewrite Hl; simpl; by destruct (ctl fm).
Qed.

(** After [start] on a new controller: one frame has been drawn, the
    50 ms timer is installed and [render] is subscribed. *)
Lemma start_rendering env (cwd : string) (termSize : Size) :
  rendering (start env (new cwd termSize)) ∧
  frames (start env (new cwd termSize)) = 1%nat.
Proof.
  unfold start. simpl isRunning. cbv iota.
  match goal with
  | |- context [loadCurrentDirectory env ?fm1] =>
      destruct (loadCurrentDirectory_unsubscribed env fm1 eq_refl) as [Hctl Hl];
      set (fm2 := loadCurrentDirectory env fm1) in *
  end.
  unfold rendering, frames, startRenderLoop, renderNow, render, StateManager.subscribe.
  simpl. rewrite Hctl, Hl. simpl. done.
Qed.
End RenderFacts.

Section RenderThrows.
Context {PM : PathModule} {CO : Collator}.
Import FileManager.

Implicit Types (fm : t) (env : Env).

(** Whether [render] throws depends on the terminal size and on the
    names in the list, nothing else. *)
Lemma render_throws_same (s s' : AppState) :
  terminalSize (viewport s') = terminalSize (viewport s) →
  items (viewport s') = items (viewport s) →
  render_throws s' = render_throws s.
Proof. unfold render_throws. by intros -> ->. Qed.

(** The frame [start] draws on a new controller is the frame of the
    state it leaves. *)
Lemma start_first_frame env (cwd : string) (termSize : Size) :
  stdout (ctl (start env (new cwd termSize))) = [getState (start env (new cwd termSize))].
Proof.
  unfold start. simpl isRunning. cbv iota.
  match goal with
  | |- context [loadCurrentDirectory env ?fm1] =>
      destruct (loadCurrentDirectory_unsubscribed env fm1 eq_refl) as [Hctl Hl];
      set (fm2 := loadCurrentDirectory env fm1) in *
  end.
  unfold startRenderLoop, renderNow, render, StateManager.subscribe, getState,
    StateManager.getState.
  simpl. rewrite Hctl. simpl. done.
Qed.

(** The frames a load draws while [render] is subscribed once: each is
    of a state with the terminal size and the list of the state the
    load leaves. *)
Lemma loadCurrentDirectory_frames env fm :
  isRunning (ctl fm) = true →
  StateManager.listeners (stateManager fm) = [render] →
  ∃ drawn,
    stdout (ctl (loadCurrentDirectory env fm)) = stdout (ctl fm) ++ drawn ∧
    Forall (λ s, render_throws s = render_throws (getState (loadCurrentDirectory env fm)))
      drawn.
Proof.
  intros Hrun Hl. unfold loadCurrentDirectory.
  destruct (FileScanner.scanDirectory env _) as [its|].
  - case_decide;
      unfold store, StateManager.clearSelection, StateManager.setSelection,
        StateManager.setLayoutInfo, StateManager.setFileItems, StateManager.updateState,
        StateManager.notifyListeners, getState, StateManager.getState;
      simpl; rewrite Hl; simpl; unfold render; simpl; rewrite Hrun; simpl;
      rewrite <- ?app_assoc; eexists; (split; [reflexivity|]);
      repeat constructor.
  - unfold store, StateManager.setFileItems, StateManager.updateState,
      StateManager.notifyListeners, getState, StateManager.getState;
      simpl; rewrite Hl; simpl; unfold render; rewrite Hrun; simpl.
    eexists. split; [reflexivity|]. repeat constructor.
Qed.
End RenderThrows.

(** C2 on the code. On a new controller whose first frame [render] can
    draw without throwing, [start] draws that frame and installs the
    50 ms interval of [startRenderLoop]; every tick of it then draws a
    frame although no store action ran and the state is the same; a
    store notification draws one frame too. Renders are therefore not
    only answers to notifications. *)
Theorem render_on_timer_tick
    {PM : PathModule} {CO : Collator} (env : Env) (cwd : string) (termSize : Size) :
  let fm := FileManager.start env (FileManager.new cwd termSize) in
  render_throws (FileManager.getState fm) = false →
  FileManager.stdout (FileManager.ctl fm) = [FileManager.getState fm] ∧
  FileManager.renderTimer (FileManager.ctl fm) = Some 50 ∧
  FileManager.getState (FileManager.tick fm) = FileManager.getState fm ∧
  FileManager.frames (FileManager.tick fm) = S (FileManager.frames fm) ∧
  FileManager.frames (FileManager.tick (FileManager.tick fm)) = S (S (FileManager.frames fm)) ∧
  ∀ f, render_throws (f (FileManager.getState fm)) = false →
       FileManager.frames (FileManager.store (StateManager.updateState f) fm)
       = S (FileManager.frames fm).
Proof.
  intros fm _. destruct (start_rendering env cwd termSize) as [Hr Hframes].
  fold fm in Hr, Hframes.
  destruct (render_per_tick fm Hr) as (Hout & Hstate & Hr').
  destruct (render_per_tick _ Hr') as (Hout' & _ & _).
  split; [apply start_first_frame|].
  split; [apply Hr|]. split; [done|].
  split; [unfold FileManager.frames; rewrite Hout, length_app; simpl; lia|].
  split; [unfold FileManager.frames; rewrite Hout', Hout, !length_app; simpl; lia|].
  intros f _. unfold FileManager.frames.
  destruct (render_per_notification f fm Hr) as [-> _].
  rewrite length_app. simpl. lia.
Qed.

Lemma render_on_timer_tick_witness :
  let fm := FileManager.start (PM := posix_path) (CO := readdir_order) home_env
              (FileManager.new "/home/u" size80) in
  render_throws (FileManager.getState fm) = false ∧
  FileManager.getState (FileManager.tick fm) = FileManager.getState fm ∧
  FileManager.frames (FileManager.tick fm) = S (FileManager.frames fm).
Proof.
  intros fm.
  assert (render_throws (FileManager.getState fm) = false) as H by (vm_compute; reflexivity).
  split; [exact H|].
  destruct (render_on_timer_tick (PM := posix_path) (CO := readdir_order)
              home_env "/home/u" size80 H) as (_ & _ & Hstate & Hframes & _).
  split; [exact Hstate|exact Hframes].
Defined.

(** ** A session, end to end

    In a directory that holds [report.txt] and [report (1).txt]: start,
    click the first icon, copy, paste, and let the timer tick once. The
    copy goes to [report (2).txt]; six frames are drawn: one by
    [startRenderLoop], one for the selection, one for the clipboard, two
    for the reload after the paste ([setFileItems], [setLayoutInfo]) and
    one for the tick. *)
Example paste_report_session :
  let fm :=
    FileManager.run (PM := posix_path) (CO := readdir_order)
      [(report_dir_env, FileManager.Start);
       (report_dir_env, FileManager.Bus (FileManager.MouseClick (MouseHandler.press 3 5 BLeft)));
       (report_dir_env, FileManager.Bus FileManager.FileCopy);
       (report_dir_env, FileManager.Bus FileManager.FilePaste);
       (report_dir_env, FileManager.Tick)]
      (FileManager.new "/home/u" size80) in
  FileManager.performed (FileManager.ctl fm)
    = [FsCopy "/home/u/report.txt" "/home/u/report (2).txt"] ∧
  FileManager.frames fm = 6%nat ∧
  selectedIndex (selection (FileManager.getState fm)) = 0 ∧
  clipboardOperation (FileManager.getState fm) = Some OpCopy.
Proof. vm_compute. done. Qed.

(** * Further properties of the code *)

(** ** The layout engine, beyond the round trip *)

(** X1. Whatever the terminal size, the layout has at least one column
    and one row; on a terminal at least 17 columns wide the columns fit
    between the borders, and on one at least 12 rows high the rows fit
    between header and footer. *)
Theorem calculateLayout_fits (terminalSize : Size) :
  let L := LayoutManager.calculateLayout terminalSize in
  1 ≤ LayoutManager.itemsPerRow L ∧ 1 ≤ LayoutManager.totalRows L ∧
  (17 ≤ width terminalSize →
     LayoutManager.itemsPerRow L * LayoutManager.itemWidth L ≤ width terminalSize - 4 ∧
     width terminalSize - 4 < (LayoutManager.itemsPerRow L + 1) * LayoutManager.itemWidth L) ∧
  (12 ≤ height terminalSize →
     LayoutManager.totalRows L * LayoutManager.itemHeight L ≤ height terminalSize - 7 ∧
     height terminalSize - 7 < (LayoutManager.totalRows L + 1) * LayoutManager.itemHeight L).
Proof.
  intros L. subst L. simpl.
  unfold LayoutManager.MIN_ITEMS_PER_ROW, LayoutManager.ITEM_WIDTH, LayoutManager.ITEM_HEIGHT,
    LayoutManager.HEADER_HEIGHT, LayoutManager.FOOTER_HEIGHT.
  split; [lia|]. split; [lia|]. split.
  - intros Hw.
    pose proof (Z.div_mod (width terminalSize - 4) 13 ltac:(lia)).
    pose proof (Z.mod_pos_bound (width terminalSize - 4) 13 ltac:(lia)).
    assert (1 ≤ (width terminalSize - 4) / 13) by (apply Z.div_le_lower_bound; lia).
    lia.
  - intros Hh.
    replace (height terminalSize - 3 - 2 - 2) with (height terminalSize - 7) by lia.
    pose proof (Z.div_mod (height terminalSize - 7) 5 ltac:(lia)).
    pose proof (Z.mod_pos_bound (height terminalSize - 7) 5 ltac:(lia)).
    assert (1 ≤ (height terminalSize - 7) / 5) by (apply Z.div_le_lower_bound; lia).
    lia.
Qed.

Lemma calculateLayout_fits_witness :
  17 ≤ width size80 ∧
  LayoutManager.itemsPerRow (LayoutManager.calculateLayout size80) *
    LayoutManager.itemWidth (LayoutManager.calculateLayout size80) ≤ width size80 - 4.
Proof.
  assert (17 ≤ width size80) as Hw by (vm_compute; discriminate).
  split; [exact Hw|].
  exact (proj1 (proj1 (proj2 (proj2 (calculateLayout_fits size80))) Hw)).
Defined.

(** X2. A press is mapped to [-1] or to the index of an item that
    exists: for a layout with positive cell sizes and at least one
    column, the result is [-1] or lies in [[0, totalItems)]. *)
Theorem getItemIndexFromPosition_range
    (x y totalItems : Z) (layout : LayoutManager.LayoutInfo) :
  0 < LayoutManager.itemWidth layout → 0 < LayoutManager.itemHeight layout →
  0 ≤ LayoutManager.itemsPerRow layout →
  let i := LayoutManager.getItemIndexFromPosition x y layout totalItems in
  i = -1 ∨ 0 ≤ i < totalItems.
Proof.
  intros Hw Hh Hipr i. subst i. unfold LayoutManager.getItemIndexFromPosition.
  case_decide as Hout; [by left|].
  case_decide as Hcol; [by left|].
  case_decide as Hidx; [|by left].
  right. split; [|done].
  assert (0 ≤ (x - 2) / LayoutManager.itemWidth layout) by (apply Z.div_pos; lia).
  assert (0 ≤ (y - LayoutManager.startY layout) / LayoutManager.itemHeight layout)
    by (apply Z.div_pos; lia).
  nia.
Qed.

Lemma getItemIndexFromPosition_range_witness :
  let L := LayoutManager.calculateLayout size80 in
  (0 < LayoutManager.itemWidth L ∧ 0 < LayoutManager.itemHeight L ∧
   0 ≤ LayoutManager.itemsPerRow L) ∧
  (LayoutManager.getItemIndexFromPosition 30 11 L 9 = -1 ∨
   0 ≤ LayoutManager.getItemIndexFromPosition 30 11 L 9 < 9).
Proof.
  intros L.
  assert (0 < LayoutManager.itemWidth L) as H1 by reflexivity.
  assert (0 < LayoutManager.itemHeight L) as H2 by reflexivity.
  assert (0 ≤ LayoutManager.itemsPerRow L) as H3 by (vm_compute; discriminate).
  split; [done|].
  exact (getItemIndexFromPosition_range 30 11 9 L H1 H2 H3).
Defined.

(** X3. Hit testing agrees with the cells: for a computed layout and an
    existing item [i], a point is mapped to [i] exactly when it lies in
    the rectangle [isWithinItemBounds] gives for the position of [i]. *)
Theorem getItemIndexFromPosition_iff_within
    (terminalSize : Size) (x y i totalItems : Z) :
  let L := LayoutManager.calculateLayout terminalSize in
  0 ≤ i < totalItems →
  LayoutManager.getItemIndexFromPosition x y L totalItems = i ↔
  LayoutManager.isWithinItemBounds x y (LayoutManager.getItemPosition i L) L = true.
Proof.
  intros L [Hlo Hhi].
  destruct (calculateLayout_positive terminalSize) as [Hipr _]. fold L in Hipr.
  destruct (getItemPosition_row_col i L Hlo ltac:(lia)) as (Hrow & Hcol & Hsplit).
  set (p := LayoutManager.getItemPosition i L) in *.
  assert (LayoutManager.x p = LayoutManager.col p * 13 + 2) as Hx by reflexivity.
  assert (LayoutManager.y p = 4 + LayoutManager.row p * 5) as Hy by reflexivity.
  unfold LayoutManager.isWithinItemBounds, LayoutManager.getItemIndexFromPosition.
  assert (LayoutManager.startY L = 4) as -> by reflexivity.
  assert (LayoutManager.itemWidth L = 13) as -> by reflexivity.
  assert (LayoutManager.itemHeight L = 5) as -> by reflexivity.
  rewrite !andb_true_iff, !bool_decide_eq_true, Hx, Hy.
  set (ipr := LayoutManager.itemsPerRow L) in *.
  set (c := LayoutManager.col p) in *. set (r := LayoutManager.row p) in *.
  split.
  - repeat case_decide; try lia. intros Hi.
    pose proof (Z.div_mod (x - 2) 13 ltac:(lia)).
    pose proof (Z.mod_pos_bound (x - 2) 13 ltac:(lia)).
    pose proof (Z.div_mod (y - 4) 5 ltac:(lia)).
    pose proof (Z.mod_pos_bound (y - 4) 5 ltac:(lia)).
    assert (0 ≤ (x - 2) / 13) by (apply Z.div_pos; lia).
    assert (0 ≤ (y - 4) / 5) by (apply Z.div_pos; lia).
    set (c' := (x - 2) / 13) in *. set (r' := (y - 4) / 5) in *.
    assert (r' = i / ipr) as Hr' by (apply (Z.div_unique i ipr r' c'); lia).
    assert (r = i / ipr) as Hr by (apply (Z.div_unique i ipr r c); lia).
    assert (r' = r) as Hrr by congruence. rewrite Hrr in *.
    assert (c' = c) as -> by lia.
    lia.
  - intros (((Hx1 & Hx2) & Hy1) & Hy2).
    assert ((x - 2) / 13 = c) as -> by (symmetry; apply (Z.div_unique _ _ _ (x - 2 - c * 13)); lia).
    assert ((y - 4) / 5 = r) as -> by (symmetry; apply (Z.div_unique _ _ _ (y - 4 - r * 5)); lia).
    repeat case_decide; lia.
Qed.

Lemma getItemIndexFromPosition_iff_within_witness :
  let L := LayoutManager.calculateLayout size80 in
  0 ≤ 6 < 9 ∧
  (LayoutManager.getItemIndexFromPosition 20 11 L 9 = 6 ↔
   LayoutManager.isWithinItemBounds 20 11 (LayoutManager.getItemPosition 6 L) L = true).
Proof.
  intros L. assert (0 ≤ 6 < 9) as H by lia.
  split; [exact H|]. exact (getItemIndexFromPosition_iff_within size80 20 11 6 9 H).
Defined.

(** X4. Scrolling to an item: with at least one row and one column, the
    offset returned puts the row of the item inside the window of
    [totalRows] rows that starts at the offset; an offset whose window
    already holds the row is returned unchanged, so asking again
    changes nothing. *)
Theorem getScrollOffsetForItem_visible
    (itemIndex currentScrollOffset : Z) (layout : LayoutManager.LayoutInfo) :
  0 < LayoutManager.itemsPerRow layout → 1 ≤ LayoutManager.totalRows layout →
  let itemRow := itemIndex / LayoutManager.itemsPerRow layout in
  let offset := LayoutManager.getScrollOffsetForItem itemIndex layout currentScrollOffset in
  offset ≤ itemRow ≤ offset + LayoutManager.totalRows layout - 1 ∧
  (currentScrollOffset ≤ itemRow ≤ currentScrollOffset + LayoutManager.totalRows layout - 1 →
     offset = currentScrollOffset) ∧
  LayoutManager.getScrollOffsetForItem itemIndex layout offset = offset.
Proof.
  intros Hipr Hrows itemRow offset. subst itemRow offset.
  unfold LayoutManager.getScrollOffsetForItem.
  repeat case_decide; lia.
Qed.

Lemma getScrollOffsetForItem_visible_witness :
  let L := LayoutManager.calculateLayout size80 in
  (0 < LayoutManager.itemsPerRow L ∧ 1 ≤ LayoutManager.totalRows L) ∧
  LayoutManager.getScrollOffsetForItem 42 L 0 ≤ 42 / LayoutManager.itemsPerRow L
    ≤ LayoutManager.getScrollOffsetForItem 42 L 0 + LayoutManager.totalRows L - 1.
Proof.
  intros L.
  assert (0 < LayoutManager.itemsPerRow L) as H1 by (vm_compute; reflexivity).
  assert (1 ≤ LayoutManager.totalRows L) as H2 by (vm_compute; discriminate).
  split; [done|].
  exact (proj1 (getScrollOffsetForItem_visible 42 0 L H1 H2)).
Defined.

(** X5. The visible range: when the first visible index
    [scrollOffset * itemsPerRow] is not past the end of the list, the
    range is inside the list and holds between 0 and one page of items;
    when it is past the end, the count returned is negative. *)
Theorem getVisibleItems_bounds
    (totalItems scrollOffset : Z) (layout : LayoutManager.LayoutInfo) :
  0 ≤ LayoutManager.itemsPerRow layout → 0 ≤ LayoutManager.totalRows layout →
  let v := LayoutManager.getVisibleItems totalItems layout scrollOffset in
  LayoutManager.v_start v = scrollOffset * LayoutManager.itemsPerRow layout ∧
  LayoutManager.v_end v ≤ totalItems ∧
  LayoutManager.visibleCount v
    ≤ LayoutManager.itemsPerRow layout * LayoutManager.totalRows layout ∧
  (LayoutManager.v_start v ≤ totalItems → 0 ≤ LayoutManager.visibleCount v) ∧
  (totalItems < LayoutManager.v_start v → LayoutManager.visibleCount v < 0).
Proof.
  intros Hipr Hrows v. subst v. simpl.
  assert (0 ≤ LayoutManager.itemsPerRow layout * LayoutManager.totalRows layout) by nia.
  repeat split; lia.
Qed.

Lemma getVisibleItems_bounds_witness :
  let L := LayoutManager.calculateLayout size80 in
  (0 ≤ LayoutManager.itemsPerRow L ∧ 0 ≤ LayoutManager.totalRows L) ∧
  LayoutManager.visibleCount (LayoutManager.getVisibleItems 7 L 2) < 0.
Proof.
  intros L.
  assert (0 ≤ LayoutManager.itemsPerRow L) as H1 by (vm_compute; discriminate).
  assert (0 ≤ LayoutManager.totalRows L) as H2 by (vm_compute; discriminate).
  split; [done|].
  apply (getVisibleItems_bounds 7 2 L H1 H2). vm_compute. reflexivity.
Defined.

(** X6. Scrolling and the visible range compose: after scrolling to an
    existing item, from any offset, the item is inside the range
    [getVisibleItems] reports for the new offset, and that range is not
    empty. *)
Theorem scrolled_item_is_visible
    (itemIndex totalItems currentScrollOffset : Z) (layout : LayoutManager.LayoutInfo) :
  0 < LayoutManager.itemsPerRow layout → 1 ≤ LayoutManager.totalRows layout →
  0 ≤ itemIndex < totalItems →
  let offset := LayoutManager.getScrollOffsetForItem itemIndex layout currentScrollOffset in
  let v := LayoutManager.getVisibleItems totalItems layout offset in
  LayoutManager.v_start v ≤ itemIndex < LayoutManager.v_end v ∧
  1 ≤ LayoutManager.visibleCount v.
Proof.
  intros Hipr Hrows Hidx offset v.
  assert (offset ≤ itemIndex / LayoutManager.itemsPerRow layout
            ≤ offset + LayoutManager.totalRows layout - 1) as Hwin.
  { subst offset. unfold LayoutManager.getScrollOffsetForItem. repeat case_decide; lia. }
  subst v. simpl.
  set (ipr := LayoutManager.itemsPerRow layout) in *.
  set (rows := LayoutManager.totalRows layout) in *.
  pose proof (Z.div_mod itemIndex ipr ltac:(lia)).
  pose proof (Z.mod_pos_bound itemIndex ipr Hipr).
  set (itemRow := itemIndex / ipr) in *.
  assert (offset * ipr ≤ itemRow * ipr) by nia.
  assert ((itemRow + 1) * ipr ≤ (offset + rows) * ipr) by nia.
  assert (offset * ipr ≤ itemIndex) by lia.
  assert (itemIndex < offset * ipr + ipr * rows) by lia.
  lia.
Qed.

Lemma scrolled_item_is_visible_witness :
  let L := LayoutManager.calculateLayout size80 in
  (0 < LayoutManager.itemsPerRow L ∧ 1 ≤ LayoutManager.totalRows L ∧ 0 ≤ 42 < 50) ∧
  LayoutManager.v_start
    (LayoutManager.getVisibleItems 50 L (LayoutManager.getScrollOffsetForItem 42 L 0)) ≤ 42.
Proof.
  intros L.
  assert (0 < LayoutManager.itemsPerRow L) as H1 by (vm_compute; reflexivity).
  assert (1 ≤ LayoutManager.totalRows L) as H2 by (vm_compute; discriminate).
  assert (0 ≤ 42 < 50) as H3 by lia.
  split; [done|].
  exact (proj1 (proj1 (scrolled_item_is_visible 42 50 0 L H1 H2 H3))).
Defined.

(** ** Text helpers *)

Lemma str_length_app (s1 s2 : JsString) :
  str_length (s1 ++ s2) = str_length s1 + str_length s2.
Proof. unfold str_length. rewrite length_app. lia. Qed.

Lemma str_length_nonneg (s : JsString) : 0 ≤ str_length s.
Proof. unfold str_length. lia. Qed.

Lemma substring_0 (s : JsString) (n : Z) :
  substring s 0 n = take (Z.to_nat n) s.
Proof.
  unfold substring. pose proof (str_length_nonneg s) as Hlen.
  replace (Z.to_nat (Z.max 0 (Z.min 0 (str_length s)))) with 0%nat by lia.
  rewrite Nat.min_0_l, Nat.max_0_l, Nat.sub_0_r, drop_0.
  destruct (decide (n ≤ str_length s)).
  - f_equal. lia.
  - rewrite !take_ge; [done| |]; unfold str_length in *; lia.
Qed.

Lemma str_length_substring_0 (s : JsString) (n : Z) :
  str_length (substring s 0 n) = Z.max 0 (Z.min n (str_length s)).
Proof. rewrite substring_0. unfold str_length. rewrite length_take. lia. Qed.

Lemma repeat_space_Normal (count : Z) :
  0 ≤ count → repeat_space count = Normal (replicate (Z.to_nat count) 32%N).
Proof. intros Hc. unfold repeat_space. by rewrite decide_False by lia. Qed.

Lemma str_length_replicate (n : nat) (c : N) : str_length (replicate n c) = Z.of_nat n.
Proof. unfold str_length. by rewrite length_replicate. Qed.

Lemma centerSingleLine_Normal (text : JsString) (width : Z) :
  str_length text ≤ width →
  ∃ line, Icons.centerSingleLine text width = Normal line ∧ str_length line = width.
Proof.
  intros Hfit. unfold Icons.centerSingleLine.
  assert (0 ≤ (width - str_length text) / 2) as Hp by (apply Z.div_pos; lia).
  assert ((width - str_length text) / 2 ≤ width - str_length text) as Hq
    by (apply Z.div_le_upper_bound; lia).
  rewrite !repeat_space_Normal by lia. simpl. eexists. split; [done|].
  rewrite !str_length_app, !str_length_replicate. lia.
Qed.

Lemma centerSingleLine_width (text line : JsString) (width : Z) :
  Icons.centerSingleLine text width = Normal line → str_length line = width.
Proof.
  unfold Icons.centerSingleLine, repeat_space.
  repeat case_decide; simpl; try done. intros [= <-].
  rewrite !str_length_app, !str_length_replicate. lia.
Qed.

Lemma centerSingleLine_Throw (text : JsString) (width : Z) :
  width < str_length text →
  Icons.centerSingleLine text width = Throw "RangeError: Invalid count value".
Proof.
  intros Hlong. unfold Icons.centerSingleLine, repeat_space.
  assert ((width - str_length text) / 2 < 0) by (apply Z.div_lt_upper_bound; lia).
  by rewrite decide_True by lia.
Qed.

Lemma wrapWords_widths (words : list JsString) (width : Z)
    (lines lines' : list JsString) (currentLine currentLine' : JsString) :
  Icons.wrapWords words width lines currentLine = Normal (lines', currentLine') →
  Forall (λ l, str_length l = width) lines →
  Forall (λ l, str_length l = width) lines'.
Proof.
  revert lines currentLine.
  induction words as [|word rest IH]; intros lines currentLine; simpl.
  - by intros [= <- <-].
  - destruct (decide (str_length currentLine + str_length word + 1 ≤ width)); [apply IH|].
    destruct (decide (currentLine ≠ [])).
    + destruct (Icons.centerSingleLine currentLine width) as [line|] eqn:Hline; [|done].
      simpl. intros Hrest Hall. eapply IH; [exact Hrest|].
      apply Forall_app. split; [done|]. constructor; [|done].
      by eapply centerSingleLine_width.
    + destruct (Icons.centerSingleLine _ width) as [line|] eqn:Hline; [|done].
      simpl. intros Hrest Hall. eapply IH; [exact Hrest|].
      apply Forall_app. split; [done|]. constructor; [|done].
      by eapply centerSingleLine_width.
Qed.

(** The result of [padText], case by case. *)
Lemma padText_cases (text : JsString) (width : Z) (align : Icons.Align) :
  ∃ padded,
    Icons.padText text width align = Normal padded ∧
    str_length padded = Z.max 0 width ∧
    (width ≤ str_length text → padded = take (Z.to_nat width) text) ∧
    (str_length text < width →
       ∃ left right, padded = replicate left 32%N ++ text ++ replicate right 32%N).
Proof.
  unfold Icons.padText. pose proof (str_length_nonneg text) as Hlen.
  case_decide as Hcut.
  - eexists. split; [done|]. rewrite str_length_substring_0, substring_0.
    split; [lia|]. split; [done|]. lia.
  - assert (0 ≤ (width - str_length text) / 2) by (apply Z.div_pos; lia).
    assert ((width - str_length text) / 2 ≤ width - str_length text)
      by (apply Z.div_le_upper_bound; lia).
    destruct align; rewrite !repeat_space_Normal by lia; simpl;
      eexists; (split; [done|]);
      rewrite ?str_length_app, ?str_length_replicate; (split; [lia|]); (split; [lia|]);
      intros _.
    + exists 0%nat, (Z.to_nat (width - str_length text)). done.
    + eexists _, _. done.
    + exists (Z.to_nat (width - str_length text)), 0%nat. by rewrite app_nil_r.
Qed.

(** X7. [padText] never throws and returns exactly [width] code units
    (none for a negative width), for every alignment; a text that is too
    long is cut to its first [width] code units, a shorter one is kept
    whole between spaces. *)
Theorem padText_width (text : JsString) (width : Z) (align : Icons.Align) :
  ∃ padded,
    Icons.padText text width align = Normal padded ∧
    str_length padded = Z.max 0 width ∧
    (width ≤ str_length text → padded = take (Z.to_nat width) text) ∧
    (str_length text < width →
       ∃ left right, padded = replicate left 32%N ++ text ++ replicate right 32%N).
Proof. exact (padText_cases text width align). Qed.

(** X8. [truncateText] returns a text that fits unchanged; a longer one
    becomes its first [maxLength - 3] code units followed by three dots,
    [maxLength] code units in all when [maxLength >= 3]; for
    [maxLength < 3] the result is the three dots alone, longer than
    asked. *)
Theorem truncateText_length (text : JsString) (maxLength : Z) :
  (str_length text ≤ maxLength → Icons.truncateText text maxLength = text) ∧
  (maxLength < str_length text →
     Icons.truncateText text maxLength
       = take (Z.to_nat (maxLength - 3)) text ++ lit "..." ∧
     str_length (Icons.truncateText text maxLength) = Z.max 3 maxLength).
Proof.
  unfold Icons.truncateText. split; intros Hlen.
  - by rewrite decide_True.
  - rewrite decide_False by lia. rewrite substring_0. split; [done|].
    rewrite str_length_app. unfold str_length at 1. rewrite length_take.
    unfold str_length in *. simpl. lia.
Qed.

Lemma truncateText_length_witness :
  5 < str_length (lit "readme.markdown") ∧
  Icons.truncateText (lit "readme.markdown") 5 = lit "re...".
Proof.
  assert (5 < str_length (lit "readme.markdown")) as H by (vm_compute; reflexivity).
  split; [exact H|].
  rewrite (proj1 (proj2 (truncateText_length (lit "readme.markdown") 5) H)). reflexivity.
Defined.

(** X9. [centerText]: a text that fits gives one line, the text between
    [floor((width - length) / 2)] spaces on the left and the remaining
    spaces on the right; and whenever [centerText] returns, on the
    wrapping path as well, every line it returns is exactly [width]
    code units wide. *)
Theorem centerText_lines_width (text : JsString) (width : Z) :
  (str_length text ≤ width →
     Icons.centerText text width
       = Normal [replicate (Z.to_nat ((width - str_length text) / 2)) 32%N ++ text ++
                 replicate (Z.to_nat (width - str_length text
                                      - (width - str_length text) / 2)) 32%N]) ∧
  (∀ lines, Icons.centerText text width = Normal lines →
            Forall (λ l, str_length l = width) lines).
Proof.
  split.
  - intros Hfit. unfold Icons.centerText. rewrite decide_True by done.
    assert (0 ≤ (width - str_length text) / 2) by (apply Z.div_pos; lia).
    assert ((width - str_length text) / 2 ≤ width - str_length text)
      by (apply Z.div_le_upper_bound; lia).
    by rewrite !repeat_space_Normal by lia.
  - intros lines. unfold Icons.centerText. case_decide as Hfit.
    + unfold repeat_space. repeat case_decide; simpl; try done. intros [= <-].
      constructor; [|done]. rewrite !str_length_app, !str_length_replicate. lia.
    + destruct (Icons.wrapWords (split_space text) width [] []) as [[ls cur]|] eqn:Hwrap;
        [|done].
      simpl. pose proof (wrapWords_widths _ _ _ _ _ _ Hwrap (Forall_nil_2 _)) as Hall.
      case_decide.
      * destruct (Icons.centerSingleLine cur width) as [line|] eqn:Hline; [|done].
        simpl. intros [= <-]. apply Forall_app. split; [done|].
        constructor; [|done]. by eapply centerSingleLine_width.
      * by intros [= <-].
Qed.

Lemma centerText_lines_width_witness :
  str_length (lit "a.txt") ≤ 9 ∧
  Icons.centerText (lit "a.txt") 9 = Normal [lit "  a.txt  "].
Proof.
  assert (str_length (lit "a.txt") ≤ 9) as H by (vm_compute; discriminate).
  split; [exact H|].
  rewrite (proj1 (centerText_lines_width (lit "a.txt") 9) H). reflexivity.
Defined.

Lemma split_space_word (w : JsString) : 32%N ∉ w → split_space w = [w].
Proof.
  induction w as [|c w IH]; [done|]. intros Hno. simpl.
  rewrite decide_False by (intros ->; apply Hno; left).
  rewrite IH; [done|]. intros Hin. apply Hno. by right.
Qed.

Lemma split_space_two (a b : JsString) :
  32%N ∉ a → 32%N ∉ b → split_space (a ++ 32%N :: b) = [a; b].
Proof.
  intros Ha Hb. induction a as [|c a IH]; simpl.
  - by rewrite split_space_word.
  - rewrite decide_False by (intros ->; apply Ha; left).
    rewrite IH; [done|]. intros Hin. apply Ha. by right.
Qed.

(** X10. [centerText] can throw. A text without a space never does for
    [width >= 3]: when too long it is cut to [width - 3] code units and
    three dots. But when a word that fits is followed by a word longer
    than [width], the long word becomes the current line uncut and
    centring it asks for a negative number of spaces: [RangeError]. *)
Theorem centerText_long_second_word (a b : JsString) (width : Z) :
  32%N ∉ a → 32%N ∉ b →
  (3 ≤ width → width < str_length a →
     Icons.centerText a width = Normal [take (Z.to_nat (width - 3)) a ++ lit "..."]) ∧
  (a ≠ [] → str_length a + 1 ≤ width → width < str_length b →
     Icons.centerText (a ++ lit " " ++ b) width = Throw "RangeError: Invalid count value").
Proof.
  intros Ha Hb. split.
  - intros Hw Hlong. unfold Icons.centerText. rewrite decide_False by lia.
    rewrite split_space_word by done. simpl.
    rewrite decide_False by (change (str_length []) with 0; lia).
    assert (str_length (substring a 0 (width - 3) ++ lit "...") = width) as Hcut.
    { rewrite str_length_app, str_length_substring_0. change (str_length (lit "...")) with 3.
      lia. }
    unfold Icons.centerSingleLine. rewrite Hcut.
    replace (width - width) with 0 by lia. simpl.
    rewrite app_nil_r. by rewrite substring_0.
  - intros Hne Hfit Hlong. unfold Icons.centerText.
    pose proof (str_length_nonneg a). pose proof (str_length_nonneg b).
    rewrite decide_False
      by (rewrite !str_length_app; change (str_length (lit " ")) with 1; lia).
    change (lit " " ++ b) with (32%N :: b). rewrite split_space_two by done.
    simpl. rewrite decide_True by (change (str_length []) with 0; lia).
    rewrite decide_False by lia. rewrite decide_True by done.
    destruct (centerSingleLine_Normal a width ltac:(lia)) as (line & -> & _). simpl.
    rewrite decide_True by (intros ->; change (str_length []) with 0 in Hlong; lia).
    by rewrite centerSingleLine_Throw.
Qed.

Lemma centerText_long_second_word_witness :
  ((32%N ∉ lit "my") ∧ (32%N ∉ lit "presentation.pptx") ∧ lit "my" ≠ [] ∧
   str_length (lit "my") + 1 ≤ 9 ∧ 9 < str_length (lit "presentation.pptx")) ∧
  Icons.centerText (lit "my presentation.pptx") 9 = Throw "RangeError: Invalid count value".
Proof.
  assert (32%N ∉ lit "my") as H1
    by (apply (bool_decide_unpack (32%N ∉ lit "my")); vm_compute; exact I).
  assert (32%N ∉ lit "presentation.pptx") as H2
    by (apply (bool_decide_unpack (32%N ∉ lit "presentation.pptx")); vm_compute; exact I).
  assert (lit "my" ≠ []) as H3 by discriminate.
  assert (str_length (lit "my") + 1 ≤ 9) as H4 by (vm_compute; discriminate).
  assert (9 < str_length (lit "presentation.pptx")) as H5 by (vm_compute; reflexivity).
  split; [done|].
  exact (proj2 (centerText_long_second_word (lit "my") (lit "presentation.pptx") 9 H1 H2)
           H3 H4 H5).
Defined.

Lemma padText_width_witness :
  str_length (lit "Open") < 16 ∧
  Icons.padText (lit "Open") 16 Icons.AlignRight = Normal (lit "            Open").
Proof.
  assert (str_length (lit "Open") < 16) as H by (vm_compute; reflexivity).
  split; [exact H|].
  destruct (padText_width (lit "Open") 16 Icons.AlignRight) as (padded & Hpad & _).
  rewrite Hpad. f_equal. vm_compute in Hpad. by injection Hpad as <-.
Defined.

(** ** The context menu *)

Lemma max_of_Some (xs : list Z) (x : Z) :
  x ∈ xs → ∃ m, max_of xs = Some m ∧ x ≤ m.
Proof.
  induction xs as [|a xs IH]; [by intros ?%elem_of_nil|].
  intros Hin. change (max_of (a :: xs))
    with (Some (match max_of xs with Some b => Z.max a b | None => a end)).
  apply elem_of_cons in Hin as [Heq|Hin].
  - subst x. destruct (max_of xs); eexists; (split; [done|]); lia.
  - destruct (IH Hin) as (m & -> & Hle). eexists. split; [done|]. lia.
Qed.

Lemma repeat_unit_Normal (c : N) (count : Z) :
  0 ≤ count → repeat_unit c count = Normal (replicate (Z.to_nat count) c).
Proof. intros Hc. unfold repeat_unit. by rewrite decide_False by lia. Qed.

Lemma menuWidth_min (items : list ContextMenu.ContextMenuItem) :
  20 ≤ ContextMenu.menuWidth items.
Proof.
  unfold ContextMenu.menuWidth.
  destruct (ContextMenu.maxLabelWidth items), (ContextMenu.maxShortcutWidth items); lia.
Qed.

Lemma horizontal_Normal (left right : N) (width : Z) :
  2 ≤ width →
  ∃ line, ContextMenu.horizontal left right width = Normal line ∧ str_length line = width.
Proof.
  intros Hw. unfold ContextMenu.horizontal. rewrite repeat_unit_Normal by lia. simpl.
  eexists. split; [done|]. unfold str_length. simpl.
  rewrite length_app, length_replicate. simpl. lia.
Qed.

Lemma padText_exact (text : JsString) (width : Z) (align : Icons.Align) :
  0 ≤ width →
  ∃ padded, Icons.padText text width align = Normal padded ∧ str_length padded = width.
Proof.
  intros Hw. destruct (padText_cases text width align) as (padded & Hpad & Hlen & _).
  exists padded. split; [done|]. lia.
Qed.

(** A line of the loop is as wide as the menu. *)
Lemma itemLine_Normal (items : list ContextMenu.ContextMenuItem)
    (item : ContextMenu.ContextMenuItem) :
  item ∈ items →
  ∃ line, ContextMenu.itemLine items item = Normal line ∧
          str_length line = ContextMenu.menuWidth items.
Proof.
  intros Hin. unfold ContextMenu.itemLine.
  pose proof (menuWidth_min items) as Hmin.
  destruct (ContextMenu.separator item); [apply horizontal_Normal; lia|].
  destruct (max_of_Some ((λ it, str_length (ContextMenu.label it)) <$> items)
              (str_length (ContextMenu.label item))) as (ml & Hml & Hlab).
  { apply list_elem_of_fmap. by exists item. }
  destruct (max_of_Some (ContextMenu.shortcutLength <$> items)
              (ContextMenu.shortcutLength item)) as (ms & Hms & Hsc).
  { apply list_elem_of_fmap. by exists item. }
  assert (0 ≤ ml) by (pose proof (str_length_nonneg (ContextMenu.label item)); lia).
  assert (0 ≤ ms).
  { unfold ContextMenu.shortcutLength in Hsc.
    destruct (ContextMenu.shortcut item) as [sc|];
      [pose proof (str_length_nonneg sc)|]; lia. }
  assert (ContextMenu.menuWidth items = Z.max 20 (ml + ms + 6)) as Hwidth.
  { unfold ContextMenu.menuWidth, ContextMenu.maxLabelWidth, ContextMenu.maxShortcutWidth.
    by rewrite Hml, Hms. }
  unfold ContextMenu.maxLabelWidth, ContextMenu.maxShortcutWidth. rewrite Hml, Hms. simpl.
  destruct (padText_exact (ContextMenu.label item) ml Icons.AlignLeft ltac:(lia))
    as (lbl & -> & Hlbl). simpl.
  assert (∃ sc, match ContextMenu.shortcut item with
                | Some sc => if decide (sc ≠ []) then Icons.padText sc ms Icons.AlignRight
                             else repeat_space ms
                | None => repeat_space ms
                end = Normal sc ∧ str_length sc = ms) as (sc & -> & Hsclen).
  { destruct (ContextMenu.shortcut item) as [sc0|]; [case_decide|].
    - apply padText_exact. lia.
    - rewrite repeat_space_Normal by lia. eexists. split; [done|].
      rewrite str_length_replicate. lia.
    - rewrite repeat_space_Normal by lia. eexists. split; [done|].
      rewrite str_length_replicate. lia. }
  simpl. rewrite repeat_space_Normal by lia. simpl.
  eexists. split; [done|].
  change (9474%N :: lbl ++ ?g ++ sc ++ [9474%N]) with ([9474%N] ++ lbl ++ g ++ sc ++ [9474%N]).
  rewrite !str_length_app, str_length_replicate.
  change (str_length [9474%N]) with 1. lia.
Qed.

Lemma mapC_Normal {A B : Type} (f : A → Completion B) (P : B → Prop) (l : list A) :
  (∀ a, a ∈ l → ∃ b, f a = Normal b ∧ P b) →
  ∃ bs, ContextMenu.mapC f l = Normal bs ∧ Forall P bs ∧ length bs = length l.
Proof.
  induction l as [|a l IH]; intros Hall; simpl.
  - by exists [].
  - destruct (Hall a ltac:(left)) as (b & -> & Hb).
    destruct IH as (bs & -> & Hbs & Hlen); [intros a' Ha'; apply Hall; by right|].
    simpl. exists (b :: bs). split; [done|]. split; [by constructor|]. simpl. lia.
Qed.

Lemma rawLines_Normal (items : list ContextMenu.ContextMenuItem) :
  ∃ raw, ContextMenu.rawLines items = Normal raw ∧
         Forall (λ l, str_length l = ContextMenu.menuWidth items) raw ∧
         length raw = (length items + 2)%nat.
Proof.
  unfold ContextMenu.rawLines. pose proof (menuWidth_min items) as Hmin.
  destruct (horizontal_Normal 9581 9582 (ContextMenu.menuWidth items) ltac:(lia))
    as (top & -> & Htop).
  destruct (mapC_Normal (ContextMenu.itemLine items)
              (λ l, str_length l = ContextMenu.menuWidth items) items)
    as (body & -> & Hbody & Hlen); [intros a Ha; by apply itemLine_Normal|].
  destruct (horizontal_Normal 9584 9583 (ContextMenu.menuWidth items) ltac:(lia))
    as (bottom & -> & Hbottom).
  simpl. eexists. split; [done|]. split.
  - constructor; [done|]. apply Forall_app. split; [done|]. by constructor.
  - simpl. rewrite length_app. simpl. lia.
Qed.



(** X12. The menu is a rectangle: before colouring, every line drawn
    (borders, separators, entries with their label and shortcut) is
    exactly as wide as the box, and there is one line per item plus the
    two borders. *)
Theorem createContextMenu_rectangle
    `{MenuTheme} (items : list ContextMenu.ContextMenuItem) (pos : Position)
    (terminalWidth terminalHeight : Z) :
  ∃ menu raw,
    ContextMenu.createContextMenu items pos terminalWidth terminalHeight = Normal menu ∧
    ContextMenu.rawLines items = Normal raw ∧
    ContextMenu.lines menu = ContextMenu.colorContextMenu raw ∧
    Forall (λ l, str_length l = ContextMenu.b_width (ContextMenu.bounds menu)) raw ∧
    js_length (ContextMenu.lines menu) = ContextMenu.b_height (ContextMenu.bounds menu).
Proof.
  unfold ContextMenu.createContextMenu, ContextMenu.adjust.
  destruct (rawLines_Normal items) as (raw & -> & Hall & Hlen). simpl.
  eexists _, raw. split; [done|]. split; [done|]. simpl. split; [done|]. split; [done|].
  unfold ContextMenu.colorContextMenu, ContextMenu.menuHeight, js_length.
  rewrite length_fmap, Hlen. lia.
Qed.

(** ** The event bus: subscribing and unsubscribing *)

Section BusMoreFacts.
Context {W E : Type} `{Console W}.
Import SimpleEventBus.

Lemma remove_first_app_new (h : EventHandler W E) (handlers : list (EventHandler W E)) :
  hid h ∉ (hid <$> handlers) → remove_first (hid h) (handlers ++ [h]) = handlers.
Proof.
  induction handlers as [|h' handlers IH]; intros Hfresh; simpl.
  - by rewrite decide_True.
  - rewrite decide_False by (intros Heq; apply Hfresh; rewrite <- Heq; left).
    f_equal. apply IH. intros Hin. apply Hfresh. by right.
Qed.

Lemma no_empty_on (bus : t W E) (event : string) (handler : EventHandler W E) :
  no_empty bus → no_empty (on event handler bus).
Proof.
  intros Hne event' handlers. unfold on, t in *.
  destruct (decide (event = event')) as [<-|Hneq].
  - rewrite lookup_insert_eq. intros [= <-]. by destruct (default [] (bus !! event)).
  - rewrite lookup_insert_ne by done. apply Hne.
Qed.

Lemma no_empty_off (bus : t W E) (event : string) (handler : option (EventHandler W E)) :
  no_empty bus → no_empty (off event handler bus).
Proof.
  intros Hne event' handlers. unfold off, t in *.
  destruct handler as [h|].
  - destruct (bus !! event) as [hs|] eqn:Hhs; [|apply Hne].
    case_decide as Hlen.
    + destruct (decide (event = event')) as [<-|Hneq].
      * by rewrite lookup_delete_eq.
      * rewrite lookup_delete_ne by done. apply Hne.
    + destruct (decide (event = event')) as [<-|Hneq].
      * rewrite lookup_insert_eq. intros [= <-] Hnil. by rewrite Hnil in Hlen.
      * rewrite lookup_insert_ne by done. apply Hne.
  - destruct (decide (event = event')) as [<-|Hneq].
    + by rewrite lookup_delete_eq.
    + rewrite lookup_delete_ne by done. apply Hne.
Qed.
End BusMoreFacts.

(** X13. The registry never keeps a topic with an empty handler array:
    after any sequence of [on], [off] (with or without a handler) and
    [clear] on a new bus, every topic that is present has at least one
    handler. *)
Theorem bus_keeps_no_empty_topic
    {W E : Type} `{Console W} (ops : list (SimpleEventBus.Op W E))
    (event : string) (handlers : list (SimpleEventBus.EventHandler W E)) :
  foldl SimpleEventBus.apply SimpleEventBus.new ops !! event = Some handlers →
  handlers ≠ [].
Proof.
  assert (∀ bus : SimpleEventBus.t W E,
            SimpleEventBus.no_empty bus →
            SimpleEventBus.no_empty (foldl SimpleEventBus.apply bus ops)) as Hall.
  { induction ops as [|op ops IH]; intros bus Hne; [done|]. simpl. apply IH.
    destruct op; simpl.
    - by apply no_empty_on.
    - by apply no_empty_off.
    - intros ev hs. unfold SimpleEventBus.clear, SimpleEventBus.t. by rewrite lookup_empty. }
  apply (Hall SimpleEventBus.new).
  intros ev hs. unfold SimpleEventBus.new, SimpleEventBus.t. by rewrite lookup_empty.
Qed.

Lemma bus_keeps_no_empty_topic_witness :
  let ops := [SimpleEventBus.OpOn "refresh" (says 1 "first");
              SimpleEventBus.OpOn "refresh" (says 2 "second");
              SimpleEventBus.OpOff "refresh" (Some (says 1 "first"))] in
  foldl SimpleEventBus.apply SimpleEventBus.new ops !! "refresh" = Some [says 2 "second"] ∧
  [says 2 "second"] ≠ [].
Proof.
  intros ops.
  assert (foldl SimpleEventBus.apply SimpleEventBus.new ops !! "refresh"
          = Some [says 2 "second"]) as Hl by (vm_compute; reflexivity).
  split; [exact Hl|].
  exact (bus_keeps_no_empty_topic ops "refresh" _ Hl).
Defined.

(** X14. Subscribing and then unsubscribing restores the registry: if
    the handler is not yet among the handlers of the topic and the
    registry holds no empty array, [off(event, h)] after [on(event, h)]
    gives back the registry as it was, the topic included or absent as
    before. *)
Theorem off_after_on
    {W E : Type} `{Console W} (bus : SimpleEventBus.t W E) (event : string)
    (h : SimpleEventBus.EventHandler W E) :
  SimpleEventBus.no_empty bus →
  SimpleEventBus.hid h ∉ (SimpleEventBus.hid <$> default [] (bus !! event)) →
  SimpleEventBus.off event (Some h) (SimpleEventBus.on event h bus) = bus.
Proof.
  intros Hne Hfresh. unfold SimpleEventBus.off. rewrite on_lookup.
  rewrite remove_first_app_new by done.
  unfold SimpleEventBus.on, SimpleEventBus.t in *.
  destruct (bus !! event) as [hs|] eqn:Hhs; cbn [default].
  - rewrite decide_False by (intros Hlen; apply (Hne event hs Hhs); by destruct hs).
    rewrite insert_insert_eq. by apply insert_id.
  - rewrite decide_True by done. rewrite delete_insert_eq. by apply delete_id.
Qed.

Lemma off_after_on_witness :
  let bus : SimpleEventBus.t (list string) unit :=
    SimpleEventBus.on "refresh" (says 1 "first") SimpleEventBus.new in
  (SimpleEventBus.no_empty bus ∧
   SimpleEventBus.hid (says 2 "second")
     ∉ (SimpleEventBus.hid <$> default [] (bus !! "refresh"))) ∧
  SimpleEventBus.off "refresh" (Some (says 2 "second"))
    (SimpleEventBus.on "refresh" (says 2 "second") bus) = bus.
Proof.
  intros bus.
  assert (SimpleEventBus.no_empty bus) as H1.
  { apply no_empty_on. intros ev hs. unfold SimpleEventBus.new, SimpleEventBus.t.
    by rewrite lookup_empty. }
  assert (SimpleEventBus.hid (says 2 "second")
            ∉ (SimpleEventBus.hid <$> default [] (bus !! "refresh"))) as H2.
  { apply (bool_decide_unpack
             (SimpleEventBus.hid (says 2 "second")
                ∉ (SimpleEventBus.hid <$> default [] (bus !! "refresh")))).
    vm_compute. exact I. }
  split; [done|]. exact (off_after_on bus "refresh" (says 2 "second") H1 H2).
Defined.

(** X15. Unsubscribing: after [off(event, h)], [emit] runs the handlers
    of the topic without the first subscription of [h], in the old
    order; after [off(event)] it runs none; and the handlers of every
    other topic are the same as before. *)
Theorem emit_after_off
    {W E : Type} `{Console W} (bus : SimpleEventBus.t W E) (event : string) (data : E)
    (handlers : list (SimpleEventBus.EventHandler W E)) (w : W) :
  bus !! event = Some handlers →
  (∀ h, SimpleEventBus.emit event data (SimpleEventBus.off event (Some h) bus) w
        = (Normal tt,
           foldl (SimpleEventBus.guarded event data) w
             (SimpleEventBus.remove_first (SimpleEventBus.hid h) handlers))) ∧
  SimpleEventBus.emit event data (SimpleEventBus.off event None bus) w = (Normal tt, w) ∧
  (∀ h event', event' ≠ event →
     SimpleEventBus.off event h bus !! event' = bus !! event').
Proof.
  intros Hsome. unfold SimpleEventBus.off, SimpleEventBus.t in *. split; [|split].
  - intros h. rewrite Hsome. case_decide as Hlen.
    + rewrite emit_no_handlers by (unfold SimpleEventBus.t; by rewrite lookup_delete_eq).
      by destruct (SimpleEventBus.remove_first _ handlers).
    + unfold SimpleEventBus.emit, SimpleEventBus.t. rewrite lookup_insert_eq.
      apply forEach_guarded.
  - apply emit_no_handlers. unfold SimpleEventBus.t. by rewrite lookup_delete_eq.
  - intros h event' Hneq. destruct h as [h|].
    + rewrite Hsome. case_decide.
      * by rewrite lookup_delete_ne.
      * by rewrite lookup_insert_ne.
    + by rewrite lookup_delete_ne.
Qed.

Lemma emit_after_off_witness :
  three_handlers !! "refresh" = Some [says 1 "first"; fails 2 "second" "boom"; says 3 "third"] ∧
  SimpleEventBus.emit "refresh" ()
    (SimpleEventBus.off "refresh" (Some (fails 2 "second" "boom")) three_handlers) []
  = (Normal tt, ["first"; "third"]).
Proof.
  assert (three_handlers !! "refresh"
          = Some [says 1 "first"; fails 2 "second" "boom"; says 3 "third"]) as Hl
    by (vm_compute; reflexivity).
  split; [exact Hl|].
  rewrite (proj1 (emit_after_off three_handlers "refresh" () _ [] Hl)). reflexivity.
Defined.

(** ** Decoding mouse reports *)

Lemma span_digits_app (ds rest : JsString) :
  Forall (λ c, is_digit c = true) ds →
  match rest with c :: _ => is_digit c = false | [] => True end →
  span_digits (ds ++ rest) = (ds, rest).
Proof.
  intros Hds Hrest. induction Hds as [|d ds Hd _ IH]; simpl.
  - destruct rest as [|c rest]; [done|]. simpl. by rewrite Hrest.
  - by rewrite Hd, IH.
Qed.

Lemma digits_then_app (stop : N → bool) (ds : JsString) (c : N) (rest : JsString) :
  ds ≠ [] → Forall (λ c, is_digit c = true) ds → is_digit c = false → stop c = true →
  digits_then stop (ds ++ c :: rest) = Some (ds, c, rest).
Proof.
  intros Hne Hds Hc Hstop. unfold digits_then.
  rewrite span_digits_app by done. destruct ds; [done|]. by rewrite Hstop.
Qed.

Lemma parseButtonCode_mod (code : Z) :
  MouseHandler.parseButtonCode code =
    if decide (code `mod` 4 = 0) then Some BLeft
    else if decide (code `mod` 4 = 1) then Some BMiddle
    else if decide (code `mod` 4 = 2) then Some BRight
    else None.
Proof.
  unfold MouseHandler.parseButtonCode.
  change 3 with (Z.ones 2). rewrite Z.land_ones by lia. done.
Qed.

Section SgrFacts.
Context (buttonCode x y tail : JsString).
Hypothesis Hb : buttonCode ≠ [] ∧ Forall (λ c, is_digit c = true) buttonCode.
Hypothesis Hx : x ≠ [] ∧ Forall (λ c, is_digit c = true) x.
Hypothesis Hy : y ≠ [] ∧ Forall (λ c, is_digit c = true) y.

Lemma sgrMatch_sgr (action : N) :
  action = 77%N ∨ action = 109%N →
  MouseParser.sgrMatch (MouseParser.sgr buttonCode x y action ++ tail)
    = Some (buttonCode, x, y, action).
Proof.
  intros Haction. unfold MouseParser.sgr, MouseParser.sgrMatch. simpl.
  destruct Hb as [Hb1 Hb2], Hx as [Hx1 Hx2], Hy as [Hy1 Hy2].
  rewrite <- !app_assoc. simpl.
  rewrite (digits_then_app MouseParser.is_semicolon buttonCode 59) by done. cbv beta iota.
  rewrite <- ?app_assoc, <- ?app_comm_cons.
  rewrite (digits_then_app MouseParser.is_semicolon x 59) by done. cbv beta iota.
  rewrite <- ?app_assoc, <- ?app_comm_cons.
  rewrite (digits_then_app MouseParser.is_action y action); [done..| |].
  - destruct Haction as [->| ->]; reflexivity.
  - destruct Haction as [->| ->]; reflexivity.
Qed.

Lemma legacy_sgr (action : N) :
  MouseParser.legacy (MouseParser.sgr buttonCode x y action ++ tail) = None.
Proof.
  change (MouseParser.sgr buttonCode x y action ++ tail)
    with (27%N :: 91%N :: 60%N ::
            ((buttonCode ++ [59%N] ++ x ++ [59%N] ++ y ++ [action]) ++ tail)).
  generalize ((buttonCode ++ [59%N] ++ x ++ [59%N] ++ y ++ [action]) ++ tail).
  intros r. unfold MouseParser.legacy. by destruct r as [|? [|? [|? ?]]].
Qed.
End SgrFacts.

(** What the decoder makes of a well-formed SGR report, with [parseInt]
    on exact integers. *)
Lemma parseMouseEvent_sgr_report (buttonCode x y tail : JsString) :
  buttonCode ≠ [] ∧ Forall (λ c, is_digit c = true) buttonCode →
  x ≠ [] ∧ Forall (λ c, is_digit c = true) x →
  y ≠ [] ∧ Forall (λ c, is_digit c = true) y →
  MouseParser.parseMouseEvent (MouseParser.sgr buttonCode x y 77 ++ tail)
    = (if decide (parseInt buttonCode `mod` 4 = 3) then None
       else Some {| ev_x := parseInt x - 1; ev_y := parseInt y - 1;
                    button := if decide (parseInt buttonCode `mod` 4 = 0) then BLeft
                              else if decide (parseInt buttonCode `mod` 4 = 1) then BMiddle
                              else BRight;
                    ev_type := Click |}) ∧
  MouseParser.parseMouseEvent (MouseParser.sgr buttonCode x y 109 ++ tail) = None.
Proof.
  intros Hb Hx Hy. unfold MouseParser.parseMouseEvent.
  rewrite !sgrMatch_sgr by auto. rewrite !legacy_sgr by done.
  rewrite parseButtonCode_mod.
  pose proof (Z.mod_pos_bound (parseInt buttonCode) 4 ltac:(lia)).
  split.
  - repeat case_decide; try done; lia.
  - by repeat case_decide.
Qed.

(** X16. Decoding an SGR report [ESC [ < b ; x ; y M]: for any three
    non-empty runs of digits whose values are at most
    [Number.MAX_SAFE_INTEGER], so that [parseInt] returns them exactly,
    and whatever follows the report, a press is decoded to the 0-based
    position [(x - 1, y - 1)] with the button given by the low two bits
    of [b], or to nothing when those bits are [3]; the same report
    ending in [m] (a release) decodes to nothing. *)
Theorem parseMouseEvent_sgr (buttonCode x y tail : JsString) :
  buttonCode ≠ [] ∧ Forall (λ c, is_digit c = true) buttonCode →
  x ≠ [] ∧ Forall (λ c, is_digit c = true) x →
  y ≠ [] ∧ Forall (λ c, is_digit c = true) y →
  parseInt buttonCode ≤ MAX_SAFE_INTEGER ∧ parseInt x ≤ MAX_SAFE_INTEGER ∧
    parseInt y ≤ MAX_SAFE_INTEGER →
  MouseParser.parseMouseEvent (MouseParser.sgr buttonCode x y 77 ++ tail)
    = (if decide (parseInt buttonCode `mod` 4 = 3) then None
       else Some {| ev_x := parseInt x - 1; ev_y := parseInt y - 1;
                    button := if decide (parseInt buttonCode `mod` 4 = 0) then BLeft
                              else if decide (parseInt buttonCode `mod` 4 = 1) then BMiddle
                              else BRight;
                    ev_type := Click |}) ∧
  MouseParser.parseMouseEvent (MouseParser.sgr buttonCode x y 109 ++ tail) = None.
Proof.
  intros Hb Hx Hy _. exact (parseMouseEvent_sgr_report buttonCode x y tail Hb Hx Hy).
Qed.

Lemma parseMouseEvent_sgr_witness :
  (lit "0" ≠ [] ∧ Forall (λ c, is_digit c = true) (lit "0")) ∧
  (lit "12" ≠ [] ∧ Forall (λ c, is_digit c = true) (lit "12")) ∧
  (lit "7" ≠ [] ∧ Forall (λ c, is_digit c = true) (lit "7")) ∧
  (parseInt (lit "0") ≤ MAX_SAFE_INTEGER ∧ parseInt (lit "12") ≤ MAX_SAFE_INTEGER ∧
   parseInt (lit "7") ≤ MAX_SAFE_INTEGER) ∧
  MouseParser.parseMouseEvent (MouseParser.sgr (lit "0") (lit "12") (lit "7") 77 ++ [])
    = Some (MouseHandler.press 11 6 BLeft).
Proof.
  assert (lit "0" ≠ [] ∧ Forall (λ c, is_digit c = true) (lit "0")) as H1
    by (split; [discriminate|repeat constructor]).
  assert (lit "12" ≠ [] ∧ Forall (λ c, is_digit c = true) (lit "12")) as H2
    by (split; [discriminate|repeat constructor]).
  assert (lit "7" ≠ [] ∧ Forall (λ c, is_digit c = true) (lit "7")) as H3
    by (split; [discriminate|repeat constructor]).
  assert (parseInt (lit "0") ≤ MAX_SAFE_INTEGER ∧ parseInt (lit "12") ≤ MAX_SAFE_INTEGER ∧
          parseInt (lit "7") ≤ MAX_SAFE_INTEGER) as H4
    by (repeat split; vm_compute; discriminate).
  split; [exact H1|]. split; [exact H2|]. split; [exact H3|]. split; [exact H4|].
  rewrite (proj1 (parseMouseEvent_sgr (lit "0") (lit "12") (lit "7") [] H1 H2 H3 H4)).
  reflexivity.
Defined.

(** X17. Only presses reach the click tracking: an input that does not
    start with [ESC [], and an SGR release report, emit nothing and
    leave the tracked click untouched. *)
Theorem handleMouseInput_ignores (now : Z) (mh : MouseHandler.t) :
  (∀ input,
     match input with
     | e :: b :: _ => ¬ (e = 27%N ∧ b = 91%N)
     | _ => True
     end →
     MouseParser.handleMouseInput now input mh = (None, mh)) ∧
  (∀ buttonCode x y tail,
     buttonCode ≠ [] ∧ Forall (λ c, is_digit c = true) buttonCode →
     x ≠ [] ∧ Forall (λ c, is_digit c = true) x →
     y ≠ [] ∧ Forall (λ c, is_digit c = true) y →
     MouseParser.handleMouseInput now (MouseParser.sgr buttonCode x y 109 ++ tail) mh
       = (None, mh)).
Proof.
  split.
  - intros input Hother. unfold MouseParser.handleMouseInput.
    destruct input as [|e [|b rest]]; [done..|].
    by rewrite bool_decide_eq_false_2.
  - intros buttonCode x y tail Hb Hx Hy.
    pose proof (proj2 (parseMouseEvent_sgr_report buttonCode x y tail Hb Hx Hy)) as Hnone.
    unfold MouseParser.handleMouseInput. rewrite Hnone.
    unfold MouseParser.sgr. simpl. done.
Qed.

Lemma handleMouseInput_ignores_witness :
  (lit "0" ≠ [] ∧ Forall (λ c, is_digit c = true) (lit "0")) ∧
  MouseParser.handleMouseInput 1700000000000
    (MouseParser.sgr (lit "0") (lit "0") (lit "0") 109 ++ []) MouseHandler.new
    = (None, MouseHandler.new).
Proof.
  assert (lit "0" ≠ [] ∧ Forall (λ c, is_digit c = true) (lit "0")) as H1
    by (split; [discriminate|repeat constructor]).
  split; [exact H1|].
  exact (proj2 (handleMouseInput_ignores 1700000000000 MouseHandler.new)
           (lit "0") (lit "0") (lit "0") [] H1 H1 H1).
Defined.

(** X18. Wheel and motion reports count as presses, so dragging opens
    things: the decoder keeps only the low two bits of the button code,
    and a second SGR report whose code is a multiple of 4 (32, a motion
    with the left button held, or 64, the wheel), less than 300 ms
    after a left press that was emitted as a click and at most one cell
    away, is emitted as a double-click. The numbers in the two reports
    are at most [Number.MAX_SAFE_INTEGER], so that [parseInt] returns
    them exactly. *)
Theorem drag_is_double_click
    (t0 t1 : Z) (b0 x0 y0 b1 x1 y1 : JsString) (mh : MouseHandler.t) :
  b0 ≠ [] ∧ Forall (λ c, is_digit c = true) b0 →
  x0 ≠ [] ∧ Forall (λ c, is_digit c = true) x0 →
  y0 ≠ [] ∧ Forall (λ c, is_digit c = true) y0 →
  b1 ≠ [] ∧ Forall (λ c, is_digit c = true) b1 →
  x1 ≠ [] ∧ Forall (λ c, is_digit c = true) x1 →
  y1 ≠ [] ∧ Forall (λ c, is_digit c = true) y1 →
  Forall (λ digits, parseInt digits ≤ MAX_SAFE_INTEGER) [b0; x0; y0; b1; x1; y1] →
  parseInt b0 `mod` 4 = 0 → parseInt b1 `mod` 4 = 0 →
  MouseHandler.isDoubleClick t0 (MouseHandler.press (parseInt x0 - 1) (parseInt y0 - 1) BLeft) mh
    = false →
  t1 - t0 < 300 →
  Z.abs (parseInt x1 - parseInt x0) ≤ 1 → Z.abs (parseInt y1 - parseInt y0) ≤ 1 →
  let '(out0, mh0) :=
    MouseParser.handleMouseInput t0 (MouseParser.sgr b0 x0 y0 77 ++ []) mh in
  let '(out1, _) :=
    MouseParser.handleMouseInput t1 (MouseParser.sgr b1 x1 y1 77 ++ []) mh0 in
  out0 = Some (MouseHandler.as_click
                 (MouseHandler.press (parseInt x0 - 1) (parseInt y0 - 1) BLeft)) ∧
  out1 = Some (MouseHandler.as_double_click
                 (MouseHandler.press (parseInt x1 - 1) (parseInt y1 - 1) BLeft)).
Proof.
  intros Hb0 Hx0 Hy0 Hb1 Hx1 Hy1 _ Hm0 Hm1 Hfirst Htime Hdx Hdy.
  unfold MouseParser.handleMouseInput.
  rewrite (proj1 (parseMouseEvent_sgr_report b0 x0 y0 [] Hb0 Hx0 Hy0)).
  rewrite (proj1 (parseMouseEvent_sgr_report b1 x1 y1 [] Hb1 Hx1 Hy1)).
  rewrite !(decide_False (P := _ `mod` 4 = 3)) by lia.
  rewrite !decide_True by done.
  unfold MouseParser.sgr. simpl.
  set (e0 := {| ev_x := parseInt x0 - 1 |}). set (e1 := {| ev_x := parseInt x1 - 1 |}).
  destruct (emitMouseEvent_single_left t0 e0 mh Hfirst eq_refl) as [Hout0 Htrack0].
  destruct (MouseHandler.emitMouseEvent t0 e0 mh) as [out0 mh0]. simpl in Hout0, Htrack0.
  injection Htrack0 as Ht Hx Hy.
  assert (MouseHandler.isDoubleClick t1 e1 mh0 = true) as Hd.
  { apply isDoubleClick_true. rewrite Ht, Hx, Hy. simpl.
    split; [lia|]. split; [|split; [|done]].
    - by replace (parseInt x1 - 1 - (parseInt x0 - 1)) with (parseInt x1 - parseInt x0) by lia.
    - by replace (parseInt y1 - 1 - (parseInt y0 - 1)) with (parseInt y1 - parseInt y0) by lia. }
  destruct (emitMouseEvent_double t1 e1 mh0 Hd) as [Hout1 _].
  destruct (MouseHandler.emitMouseEvent t1 e1 mh0) as [out1 mh1]. simpl in Hout1.
  by rewrite Hout0, Hout1.
Qed.

Lemma drag_is_double_click_witness :
  let digits := λ s, lit s ≠ [] ∧ Forall (λ c, is_digit c = true) (lit s) in
  (digits "0" ∧ digits "6" ∧ digits "32" ∧ digits "7" ∧
   Forall (λ digits, parseInt digits ≤ MAX_SAFE_INTEGER)
     [lit "0"; lit "6"; lit "6"; lit "32"; lit "7"; lit "6"] ∧
   parseInt (lit "0") `mod` 4 = 0 ∧ parseInt (lit "32") `mod` 4 = 0 ∧
   MouseHandler.isDoubleClick 1700000000000 (MouseHandler.press 5 5 BLeft) MouseHandler.new
     = false) ∧
  (MouseParser.handleMouseInput 1700000000050
     (MouseParser.sgr (lit "32") (lit "7") (lit "6") 77 ++ [])
     (MouseParser.handleMouseInput 1700000000000
        (MouseParser.sgr (lit "0") (lit "6") (lit "6") 77 ++ []) MouseHandler.new).2).1
  = Some (MouseHandler.as_double_click (MouseHandler.press 6 5 BLeft)).
Proof.
  intros digits.
  assert (digits "0") as H0 by (split; [discriminate|repeat constructor]).
  assert (digits "6") as H6 by (split; [discriminate|repeat constructor]).
  assert (digits "32") as H32 by (split; [discriminate|repeat constructor]).
  assert (digits "7") as H7 by (split; [discriminate|repeat constructor]).
  assert (Forall (λ digits, parseInt digits ≤ MAX_SAFE_INTEGER)
            [lit "0"; lit "6"; lit "6"; lit "32"; lit "7"; lit "6"]) as Hsafe
    by (repeat constructor; vm_compute; discriminate).
  assert (parseInt (lit "0") `mod` 4 = 0) as Hm0 by reflexivity.
  assert (parseInt (lit "32") `mod` 4 = 0) as Hm1 by reflexivity.
  assert (MouseHandler.isDoubleClick 1700000000000 (MouseHandler.press 5 5 BLeft)
            MouseHandler.new = false) as Hfirst by reflexivity.
  split; [done|].
  pose proof (drag_is_double_click 1700000000000 1700000000050
                (lit "0") (lit "6") (lit "6") (lit "32") (lit "7") (lit "6")
                MouseHandler.new H0 H6 H6 H32 H7 H6 Hsafe Hm0 Hm1 Hfirst
                ltac:(lia) ltac:(vm_compute; discriminate) ltac:(vm_compute; discriminate))
    as Hdrag.
  destruct (MouseParser.handleMouseInput 1700000000000 _ MouseHandler.new) as [out0 mh0].
  cbn [snd]. destruct (MouseParser.handleMouseInput 1700000000050 _ mh0) as [out1 mh1].
  cbn [fst]. exact (proj2 Hdrag).
Defined.

(** ** Decoding keys *)

Lemma substring_from_2 (a b : N) (rest : JsString) :
  substring_from (a :: b :: rest) 2 = rest.
Proof.
  unfold substring_from, substring. set (n := str_length (a :: b :: rest)).
  assert (n = 2 + str_length rest) as Hn by (unfold n, str_length; simpl; lia).
  pose proof (str_length_nonneg rest) as Hrest.
  replace (Z.to_nat (Z.max 0 (Z.min 2 n))) with 2%nat by lia.
  replace (Z.to_nat (Z.max 0 (Z.min n n))) with (S (S (length rest)))
    by (unfold str_length in *; lia).
  rewrite Nat.min_l, Nat.max_r by lia. simpl. apply take_ge. lia.
Qed.

Lemma matchesDigitsTilde_app (ds : JsString) :
  ds ≠ [] → Forall (λ c, is_digit c = true) ds →
  KeyboardHandler.matchesDigitsTilde (ds ++ lit "~") = true.
Proof.
  intros Hne Hds. unfold KeyboardHandler.matchesDigitsTilde.
  change (lit "~") with (126%N :: []).
  by rewrite (digits_then_app _ ds 126 []).
Qed.

(** X19. Numbered CSI keys: for every non-empty run of digits [n],
    [ESC [ n ~] decodes to insert, delete, pageup or pagedown when [n]
    is 2, 3, 5 or 6, and to the key named [f] followed by the digits
    otherwise, with no modifier flag; the report of the F5 key,
    [ESC [ 15 ~], is therefore the key [f15]. *)
Theorem parseKey_csi_number (ds : JsString) :
  ds ≠ [] → Forall (λ c, is_digit c = true) ds →
  KeyboardHandler.parseKey (KeyboardHandler.csi (ds ++ lit "~"))
    = KeyboardHandler.plain
        (if decide (ds = lit "2") then lit "insert"
         else if decide (ds = lit "3") then lit "delete"
         else if decide (ds = lit "5") then lit "pageup"
         else if decide (ds = lit "6") then lit "pagedown"
         else lit "f" ++ ds).
Proof.
  intros Hne Hds. unfold KeyboardHandler.csi, KeyboardHandler.parseKey. simpl.
  assert (str_length (27%N :: 91%N :: ds ++ lit "~") = 3 + str_length ds) as Hlen.
  { unfold str_length. simpl. rewrite length_app. simpl. lia. }
  pose proof (str_length_nonneg ds).
  assert (0 < str_length ds) by (destruct ds; [done|]; unfold str_length; simpl; lia).
  rewrite decide_False by lia. f_equal.
  unfold KeyboardHandler.parseEscapeSequence. rewrite decide_False by lia.
  rewrite substring_from_2, matchesDigitsTilde_app by done.
  assert (∀ c : N, ds ++ lit "~" ≠ [c]) as Hsingle.
  { intros c Heq. apply (f_equal length) in Heq. rewrite length_app in Heq.
    destruct ds; [done|]. simpl in Heq. lia. }
  assert (∀ c : N, ds ++ lit "~" = [c; 126%N] ↔ ds = [c]) as Htwo.
  { intros c. split; [|by intros ->].
    change (lit "~") with [126%N]. change [c; 126%N] with ([c] ++ [126%N]).
    by intros ?%(inj (λ l, l ++ [126%N])). }
  rewrite !(decide_False (P := ds ++ lit "~" = lit _)) by apply Hsingle.
  assert (substring (ds ++ lit "~") 0 (str_length (ds ++ lit "~") - 1) = ds) as ->.
  { rewrite substring_0, str_length_app. change (str_length (lit "~")) with 1.
    replace (Z.to_nat (str_length ds + 1 - 1)) with (length ds) by (unfold str_length; lia).
    by rewrite take_app_length. }
  change (lit "2~") with [50%N; 126%N]. change (lit "3~") with [51%N; 126%N].
  change (lit "5~") with [53%N; 126%N]. change (lit "6~") with [54%N; 126%N].
  change (lit "2") with [50%N]. change (lit "3") with [51%N].
  change (lit "5") with [53%N]. change (lit "6") with [54%N].
  destruct (decide (ds = [50%N])) as [->|?]; [by rewrite decide_True|].
  rewrite (decide_False (P := ds ++ lit "~" = [50%N; 126%N])) by (by rewrite Htwo).
  destruct (decide (ds = [51%N])) as [->|?]; [by rewrite decide_True|].
  rewrite (decide_False (P := ds ++ lit "~" = [51%N; 126%N])) by (by rewrite Htwo).
  destruct (decide (ds = [53%N])) as [->|?]; [by rewrite decide_True|].
  rewrite (decide_False (P := ds ++ lit "~" = [53%N; 126%N])) by (by rewrite Htwo).
  destruct (decide (ds = [54%N])) as [->|?]; [by rewrite decide_True|].
  rewrite (decide_False (P := ds ++ lit "~" = [54%N; 126%N])) by (by rewrite Htwo).
  done.
Qed.

Lemma parseKey_csi_number_witness :
  (lit "15" ≠ [] ∧ Forall (λ c, is_digit c = true) (lit "15")) ∧
  KeyboardHandler.parseKey (KeyboardHandler.csi (lit "15" ++ lit "~"))
    = KeyboardHandler.plain (lit "f15").
Proof.
  assert (lit "15" ≠ []) as H1 by discriminate.
  assert (Forall (λ c, is_digit c = true) (lit "15")) as H2 by repeat constructor.
  split; [done|].
  rewrite (parseKey_csi_number (lit "15") H1 H2). reflexivity.
Defined.

Lemma function_key_not_f5 (command : JsString) :
  KeyboardHandler.matchesDigitsTilde command = true → command ≠ lit "5~" →
  lit "f" ++ substring command 0 (str_length command - 1) ≠ lit "f5".
Proof.
  intros Hmatch Hne Heq. change (lit "f5") with (lit "f" ++ [53%N]) in Heq.
  apply (inj (app (lit "f"))) in Heq. rewrite substring_0 in Heq.
  assert (length command = 2%nat) as Hlen.
  { apply (f_equal length) in Heq. rewrite length_take in Heq. simpl in Heq.
    unfold str_length in Heq. lia. }
  destruct command as [|c0 [|c1 [|? ?]]]; try done.
  unfold str_length in Heq. simpl in Heq. injection Heq as ->.
  unfold KeyboardHandler.matchesDigitsTilde, digits_then in Hmatch. simpl in Hmatch.
  destruct (is_digit c1); [done|]. simpl in Hmatch.
  case_bool_decide as Hc; [|done]. subst c1. by apply Hne.
Qed.

(** X20. No escape sequence is the key [f5]: whatever follows the ESC
    code unit, the decoded key is not named [f5], so no chunk that
    starts with ESC reaches the [refresh] binding of
    [registerCommonShortcuts]. *)
Theorem parseKey_escape_never_f5 (rest : JsString) :
  KeyboardHandler.key (KeyboardHandler.parseKey (27%N :: rest)) ≠ lit "f5" ∧
  KeyboardHandler.shortcut (KeyboardHandler.parseKey (27%N :: rest)) ≠ Some ("refresh", "").
Proof.
  assert (KeyboardHandler.key (KeyboardHandler.parseKey (27%N :: rest)) ≠ lit "f5") as Hkey.
  { unfold KeyboardHandler.parseKey.
    rewrite decide_False by done. rewrite decide_True by done.
    case_decide; [intros Heq; vm_compute in Heq; discriminate|].
    unfold KeyboardHandler.plain, KeyboardHandler.key, KeyboardHandler.parseEscapeSequence.
    case_decide; [intros Heq; vm_compute in Heq; discriminate|].
    destruct rest as [|b command].
    { intros Heq. vm_compute in Heq. discriminate. }
    destruct (decide (b = 91%N)) as [->|Hb].
    - rewrite substring_from_2.
      repeat (case_decide; [intros Heq; vm_compute in Heq; discriminate|]).
      destruct (KeyboardHandler.matchesDigitsTilde command) eqn:Hmatch.
      + by apply function_key_not_f5.
      + intros Heq. apply (f_equal (take 1)) in Heq. vm_compute in Heq. discriminate.
    - assert (∀ k : JsString,
                match 27%N :: b :: command with
                | 27%N :: 91%N :: _ => k
                | _ => lit "escape:" ++ substring_from (27%N :: b :: command) 1
                end = lit "escape:" ++ substring_from (27%N :: b :: command) 1) as Hother.
      { intros k. destruct b as [|p]; [done|].
        do 7 (destruct p as [p|p|]; try done). }
      rewrite Hother. intros Heq. apply (f_equal (take 1)) in Heq.
      vm_compute in Heq. discriminate. }
  split; [exact Hkey|].
  unfold KeyboardHandler.shortcut.
  repeat (case_decide; [try destruct (KeyboardHandler.ctrl _); discriminate|]).
  case_decide; [done|]. case_decide; discriminate.
Qed.

(** ** The controller, beyond the clipboard *)

Create HintDb shape.

Section ControllerStateFacts.
Context {PM : PathModule} {CO : Collator}.
Import FileManager.

Implicit Types (fm : t) (env : Env) (s : AppState).

(** A press is mapped to [-1] or to an item of the list. *)
Lemma itemIndexAt_range s (event : MouseEventObject) :
  itemIndexAt s event = -1 ∨ 0 ≤ itemIndexAt s event < js_length (items (viewport s)).
Proof.
  unfold itemIndexAt, LayoutManager.getItemIndexFromPosition.
  destruct (calculateLayout_positive (terminalSize (viewport s))) as [Hipr _].
  set (L := LayoutManager.calculateLayout (terminalSize (viewport s))) in *.
  assert (LayoutManager.startY L = 4) as -> by reflexivity.
  assert (LayoutManager.itemWidth L = 13) as -> by reflexivity.
  assert (LayoutManager.itemHeight L = 5) as -> by reflexivity.
  case_decide as Hout; [by left|].
  case_decide as Hcol; [by left|].
  case_decide as Hidx; [|by left].
  right. split; [|done].
  assert (0 ≤ (ev_x event - 2) / 13) by (apply Z.div_pos; lia).
  assert (0 ≤ (ev_y event - 4) / 5) by (apply Z.div_pos; lia).
  nia.
Qed.

(** The state a load leaves behind. *)
Lemma getState_loadCurrentDirectory env fm :
  let s := getState fm in
  let L := LayoutManager.calculateLayout (terminalSize (viewport s)) in
  getState (loadCurrentDirectory env fm) =
    match FileScanner.scanDirectory env (currentPath (viewport s)) with
    | Some its =>
        {| viewport := {| currentPath := currentPath (viewport s);
                          items := its;
                          terminalSize := terminalSize (viewport s);
                          itemsPerRow := LayoutManager.itemsPerRow L;
                          totalRows := LayoutManager.totalRows L |};
           selection := if decide (selectedIndex (selection s) >= js_length its)
                        then {| selectedIndex := -1; selectedItem := None |}
                        else selection s;
           contextMenu := contextMenu s;
           clipboard := clipboard s;
           clipboardOperation := clipboardOperation s |}
    | None =>
        {| viewport := {| currentPath := currentPath (viewport s);
                          items := [];
                          terminalSize := terminalSize (viewport s);
                          itemsPerRow := itemsPerRow (viewport s);
                          totalRows := totalRows (viewport s) |};
           selection := selection s;
           contextMenu := contextMenu s;
           clipboard := clipboard s;
           clipboardOperation := clipboardOperation s |}
    end.
Proof.
  intros s L. unfold loadCurrentDirectory. fold s.
  destruct (FileScanner.scanDirectory env _) as [its|]; [|reflexivity].
  case_decide; reflexivity.
Qed.

Lemma js_length_nonneg {A : Type} (l : list A) : 0 ≤ js_length l.
Proof. unfold js_length. lia. Qed.

Lemma js_length_nil_iff {A : Type} (l : list A) : js_length l = 0 ↔ l = [].
Proof. unfold js_length. destruct l; simpl; [done|]. split; [lia|done]. Qed.

Lemma shape_same s s' :
  selection s' = selection s →
  itemsPerRow (viewport s') = itemsPerRow (viewport s) →
  selection_shape s → selection_shape s'.
Proof. unfold selection_shape. intros -> ->. done. Qed.

Lemma shape_store_same (f : AppState → AppState) fm :
  (∀ s, selection (f s) = selection s ∧
        itemsPerRow (viewport (f s)) = itemsPerRow (viewport s)) →
  selection_shape (getState fm) →
  selection_shape (getState (store (StateManager.updateState f) fm)).
Proof.
  intros Hf. destruct (Hf (getState fm)) as (? & ?).
  by apply shape_same.
Qed.

Lemma shape_setSelection (index : Z) fm :
  selection_shape (getState fm) → -1 ≤ index →
  selection_shape
    (getState (store (StateManager.setSelection index
                        (js_index (items (viewport (getState fm))) index)) fm)).
Proof.
  intros (Hipr & _) Hindex. unfold selection_shape, getState, StateManager.getState in *. simpl.
  split; [done|]. split; [done|]. intros ->. apply js_index_None. lia.
Qed.

Lemma shape_clearSelection fm :
  selection_shape (getState fm) →
  selection_shape (getState (store StateManager.clearSelection fm)).
Proof. intros (Hipr & _). unfold selection_shape. simpl. split; [done|]. split; [lia|done]. Qed.

Lemma newIndex_floor (d : Direction) (index len perRow : Z) :
  0 < len → -1 ≤ index → 0 ≤ perRow → -1 ≤ StateManager.newIndex d index len perRow.
Proof. intros Hlen Hindex Hper. destruct d; simpl; lia. Qed.

Lemma shape_moveSelection (d : Direction) fm :
  selection_shape (getState fm) →
  selection_shape (getState (store (StateManager.moveSelection d) fm)).
Proof.
  intros Hshape. pose proof Hshape as (Hipr & Hlo & _).
  unfold store, StateManager.moveSelection.
  case_decide as Hlen; [by destruct fm|].
  apply (shape_setSelection _ fm Hshape).
  unfold getState, StateManager.getState in *.
  pose proof (js_length_nonneg (items (viewport (StateManager.state (stateManager fm))))).
  apply newIndex_floor; [lia|done|done].
Qed.

Lemma shape_loadCurrentDirectory env fm :
  selection_shape (getState fm) → selection_shape (getState (loadCurrentDirectory env fm)).
Proof.
  intros (Hipr & Hlo & Hnone). rewrite getState_loadCurrentDirectory.
  destruct (FileScanner.scanDirectory env _) as [its|]; unfold selection_shape; simpl.
  - split; [unfold LayoutManager.MIN_ITEMS_PER_ROW; lia|].
    case_decide; simpl; [|done]. split; [lia|done].
  - done.
Qed.

Lemma shape_perform env (op : FsOp) fm :
  selection_shape (getState fm) → selection_shape (getState (perform env op fm).2).
Proof. done. Qed.

Lemma shape_setCurrentPath p fm :
  selection_shape (getState fm) →
  selection_shape (getState (store (StateManager.setCurrentPath p) fm)).
Proof. by apply shape_store_same. Qed.

Lemma shape_setTerminalSize sz fm :
  selection_shape (getState fm) →
  selection_shape (getState (store (StateManager.setTerminalSize sz) fm)).
Proof. by apply shape_store_same. Qed.

Lemma shape_showContextMenu pos target fm :
  selection_shape (getState fm) →
  selection_shape (getState (store (StateManager.showContextMenu pos target) fm)).
Proof. by apply shape_store_same. Qed.

Lemma shape_hideContextMenu fm :
  selection_shape (getState fm) →
  selection_shape (getState (store StateManager.hideContextMenu fm)).
Proof. by apply shape_store_same. Qed.

Lemma shape_setClipboard item operation fm :
  selection_shape (getState fm) →
  selection_shape (getState (store (StateManager.setClipboard item operation) fm)).
Proof. by apply shape_store_same. Qed.

Lemma shape_clearClipboard fm :
  selection_shape (getState fm) →
  selection_shape (getState (store StateManager.clearClipboard fm)).
Proof. by apply shape_store_same. Qed.

Hint Resolve shape_moveSelection shape_loadCurrentDirectory shape_perform
  shape_setCurrentPath shape_setTerminalSize shape_showContextMenu shape_hideContextMenu
  shape_setClipboard shape_clearClipboard shape_clearSelection : shape.

Lemma shape_select_at (event : MouseEventObject) fm :
  selection_shape (getState fm) →
  selection_shape
    (getState (store (StateManager.setSelection (itemIndexAt (getState fm) event)
                        (js_index (items (viewport (getState fm)))
                           (itemIndexAt (getState fm) event))) fm)).
Proof.
  intros Hshape. apply shape_setSelection; [done|].
  destruct (itemIndexAt_range (getState fm) event); lia.
Qed.
Hint Resolve shape_select_at : shape.

Lemma shape_handleFileOpen env fm :
  selection_shape (getState fm) → selection_shape (getState (handleFileOpen env fm)).
Proof.
  intros Hshape. unfold handleFileOpen.
  destruct (selectedItem _); [|done]. case_decide; auto with shape.
Qed.
Hint Resolve shape_handleFileOpen : shape.

Lemma shape_handleFilePaste env fm :
  selection_shape (getState fm) → selection_shape (getState (handleFilePaste env fm)).
Proof.
  intros Hshape. unfold handleFilePaste.
  destruct (clipboard _); [|done]. destruct (clipboardOperation _) as [[]|]; [| |done].
  - destruct (pasteDestination _ _ _); [|done]. cbn [perform].
    destruct (succeeds _ _); auto with shape.
  - destruct (pasteDestination _ _ _); [|done]. cbn [perform].
    destruct (succeeds _ _); auto with shape.
Qed.

Lemma shape_handleFileDelete env fm :
  selection_shape (getState fm) → selection_shape (getState (handleFileDelete env fm)).
Proof.
  intros Hshape. unfold handleFileDelete.
  destruct (selectedItem _); [|done]. cbn [perform].
  destruct (succeeds _ _); auto with shape.
Qed.

Lemma shape_handleFileCopy fm :
  selection_shape (getState fm) → selection_shape (getState (handleFileCopy fm)).
Proof. intros Hshape. unfold handleFileCopy. destruct (selectedItem _); auto with shape. Qed.

Lemma shape_handleFileCut fm :
  selection_shape (getState fm) → selection_shape (getState (handleFileCut fm)).
Proof. intros Hshape. unfold handleFileCut. destruct (selectedItem _); auto with shape. Qed.

Lemma shape_handleOpenWithVSCode env fm :
  selection_shape (getState fm) → selection_shape (getState (handleOpenWithVSCode env fm)).
Proof.
  intros Hshape. unfold handleOpenWithVSCode. destruct (selectedItem _); auto with shape.
Qed.

Hint Resolve shape_handleFilePaste shape_handleFileDelete shape_handleFileCopy
  shape_handleFileCut shape_handleOpenWithVSCode : shape.

Lemma shape_handle env (e : Event) fm :
  selection_shape (getState fm) → selection_shape (getState (handle env e fm)).
Proof.
  intros Hshape. unfold handle. destruct (wired _); [|done].
  destruct e.
  - unfold handleNavigation. repeat case_decide; auto with shape.
  - unfold handleMouseClick. destruct (visible _); [auto with shape|].
    case_decide; auto with shape.
  - unfold handleMouseDoubleClick. case_decide; auto with shape.
  - unfold handleMouseRightClick. case_decide; auto with shape.
  - auto with shape.
  - auto with shape.
  - auto with shape.
  - auto with shape.
  - auto with shape.
  - auto with shape.
  - unfold handleContextMenuAction. repeat case_decide; auto with shape.
  - auto with shape.
Qed.

Lemma shape_step env (i : Input) fm :
  selection_shape (getState fm) → selection_shape (getState (step env i fm)).
Proof.
  intros Hshape. destruct i; simpl.
  - unfold start. destruct (isRunning _); [done|].
    unfold getState. simpl.
    match goal with
    | |- selection_shape (StateManager.state (stateManager (loadCurrentDirectory env ?fm1))) =>
        by apply (shape_loadCurrentDirectory env fm1)
    end.
  - unfold stop. by destruct (negb _).
  - unfold tick. by destruct (renderTimer _).
  - unfold resize. induction (resizeListeners (ctl fm)) as [|n IH]; simpl; auto with shape.
  - by apply shape_handle.
  - auto with shape.
Qed.

Lemma shape_run (inputs : list (Env * Input)) fm :
  selection_shape (getState fm) → selection_shape (getState (run inputs fm)).
Proof.
  revert fm. induction inputs as [|[env i] inputs IH]; intros fm Hshape; simpl; [done|].
  apply IH. by apply shape_step.
Qed.
End ControllerStateFacts.

(** The same for any sequence of store calls of the forms the
    controller makes. *)
Lemma shape_call {W : Type} (a : StateManager.Action) (sm : StateManager.t W) (w : W) :
  selection_shape (StateManager.state sm) → issued (StateManager.state sm) a →
  selection_shape (StateManager.state (StateManager.call a sm w).1).
Proof.
  intros Hshape Hissued. pose proof Hshape as (Hipr & Hlo & Hnone).
  destruct a; cbn [StateManager.call issued] in *; try done.
  - destruct Hissued as (terminalSize & -> & _).
    unfold selection_shape. simpl. unfold LayoutManager.MIN_ITEMS_PER_ROW.
    split; [lia|done].
  - destruct Hissued as (event & _ & Hindex & _).
    unfold selection_shape. simpl. split; [done|]. split; [lia|]. intros ->. lia.
  - unfold StateManager.moveSelection. case_decide as Hlen; [done|].
    pose proof (js_length_nonneg (items (viewport (StateManager.state sm)))).
    unfold selection_shape. simpl. split; [done|].
    pose proof (newIndex_floor direction (selectedIndex (selection (StateManager.state sm)))
                  (js_length (items (viewport (StateManager.state sm))))
                  (itemsPerRow (viewport (StateManager.state sm)))
                  ltac:(lia) Hlo Hipr) as Hnew.
    split; [exact Hnew|]. intros Heq. rewrite Heq. apply js_index_None. lia.
Qed.

Lemma shape_calls {W : Type} (acts : list StateManager.Action)
    (sm : StateManager.t W) (w : W) :
  selection_shape (StateManager.state sm) → all_issued acts sm w →
  selection_shape (StateManager.state (StateManager.calls acts sm w).1).
Proof.
  revert sm w. induction acts as [|a acts IH]; intros sm w Hshape Hall; simpl; [done|].
  destruct Hall as [Hissued Hrest].
  pose proof (shape_call a sm w Hshape Hissued) as Hshape'.
  destruct (StateManager.call a sm w) as [sm' w']. by apply IH.
Qed.

(** X21. What every handler keeps of the selection: the stored
    [itemsPerRow] is not negative, [selectedIndex] is at least [-1],
    and when it is [-1] no item is selected. This holds in every state
    the controller reaches from its initial state when each handler
    runs to its end before the next input, whatever the file system
    answers; and it holds after any sequence of store calls of the
    forms the controller makes, each with arguments computed from the
    state at the time of the call, so also when the steps of pending
    handlers are interleaved or a listener throws after a call has
    installed its state. *)
Theorem controller_selection_shape
    {PM : PathModule} {CO : Collator} (cwd : string) (termSize : Size) :
  (∀ inputs : list (Env * FileManager.Input),
     let s := FileManager.getState (FileManager.run inputs (FileManager.new cwd termSize)) in
     0 ≤ itemsPerRow (viewport s) ∧
     -1 ≤ selectedIndex (selection s) ∧
     (selectedIndex (selection s) = -1 → selectedItem (selection s) = None)) ∧
  (∀ (W : Type) (acts : list StateManager.Action) (w : W),
     all_issued acts (StateManager.new cwd termSize) w →
     let s := StateManager.state (StateManager.calls acts (StateManager.new cwd termSize) w).1 in
     0 ≤ itemsPerRow (viewport s) ∧
     -1 ≤ selectedIndex (selection s) ∧
     (selectedIndex (selection s) = -1 → selectedItem (selection s) = None)).
Proof.
  split.
  - intros inputs. apply shape_run. unfold selection_shape. simpl. done.
  - intros W acts w Hall. apply (shape_calls acts _ w); [|exact Hall].
    unfold selection_shape. simpl. done.
Qed.

Lemma controller_selection_shape_witness :
  let acts := [StateManager.SetFileItems [item_a; item_b];
               StateManager.SetSelection 1 (Some item_b);
               StateManager.SetFileItems [item_a]] in
  let s := StateManager.state (StateManager.calls acts (StateManager.new "/home/u" size80) ()).1 in
  all_issued acts (StateManager.new "/home/u" size80) () ∧
  -1 ≤ selectedIndex (selection s) ∧
  js_length (items (viewport s)) ≤ selectedIndex (selection s).
Proof.
  intros acts s.
  assert (all_issued acts (StateManager.new "/home/u" size80) ()) as H.
  { cbn [all_issued acts StateManager.call issued]. split; [done|]. split.
    - exists (MouseHandler.press 16 5 BLeft). vm_compute. split; [done|]. split; [|done].
      discriminate.
    - done. }
  split; [exact H|].
  destruct (proj2 (controller_selection_shape (PM := posix_path) (CO := readdir_order)
                     "/home/u" size80) unit acts () H) as (_ & Hlo & _).
  split; [exact Hlo|]. vm_compute. discriminate.
Defined.

(** X22. A left click with no menu visible leaves a consistent
    selection, whatever the state before: afterwards nothing is
    selected, or the selected index is in the list and the selected
    item is the item at that index. *)
Theorem handleMouseClick_selection_inv
    {PM : PathModule} {CO : Collator} (event : MouseEventObject) (fm : FileManager.t) :
  visible (contextMenu (FileManager.getState fm)) = false →
  StateManager.selection_inv (FileManager.getState (FileManager.handleMouseClick event fm)).
Proof.
  intros Hhidden. unfold FileManager.handleMouseClick. rewrite Hhidden.
  destruct (itemIndexAt_range (FileManager.getState fm) event) as [Hnone|Hin].
  - rewrite Hnone. rewrite decide_False by lia.
    apply (selection_inv_set (-1) None (FileManager.stateManager fm) (FileManager.ctl fm)).
    by left.
  - rewrite decide_True by lia.
    apply (selection_inv_set (FileManager.itemIndexAt (FileManager.getState fm) event) _
             (FileManager.stateManager fm) (FileManager.ctl fm)).
    right. split; [exact Hin|reflexivity].
Qed.

Lemma handleMouseClick_selection_inv_witness :
  visible (contextMenu (FileManager.getState selected_a)) = false ∧
  StateManager.selection_inv
    (FileManager.getState
       (FileManager.handleMouseClick (MouseHandler.press 16 5 BLeft) selected_a)).
Proof.
  assert (visible (contextMenu (FileManager.getState selected_a)) = false) as H by reflexivity.
  split; [exact H|].
  exact (handleMouseClick_selection_inv (PM := posix_path) (CO := readdir_order)
           (MouseHandler.press 16 5 BLeft) selected_a H).
Defined.

(** X23. A load that fails empties the list and keeps the selection:
    when [readdir] fails for the current directory and an item was
    selected, the state afterwards has no items and the same selected
    index and item, so the index points outside the list. *)
Theorem failed_load_keeps_selection
    {PM : PathModule} {CO : Collator} (env : Env) (fm : FileManager.t) :
  let s := FileManager.getState fm in
  let s' := FileManager.getState (FileManager.loadCurrentDirectory env fm) in
  readdir env (currentPath (viewport s)) = None →
  0 ≤ selectedIndex (selection s) →
  items (viewport s') = [] ∧ selection s' = selection s ∧
  js_index (items (viewport s')) (selectedIndex (selection s')) = None ∧
  ¬ StateManager.selection_inv s'.
Proof.
  intros s s' Hfail Hsel. subst s'. rewrite getState_loadCurrentDirectory. fold s.
  unfold FileScanner.scanDirectory. rewrite Hfail. simpl.
  split; [done|]. split; [done|]. split.
  - unfold js_index. by case_decide.
  - intros [_ Hin]. simpl in Hin. unfold js_length in Hin. simpl in Hin.
    destruct Hin; lia.
Qed.

Lemma failed_load_keeps_selection_witness :
  (readdir report_env (currentPath (viewport (FileManager.getState selected_a))) = None ∧
   0 ≤ selectedIndex (selection (FileManager.getState selected_a))) ∧
  selection (FileManager.getState
               (FileManager.loadCurrentDirectory (PM := posix_path) (CO := readdir_order)
                  report_env selected_a))
    = {| selectedIndex := 0; selectedItem := Some item_a |}.
Proof.
  assert (readdir report_env (currentPath (viewport (FileManager.getState selected_a))) = None)
    as H1 by reflexivity.
  assert (0 ≤ selectedIndex (selection (FileManager.getState selected_a))) as H2
    by (vm_compute; discriminate).
  split; [done|].
  destruct (failed_load_keeps_selection (PM := posix_path) (CO := readdir_order)
              report_env selected_a H1 H2) as (_ & Hsel & _).
  rewrite Hsel. reflexivity.
Defined.

(** ** The controller's own fields *)

Section ControllerFieldFacts.
Context {PM : PathModule} {CO : Collator}.
Import FileManager.

Implicit Types (fm : t) (env : Env) (s : AppState) (c : Ctl).

Lemma render_fields s c :
  isRunning (render s c) = isRunning c ∧ renderTimer (render s c) = renderTimer c ∧
  wired (render s c) = wired c ∧ resizeListeners (render s c) = resizeListeners c ∧
  performed (render s c) = performed c.
Proof. unfold render. by destruct (isRunning c) eqn:Hrun. Qed.

Lemma notify_fields s (ls : list (StateManager.Listener Ctl)) c :
  Forall (λ listener, listener = render) ls →
  let c' := foldl (λ w' listener, listener s w') c ls in
  isRunning c' = isRunning c ∧ renderTimer c' = renderTimer c ∧
  wired c' = wired c ∧ resizeListeners c' = resizeListeners c ∧
  performed c' = performed c.
Proof.
  intros Hls. revert c. induction Hls as [|l ls -> _ IH]; intros c; simpl; [done|].
  destruct (IH (render s c)) as (-> & -> & -> & -> & ->). apply render_fields.
Qed.

Lemma quiet_refl fm : quiet fm fm.
Proof. done. Qed.

Lemma quiet_trans fm0 fm1 fm2 : quiet fm0 fm1 → quiet fm1 fm2 → quiet fm0 fm2.
Proof.
  intros [(? & ? & ? & ? & ?) ?] [(? & ? & ? & ? & ?) ?].
  unfold quiet, steady. repeat split; congruence.
Qed.

Lemma steady_quiet fm0 fm1 fm2 : steady fm0 fm1 → quiet fm1 fm2 → steady fm0 fm2.
Proof.
  intros (? & ? & ? & ? & ?) [(? & ? & ? & ? & ?) ?].
  unfold steady. repeat split; congruence.
Qed.

Lemma subscribed_steady fm0 fm : subscribed_render fm0 → steady fm0 fm → subscribed_render fm.
Proof. unfold subscribed_render. intros Hsub (-> & _). done. Qed.

Lemma quiet_update (f : AppState → AppState) fm :
  subscribed_render fm → quiet fm (store (StateManager.updateState f) fm).
Proof.
  intros Hsub. unfold quiet, steady, store, StateManager.updateState. simpl.
  destruct (notify_fields (f (StateManager.state (stateManager fm)))
              (StateManager.listeners (stateManager fm)) (ctl fm) Hsub)
    as (? & ? & ? & ? & ?).
  done.
Qed.

Lemma quiet_moveSelection (d : Direction) fm :
  subscribed_render fm → quiet fm (store (StateManager.moveSelection d) fm).
Proof.
  intros Hsub. unfold store, StateManager.moveSelection.
  case_decide; [by destruct fm|].
  exact (quiet_update _ fm Hsub).
Qed.

Lemma quiet_loadCurrentDirectory env fm :
  subscribed_render fm → quiet fm (loadCurrentDirectory env fm).
Proof.
  intros Hsub. unfold loadCurrentDirectory.
  destruct (FileScanner.scanDirectory env _) as [its|]; [|by apply quiet_update].
  pose proof (quiet_update
    (λ state, {| viewport := {| currentPath := currentPath (viewport state);
                                items := its;
                                terminalSize := terminalSize (viewport state);
                                itemsPerRow := itemsPerRow (viewport state);
                                totalRows := totalRows (viewport state) |};
                 selection := selection state;
                 contextMenu := contextMenu state;
                 clipboard := clipboard state;
                 clipboardOperation := clipboardOperation state |}) fm Hsub) as H1.
  fold (StateManager.setFileItems (W := Ctl) its) in H1.
  set (fm1 := store (StateManager.setFileItems its) fm) in *.
  assert (subscribed_render fm1) as Hsub1 by (eapply subscribed_steady; [exact Hsub|apply H1]).
  set (L := LayoutManager.calculateLayout _).
  pose proof (quiet_update
    (λ state, {| viewport := {| currentPath := currentPath (viewport state);
                                items := items (viewport state);
                                terminalSize := terminalSize (viewport state);
                                itemsPerRow := LayoutManager.itemsPerRow L;
                                totalRows := LayoutManager.totalRows L |};
                 selection := selection state;
                 contextMenu := contextMenu state;
                 clipboard := clipboard state;
                 clipboardOperation := clipboardOperation state |}) fm1 Hsub1) as H2.
  fold (StateManager.setLayoutInfo (W := Ctl) (LayoutManager.itemsPerRow L)
          (LayoutManager.totalRows L)) in H2.
  set (fm2 := store (StateManager.setLayoutInfo _ _) fm1) in *.
  assert (subscribed_render fm2) as Hsub2 by (eapply subscribed_steady; [exact Hsub1|apply H2]).
  case_decide.
  - eapply quiet_trans; [exact H1|]. eapply quiet_trans; [exact H2|].
    by apply quiet_update.
  - eapply quiet_trans; [exact H1|exact H2].
Qed.

Section From.
Context (fm0 : t) (Hsub0 : subscribed_render fm0).

Lemma steady_update (f : AppState → AppState) fm :
  steady fm0 fm → steady fm0 (store (StateManager.updateState f) fm).
Proof.
  intros Hst. eapply steady_quiet; [exact Hst|].
  apply quiet_update. by eapply subscribed_steady.
Qed.

Lemma steady_moveSelection (d : Direction) fm :
  steady fm0 fm → steady fm0 (store (StateManager.moveSelection d) fm).
Proof.
  intros Hst. eapply steady_quiet; [exact Hst|].
  apply quiet_moveSelection. by eapply subscribed_steady.
Qed.

Lemma steady_loadCurrentDirectory env fm :
  steady fm0 fm → steady fm0 (loadCurrentDirectory env fm).
Proof.
  intros Hst. eapply steady_quiet; [exact Hst|].
  apply quiet_loadCurrentDirectory. by eapply subscribed_steady.
Qed.

Lemma steady_perform env (op : FsOp) fm : steady fm0 fm → steady fm0 (perform env op fm).2.
Proof. done. Qed.

Ltac steady_step :=
  first [ assumption
        | apply steady_loadCurrentDirectory
        | apply steady_perform
        | apply steady_moveSelection
        | apply steady_update ].

Lemma steady_handleFileOpen env fm : steady fm0 fm → steady fm0 (handleFileOpen env fm).
Proof.
  intros Hst. unfold handleFileOpen.
  destruct (selectedItem _); [|done]. case_decide; repeat steady_step.
Qed.

Lemma steady_handleFilePaste env fm : steady fm0 fm → steady fm0 (handleFilePaste env fm).
Proof.
  intros Hst. unfold handleFilePaste.
  destruct (clipboard _); [|done]. destruct (clipboardOperation _) as [[]|]; [| |done].
  - destruct (pasteDestination _ _ _); [|done]. cbn [perform].
    destruct (succeeds _ _); repeat steady_step.
  - destruct (pasteDestination _ _ _); [|done]. cbn [perform].
    destruct (succeeds _ _); repeat steady_step.
Qed.

Lemma steady_handleFileDelete env fm : steady fm0 fm → steady fm0 (handleFileDelete env fm).
Proof.
  intros Hst. unfold handleFileDelete.
  destruct (selectedItem _); [|done]. cbn [perform].
  destruct (succeeds _ _); repeat steady_step.
Qed.

Lemma steady_handle env (e : Event) fm : steady fm0 fm → steady fm0 (handle env e fm).
Proof.
  intros Hst. unfold handle. destruct (wired _); [|done].
  destruct e.
  - unfold handleNavigation. repeat case_decide; repeat steady_step.
  - unfold handleMouseClick. destruct (visible _); [repeat steady_step|].
    case_decide; repeat steady_step.
  - unfold handleMouseDoubleClick. case_decide; [|done].
    apply steady_handleFileOpen. repeat steady_step.
  - unfold handleMouseRightClick. case_decide; repeat steady_step.
  - by apply steady_handleFileOpen.
  - unfold handleFileCopy. destruct (selectedItem _); repeat steady_step.
  - unfold handleFileCut. destruct (selectedItem _); repeat steady_step.
  - by apply steady_handleFilePaste.
  - by apply steady_handleFileDelete.
  - unfold handleOpenWithVSCode. destruct (selectedItem _); repeat steady_step.
  - unfold handleContextMenuAction.
    assert (steady fm0 (store StateManager.hideContextMenu fm)) as Hst1
      by repeat steady_step.
    repeat case_decide;
      first [ by apply steady_handleFileOpen
            | by apply steady_handleFilePaste
            | by apply steady_handleFileDelete
            | idtac ].
    + unfold handleOpenWithVSCode. destruct (selectedItem _); repeat steady_step.
    + unfold handleFileCopy. destruct (selectedItem _); repeat steady_step.
    + unfold handleFileCut. destruct (selectedItem _); repeat steady_step.
    + repeat steady_step.
    + done.
  - repeat steady_step.
Qed.
End From.

Lemma steady_refl fm : steady fm fm.
Proof. done. Qed.

(** Every listener the controller has subscribed is [render], and once
    the bus has been cleared its handlers stay away. *)
Lemma step_subscribed env (i : Input) fm :
  subscribed_render fm →
  subscribed_render (step env i fm) ∧
  (wired (ctl fm) = false → wired (ctl (step env i fm)) = false).
Proof.
  intros Hsub. destruct i; simpl.
  - unfold start. destruct (isRunning (ctl fm)); [done|].
    match goal with
    | |- context [loadCurrentDirectory env ?fm1] =>
        destruct (quiet_loadCurrentDirectory env fm1 Hsub) as [(Hl & _ & _ & Hw & _) _];
        set (fm2 := loadCurrentDirectory env fm1) in *
    end.
    simpl in Hl, Hw. unfold subscribed_render, StateManager.subscribe. simpl.
    split.
    + rewrite Hl. apply Forall_app. split; [exact Hsub|]. by constructor.
    + intros Hwired. destruct (render_fields (getState fm2) (ctl fm2)) as (_ & _ & -> & _).
      congruence.
  - unfold stop. by destruct (negb _).
  - unfold tick. destruct (renderTimer _); [|done]. split; [done|].
    intros Hwired. unfold renderNow. simpl.
    destruct (render_fields (getState fm) (ctl fm)) as (_ & _ & -> & _). done.
  - assert (steady fm (resize sz fm)) as Hst.
    { unfold resize. induction (resizeListeners (ctl fm)) as [|n IH]; simpl; [done|].
      by apply steady_update. }
    split; [by eapply subscribed_steady|].
    destruct Hst as (_ & _ & _ & -> & _). done.
  - pose proof (steady_handle fm Hsub env e fm (steady_refl fm)) as Hst.
    split; [by eapply subscribed_steady|].
    destruct Hst as (_ & _ & _ & -> & _). done.
  - pose proof (steady_update fm Hsub
                  (λ state, {| viewport := viewport state; selection := selection state;
                               contextMenu := contextMenu state;
                               clipboard := None; clipboardOperation := None |})
                  fm (steady_refl fm)) as Hst.
    split; [by eapply subscribed_steady|].
    destruct Hst as (_ & _ & _ & Hw & _). intros Hwired. by rewrite <- Hwired.
Qed.

Lemma run_subscribed (inputs : list (Env * Input)) fm :
  subscribed_render fm →
  subscribed_render (run inputs fm) ∧
  (wired (ctl fm) = false → wired (ctl (run inputs fm)) = false).
Proof.
  revert fm. induction inputs as [|[env i] inputs IH]; intros fm Hsub; simpl; [done|].
  destruct (step_subscribed env i fm Hsub) as [Hsub1 Hw1].
  destruct (IH _ Hsub1) as [Hsub2 Hw2]. split; [done|]. auto.
Qed.

Lemma new_subscribed (cwd : string) (termSize : Size) : subscribed_render (new cwd termSize).
Proof. constructor. Qed.

(** A name [getUniqueFileName] returns is free. *)
Lemma getUniqueFileName_free env (filePath r : string) :
  FileOperations.getUniqueFileName env filePath = Some r → r ∉ existing env.
Proof.
  unfold FileOperations.getUniqueFileName.
  destruct (FileOperations.exists_ env filePath) eqn:Htaken; cbn [negb].
  - destruct (uniqueLoop_cases env filePath (S (length (existing env))) 1)
      as [(n & _ & -> & Hfree & _)|[-> _]]; [|done].
    intros [= <-]. unfold FileOperations.exists_ in Hfree.
    by apply bool_decide_eq_false in Hfree.
  - intros [= <-]. unfold FileOperations.exists_ in Htaken.
    by apply bool_decide_eq_false in Htaken.
Qed.
End ControllerFieldFacts.

(** X24. Stopping removes the controller's handlers for good: once a
    running controller has been stopped, no bus event does anything in
    any state reached afterwards, also after it has been started
    again. *)
Theorem handlers_gone_after_stop
    {PM : PathModule} {CO : Collator} (cwd : string) (termSize : Size)
    (before after : list (Env * FileManager.Input)) (env : Env) (e : FileManager.Event) :
  let fm := FileManager.run before (FileManager.new cwd termSize) in
  FileManager.isRunning (FileManager.ctl fm) = true →
  let fm' := FileManager.run after (FileManager.stop fm) in
  FileManager.handle env e fm' = fm'.
Proof.
  intros fm Hrun fm'.
  destruct (run_subscribed before _ (new_subscribed cwd termSize)) as [Hsub _].
  fold fm in Hsub.
  assert (subscribed_render (FileManager.stop fm) ∧
          FileManager.wired (FileManager.ctl (FileManager.stop fm)) = false) as [Hsub1 Hw1].
  { unfold FileManager.stop. rewrite Hrun. simpl. done. }
  destruct (run_subscribed after _ Hsub1) as [_ Hw]. specialize (Hw Hw1). fold fm' in Hw.
  unfold FileManager.handle. by rewrite Hw.
Qed.

Lemma handlers_gone_after_stop_witness :
  let fm := FileManager.run (PM := posix_path) (CO := readdir_order)
              [(home_env, FileManager.Start)] (FileManager.new "/home/u" size80) in
  let fm' := FileManager.run (PM := posix_path) (CO := readdir_order)
               [(home_env, FileManager.Start)] (FileManager.stop fm) in
  FileManager.isRunning (FileManager.ctl fm) = true ∧
  FileManager.isRunning (FileManager.ctl fm') = true ∧
  FileManager.handle (PM := posix_path) (CO := readdir_order) home_env
    (FileManager.Navigation "down") fm' = fm'.
Proof.
  intros fm fm'.
  assert (FileManager.isRunning (FileManager.ctl fm) = true) as H by reflexivity.
  split; [exact H|]. split; [reflexivity|].
  exact (handlers_gone_after_stop (PM := posix_path) (CO := readdir_order)
           "/home/u" size80 [(home_env, FileManager.Start)] [(home_env, FileManager.Start)]
           home_env (FileManager.Navigation "down") H).
Defined.

(** X25. What a paste does on the file system. In every state the
    controller reaches, a paste performs at most one file operation: a
    copy of the clipboard item when it was copied, a move when it was
    cut, to the path [getUniqueFileName] returned, which is a path for
    which [fs.access] failed when [getUniqueFileName] asked. The check
    and the operation are separate steps: this says nothing of the
    path at the time of the copy or the move. *)
Theorem paste_destination_checked
    {PM : PathModule} {CO : Collator} (cwd : string) (termSize : Size)
    (inputs : list (Env * FileManager.Input)) (env : Env) :
  let fm := FileManager.run inputs (FileManager.new cwd termSize) in
  let s := FileManager.getState fm in
  ∃ ops,
    FileManager.performed (FileManager.ctl (FileManager.handleFilePaste env fm))
      = FileManager.performed (FileManager.ctl fm) ++ ops ∧
    (length ops ≤ 1)%nat ∧
    ∀ op, op ∈ ops →
      ∃ clip destination,
        clipboard s = Some clip ∧
        FileManager.pasteDestination env s clip = Some destination ∧
        FileOperations.exists_ env destination = false ∧
        (clipboardOperation s = Some OpCopy ∧ op = FsCopy (path clip) destination ∨
         clipboardOperation s = Some OpCut ∧ op = FsMove (path clip) destination).
Proof.
  intros fm s. subst s.
  destruct (run_subscribed inputs _ (new_subscribed cwd termSize)) as [Hsub _].
  fold fm in Hsub.
  assert (FileManager.performed (FileManager.ctl fm)
            = FileManager.performed (FileManager.ctl fm) ++ [] ∧
          (length (@nil FsOp) ≤ 1)%nat ∧
          ∀ op, op ∈ @nil FsOp → ∃ clip destination,
            clipboard (FileManager.getState fm) = Some clip ∧
            FileManager.pasteDestination env (FileManager.getState fm) clip
              = Some destination ∧
            FileOperations.exists_ env destination = false ∧
            (clipboardOperation (FileManager.getState fm) = Some OpCopy ∧
               op = FsCopy (path clip) destination ∨
             clipboardOperation (FileManager.getState fm) = Some OpCut ∧
               op = FsMove (path clip) destination)) as Hnothing.
  { rewrite app_nil_r. split; [done|]. split; [simpl; lia|].
    intros op Hop. by apply elem_of_nil in Hop. }
  unfold FileManager.handleFilePaste.
  destruct (clipboard (FileManager.getState fm)) as [clip|] eqn:Hclip;
    [|exists []; exact Hnothing].
  destruct (clipboardOperation (FileManager.getState fm)) as [operation|] eqn:Hop;
    [|exists []; exact Hnothing].
  destruct (FileManager.pasteDestination env _ clip) as [finalPath|] eqn:Hdest;
    [|destruct operation; exists []; exact Hnothing].
  assert (FileOperations.exists_ env finalPath = false) as Hfree.
  { apply bool_decide_eq_false. by eapply getUniqueFileName_free. }
  destruct operation; cbn [FileManager.perform].
  - exists [FsCopy (path clip) finalPath]. split.
    + destruct (succeeds env _); [|done].
      match goal with
      | |- context [FileManager.loadCurrentDirectory env ?fm1] =>
          destruct (quiet_loadCurrentDirectory env fm1 Hsub) as [_ ->]
      end. done.
    + split; [simpl; lia|]. intros op Hin. apply list_elem_of_singleton in Hin as ->.
      exists clip, finalPath. split; [done|]. split; [done|]. split; [done|]. by left.
  - exists [FsMove (path clip) finalPath]. split.
    + destruct (succeeds env _); [|done].
      match goal with
      | |- context [FileManager.store StateManager.clearClipboard ?fm1] =>
          pose proof (quiet_update
            (λ state, {| viewport := viewport state; selection := selection state;
                         contextMenu := contextMenu state;
                         clipboard := None; clipboardOperation := None |})
            fm1 Hsub) as Hq1;
          fold (StateManager.setClipboard (W := FileManager.Ctl) None None) in Hq1;
          fold (StateManager.clearClipboard (W := FileManager.Ctl)) in Hq1;
          set (fm2 := FileManager.store StateManager.clearClipboard fm1) in *
      end.
      assert (subscribed_render fm2) as Hsub2
        by (eapply subscribed_steady; [exact Hsub|apply Hq1]).
      destruct (quiet_loadCurrentDirectory env fm2 Hsub2) as [_ ->].
      destruct Hq1 as [_ ->]. done.
    + split; [simpl; lia|]. intros op Hin. apply list_elem_of_singleton in Hin as ->.
      exists clip, finalPath. split; [done|]. split; [done|]. split; [done|]. by right.
Qed.

(** X26. What a paste does to the clipboard: a copied item stays on the
    clipboard, so it can be pasted again; a cut item leaves the
    clipboard exactly when the move succeeded, and stays, still cut,
    when the move failed. *)
Theorem handleFilePaste_clipboard
    {PM : PathModule} {CO : Collator} (env : Env) (fm : FileManager.t) (clip : FileItem) :
  let s := FileManager.getState fm in
  let s' := FileManager.getState (FileManager.handleFilePaste env fm) in
  clipboard s = Some clip →
  (clipboardOperation s = Some OpCopy →
     clipboard s' = Some clip ∧ clipboardOperation s' = Some OpCopy) ∧
  (clipboardOperation s = Some OpCut →
     ∀ finalPath, FileManager.pasteDestination env s clip = Some finalPath →
       if succeeds env (FsMove (path clip) finalPath)
       then clipboard s' = None ∧ clipboardOperation s' = None
       else clipboard s' = Some clip ∧ clipboardOperation s' = Some OpCut).
Proof.
  intros s s' Hclip. subst s s'. unfold FileManager.handleFilePaste.
  rewrite Hclip. split.
  - intros Hop. rewrite Hop.
    destruct (FileManager.pasteDestination env _ clip); [|done].
    cbn [FileManager.perform]. destruct (succeeds env _); [|done].
    rewrite getState_loadCurrentDirectory.
    destruct (FileScanner.scanDirectory env _); done.
  - intros Hop finalPath Hdest. rewrite Hop, Hdest. cbn [FileManager.perform].
    destruct (succeeds env _); [|done].
    rewrite getState_loadCurrentDirectory.
    destruct (FileScanner.scanDirectory env _); done.
Qed.

Lemma handleFilePaste_clipboard_witness :
  let s := FileManager.getState cut_a in
  let s' := FileManager.getState
              (FileManager.handleFilePaste (PM := posix_path) (CO := readdir_order)
                 failing_move_env cut_a) in
  (clipboard s = Some item_a ∧ clipboardOperation s = Some OpCut ∧
   FileManager.pasteDestination (PM := posix_path) failing_move_env s item_a
     = Some "/home/u/a.txt") ∧
  clipboard s' = Some item_a ∧ clipboardOperation s' = Some OpCut.
Proof.
  intros s s'.
  assert (clipboard s = Some item_a) as H1 by reflexivity.
  assert (clipboardOperation s = Some OpCut) as H2 by reflexivity.
  assert (FileManager.pasteDestination (PM := posix_path) failing_move_env s item_a
            = Some "/home/u/a.txt") as H3 by reflexivity.
  split; [done|].
  exact (proj2 (handleFilePaste_clipboard (PM := posix_path) (CO := readdir_order)
                  failing_move_env cut_a item_a H1) H2 "/home/u/a.txt" H3).
Defined.

(** X27. Starting again adds listeners to those of the first start.
    When a running controller with [render] subscribed once is stopped
    and started again, and [render] can draw the state the new start
    loads without throwing: every frame drawn by the new start is of a
    state [render] does not throw on, [render] is then subscribed to
    the store twice and a second resize listener is installed, and
    every store update to a state [render] does not throw on draws two
    frames of that state. *)
Theorem restart_renders_twice
    {PM : PathModule} {CO : Collator} (env : Env) (f : AppState → AppState)
    (fm : FileManager.t) :
  FileManager.rendering fm →
  let fm' := FileManager.start env (FileManager.stop fm) in
  render_throws (FileManager.getState fm') = false →
  (∃ drawn,
     FileManager.stdout (FileManager.ctl fm')
       = FileManager.stdout (FileManager.ctl fm) ++ drawn ∧
     Forall (λ s, render_throws s = false) drawn) ∧
  StateManager.listeners (FileManager.stateManager fm')
    = [FileManager.render; FileManager.render] ∧
  FileManager.resizeListeners (FileManager.ctl fm')
    = S (FileManager.resizeListeners (FileManager.ctl fm)) ∧
  (render_throws (f (FileManager.getState fm')) = false →
   FileManager.stdout (FileManager.ctl (FileManager.store (StateManager.updateState f) fm'))
     = FileManager.stdout (FileManager.ctl fm')
         ++ [f (FileManager.getState fm'); f (FileManager.getState fm')]).
Proof.
  intros (Hrun & Htimer & Hl) fm'. subst fm'.
  unfold FileManager.stop. rewrite Hrun. cbn [negb].
  unfold FileManager.start. cbn [FileManager.isRunning FileManager.ctl].
  match goal with
  | |- context [FileManager.loadCurrentDirectory env ?fm1] =>
      assert (subscribed_render fm1) as Hsub
        by (unfold subscribed_render; simpl; rewrite Hl; by constructor);
      destruct (quiet_loadCurrentDirectory env fm1 Hsub) as [(Hl2 & Hrun2 & _ & _ & Hres2) _];
      destruct (loadCurrentDirectory_frames env fm1 eq_refl Hl) as (drawn & Hdrawn & Hsame);
      set (fm2 := FileManager.loadCurrentDirectory env fm1) in *
  end.
  simpl in Hl2, Hrun2, Hres2, Hdrawn. rewrite Hl in Hl2.
  unfold FileManager.startRenderLoop, FileManager.renderNow, StateManager.subscribe,
    FileManager.store, StateManager.updateState, StateManager.notifyListeners,
    FileManager.getState, StateManager.getState in *.
  simpl. rewrite Hl2. simpl.
  destruct (render_fields (StateManager.state (FileManager.stateManager fm2))
              (FileManager.ctl fm2)) as (Hrun3 & _ & _ & Hres3 & _).
  assert (FileManager.stdout
            (FileManager.render (StateManager.state (FileManager.stateManager fm2))
               (FileManager.ctl fm2))
          = FileManager.stdout (FileManager.ctl fm)
              ++ drawn ++ [StateManager.state (FileManager.stateManager fm2)]) as Hout.
  { unfold FileManager.render. rewrite Hrun2. simpl. rewrite Hdrawn. by rewrite <- app_assoc. }
  set (c2 := FileManager.render _ (FileManager.ctl fm2)) in *.
  intros Hok. split.
  { exists (drawn ++ [StateManager.state (FileManager.stateManager fm2)]).
    split; [exact Hout|]. apply Forall_app. split.
    - eapply Forall_impl; [exact Hsame|]. intros s Hs. simpl in Hs. by rewrite Hs.
    - by constructor. }
  split; [done|]. split; [congruence|]. intros _.
  unfold FileManager.render. simpl. rewrite Hrun3, Hrun2. simpl.
  by rewrite <- app_assoc.
Qed.

Lemma restart_renders_twice_witness :
  let fm' := FileManager.start (PM := posix_path) (CO := readdir_order) home_env
               (FileManager.stop running_home) in
  let hide := λ s : AppState,
    {| viewport := viewport s; selection := selection s;
       contextMenu := {| visible := false; position := position (contextMenu s);
                         targetItem := targetItem (contextMenu s) |};
       clipboard := clipboard s; clipboardOperation := clipboardOperation s |} in
  (FileManager.rendering running_home ∧
   render_throws (FileManager.getState fm') = false ∧
   render_throws (hide (FileManager.getState fm')) = false) ∧
  StateManager.listeners (FileManager.stateManager fm')
    = [FileManager.render; FileManager.render] ∧
  FileManager.stdout (FileManager.ctl (FileManager.store StateManager.hideContextMenu fm'))
    = FileManager.stdout (FileManager.ctl fm')
        ++ [hide (FileManager.getState fm'); hide (FileManager.getState fm')].
Proof.
  intros fm' hide.
  assert (FileManager.rendering running_home) as H1.
  { unfold FileManager.rendering. repeat split; reflexivity. }
  assert (render_throws (FileManager.getState fm') = false) as H2 by (vm_compute; reflexivity).
  assert (render_throws (hide (FileManager.getState fm')) = false) as H3
    by (vm_compute; reflexivity).
  split; [done|].
  destruct (restart_renders_twice (PM := posix_path) (CO := readdir_order)
              home_env hide running_home H1 H2) as (_ & Hlisteners & _ & Hframes).
  split; [exact Hlisteners|]. exact (Hframes H3).
Defined.

Lemma getState_iter_setTerminalSize (sz : Size) (n : nat) (fm : FileManager.t) :
  FileManager.getState (Nat.iter n (FileManager.store (StateManager.setTerminalSize sz)) fm)
    = match n with
      | O => FileManager.getState fm
      | S _ =>
          let s := FileManager.getState fm in
          {| viewport := {| currentPath := currentPath (viewport s);
                            items := items (viewport s);
                            terminalSize := sz;
                            itemsPerRow := itemsPerRow (viewport s);
                            totalRows := totalRows (viewport s) |};
             selection := selection s;
             contextMenu := contextMenu s;
             clipboard := clipboard s;
             clipboardOperation := clipboardOperation s |}
      end.
Proof.
  induction n as [|n IH]; [done|].
  cbn [Nat.iter].
  etransitivity;
    [exact (getState_store_update _
              (Nat.iter n (FileManager.store (StateManager.setTerminalSize sz)) fm))|].
  cbv beta. rewrite IH. by destruct n.
Qed.

(** X28. A resize stores the new terminal size and nothing else: the
    stored [itemsPerRow] and [totalRows], which the keyboard moves use,
    stay those of the last load, so they differ from the layout of the
    new size, which the mouse handlers compute, whenever the old and
    the new size give different layouts. *)
Theorem resize_keeps_stored_layout
    {PM : PathModule} {CO : Collator} (sz : Size) (fm : FileManager.t) :
  let s := FileManager.getState fm in
  let s' := FileManager.getState (FileManager.resize sz fm) in
  FileManager.resizeListeners (FileManager.ctl fm) ≠ 0%nat →
  terminalSize (viewport s') = sz ∧
  itemsPerRow (viewport s') = itemsPerRow (viewport s) ∧
  totalRows (viewport s') = totalRows (viewport s) ∧
  items (viewport s') = items (viewport s) ∧
  selection s' = selection s ∧
  (itemsPerRow (viewport s) ≠ LayoutManager.itemsPerRow (LayoutManager.calculateLayout sz) →
   itemsPerRow (viewport s')
     ≠ LayoutManager.itemsPerRow (LayoutManager.calculateLayout (terminalSize (viewport s')))).
Proof.
  intros s s' Hn. subst s'. unfold FileManager.resize.
  rewrite getState_iter_setTerminalSize.
  destruct (FileManager.resizeListeners (FileManager.ctl fm)); [done|]. simpl. done.
Qed.

Lemma resize_keeps_stored_layout_witness :
  let narrow := {| width := 40; height := 24 |} in
  let s' := FileManager.getState
              (FileManager.resize narrow running_home) in
  FileManager.resizeListeners (FileManager.ctl running_home) ≠ 0%nat ∧
  itemsPerRow (viewport s') = 5 ∧
  LayoutManager.itemsPerRow (LayoutManager.calculateLayout (terminalSize (viewport s'))) = 2.
Proof.
  intros narrow s'. subst s'.
  assert (FileManager.resizeListeners (FileManager.ctl running_home) ≠ 0%nat) as H
    by (vm_compute; discriminate).
  split; [exact H|].
  destruct (resize_keeps_stored_layout (PM := posix_path) (CO := readdir_order)
              narrow running_home H) as (Hsz & Hipr & _).
  split; [rewrite Hipr; reflexivity|]. rewrite Hsz. reflexivity.
Defined.

(** ** The order of a scan *)

Section ScanOrder.
Context {PM : PathModule} {CO : Collator}.

Lemma sort_insert_directories_first (a : FileItem) (dirs files : list FileItem) :
  Forall (λ item, type item = TDirectory) dirs →
  Forall (λ item, type item = TFile) files →
  ∃ dirs' files',
    sort_insert FileScanner.compareItems a (dirs ++ files) = dirs' ++ files' ∧
    Forall (λ item, type item = TDirectory) dirs' ∧
    Forall (λ item, type item = TFile) files'.
Proof.
  intros Hdirs Hfiles. induction Hdirs as [|d dirs Hd Hdirs IH].
  - destruct (type a) eqn:Ha.
    + exists [], (sort_insert FileScanner.compareItems a files).
      split; [done|]. split; [done|].
      rewrite sort_insert_Permutation. by constructor.
    + exists [a], files. split; [|by repeat constructor].
      destruct Hfiles as [|b files Hb Hfiles]; [done|].
      cbn [app sort_insert].
      assert (FileScanner.compareItems a b ≤ 0) as Hab
        by (unfold FileScanner.compareItems; rewrite Ha, Hb; repeat case_decide; try done; lia).
      by rewrite decide_True.
  - cbn [app sort_insert].
    destruct (type a) eqn:Ha.
    + assert (¬ FileScanner.compareItems a d ≤ 0) as Hab
        by (unfold FileScanner.compareItems; rewrite Ha, Hd; repeat case_decide; try done; lia).
      rewrite decide_False by done.
      destruct IH as (dirs' & files' & -> & ? & ?).
      exists (d :: dirs'), files'. split; [done|]. split; [by constructor|done].
    + case_decide.
      * exists (a :: d :: dirs), files. split; [done|]. split; [|done].
        by repeat constructor.
      * destruct IH as (dirs' & files' & -> & ? & ?).
        exists (d :: dirs'), files'. split; [done|]. split; [by constructor|done].
Qed.

Lemma js_sort_directories_first (l : list FileItem) :
  ∃ dirs files,
    js_sort FileScanner.compareItems l = dirs ++ files ∧
    Forall (λ item, type item = TDirectory) dirs ∧
    Forall (λ item, type item = TFile) files.
Proof.
  induction l as [|a l (dirs & files & Heq & Hdirs & Hfiles)]; simpl.
  - by exists [], [].
  - rewrite Heq. by apply sort_insert_directories_first.
Qed.

Lemma sort_insert_StronglySorted {A : Type} (compareFn : A → A → Z) (a : A) (l : list A) :
  (∀ x y, compareFn x y ≤ 0 ∨ compareFn y x ≤ 0) →
  (∀ x y z, compareFn x y ≤ 0 → compareFn y z ≤ 0 → compareFn x z ≤ 0) →
  StronglySorted (λ x y, compareFn x y ≤ 0) l →
  StronglySorted (λ x y, compareFn x y ≤ 0) (sort_insert compareFn a l).
Proof.
  intros Htotal Htrans Hsorted. induction Hsorted as [|b l Hsorted IH Hb]; simpl.
  - by repeat constructor.
  - case_decide as Hab.
    + constructor; [by constructor|]. constructor; [done|].
      eapply Forall_impl; [exact Hb|]. intros x Hbx. by eapply Htrans.
    + constructor; [done|]. rewrite sort_insert_Permutation.
      constructor; [|done]. destruct (Htotal a b); [done|done].
Qed.

Lemma compareItems_spelled (a b : FileItem) :
  FileScanner.compareItems a b ≤ 0 ↔
  (type a = TDirectory ∧ type b = TFile) ∨
  (type a = type b ∧ localeCompare (name a) (name b) ≤ 0).
Proof.
  unfold FileScanner.compareItems.
  destruct (type a), (type b); repeat case_decide; try done; split;
    try (intros [[? ?]|[? ?]]; done); try lia; intros; try (by left); try (by right).
Qed.
End ScanOrder.

(** X29. Directories come first in every scan, whatever the collation:
    the list [scanDirectory] returns is a run of directories followed
    by a run of files. *)
Theorem scanDirectory_directories_first
    {PM : PathModule} {CO : Collator} (env : Env) (dirPath : string) (its : list FileItem) :
  FileScanner.scanDirectory env dirPath = Some its →
  ∃ dirs files,
    its = dirs ++ files ∧
    Forall (λ item, type item = TDirectory) dirs ∧
    Forall (λ item, type item = TFile) files.
Proof.
  unfold FileScanner.scanDirectory.
  destruct (readdir env dirPath) as [entries|]; [|done].
  intros [= <-]. apply js_sort_directories_first.
Qed.

Lemma scanDirectory_directories_first_witness :
  ∃ its,
    FileScanner.scanDirectory (PM := posix_path) (CO := readdir_order) home_env "/home/u"
      = Some its ∧
    ∃ dirs files,
      its = dirs ++ files ∧
      Forall (λ item, type item = TDirectory) dirs ∧
      Forall (λ item, type item = TFile) files.
Proof.
  eexists. split; [reflexivity|].
  exact (scanDirectory_directories_first (PM := posix_path) (CO := readdir_order)
           home_env "/home/u" _ eq_refl).
Defined.

(** X30. With a collation that is total and transitive, a scan is in
    order: it holds one item for every entry whose [stat] succeeds, and
    of any two items the earlier one is a directory and the later a
    file, or they are of the same kind and the name of the earlier one
    collates before or with the name of the later one. *)
Theorem scanDirectory_sorted
    {PM : PathModule} {CO : Collator} (env : Env) (dirPath : string)
    (entries : list Dirent) (its : list FileItem) :
  (∀ x y, localeCompare x y ≤ 0 ∨ localeCompare y x ≤ 0) →
  (∀ x y z, localeCompare x y ≤ 0 → localeCompare y z ≤ 0 → localeCompare x z ≤ 0) →
  readdir env dirPath = Some entries →
  FileScanner.scanDirectory env dirPath = Some its →
  its ≡ₚ omap (FileScanner.scanEntry env dirPath) entries ∧
  StronglySorted
    (λ a b, (type a = TDirectory ∧ type b = TFile) ∨
            (type a = type b ∧ localeCompare (name a) (name b) ≤ 0)) its.
Proof.
  intros Htotal Htrans Hdir Hscan.
  split; [by eapply scanDirectory_Permutation|].
  unfold FileScanner.scanDirectory in Hscan. rewrite Hdir in Hscan.
  injection Hscan as <-.
  assert (StronglySorted (λ a b, FileScanner.compareItems a b ≤ 0)
            (js_sort FileScanner.compareItems
               (omap (FileScanner.scanEntry env dirPath) entries))) as Hsorted.
  { induction (omap (FileScanner.scanEntry env dirPath) entries) as [|a l IH]; simpl.
    - constructor.
    - apply sort_insert_StronglySorted; [| |exact IH].
      + intros x y. rewrite !compareItems_spelled.
        destruct (type x) eqn:Hx, (type y) eqn:Hy; destruct (Htotal (name x) (name y));
          auto.
      + intros x y z. rewrite !compareItems_spelled.
        intros [[Hx Hy]|[Hxy Hle1]] [[Hy' Hz]|[Hyz Hle2]].
        * congruence.
        * left. split; [done|congruence].
        * left. split; [congruence|done].
        * right. split; [congruence|]. by eapply Htrans. }
  induction Hsorted as [|a l Hsorted IH Ha]; constructor; [done|].
  eapply Forall_impl; [exact Ha|]. intros b. by rewrite compareItems_spelled.
Qed.

Lemma string_compare_trans (a b c : string) :
  String.compare a b ≠ Gt → String.compare b c ≠ Gt → String.compare a c ≠ Gt.
Proof.
  revert b c. induction a as [|x a IH]; intros [|y b] [|z c]; simpl; try done.
  unfold Ascii.compare.
  destruct (N.compare_spec (N_of_ascii x) (N_of_ascii y)),
    (N.compare_spec (N_of_ascii y) (N_of_ascii z)),
    (N.compare_spec (N_of_ascii x) (N_of_ascii z)); try done; try lia.
  apply IH.
Qed.

Lemma code_unit_order_total (x y : string) :
  localeCompare (Collator := code_unit_order) x y ≤ 0 ∨
  localeCompare (Collator := code_unit_order) y x ≤ 0.
Proof.
  simpl. rewrite (String.compare_antisym y x).
  destruct (String.compare x y); simpl; lia.
Qed.

Lemma code_unit_order_trans (x y z : string) :
  localeCompare (Collator := code_unit_order) x y ≤ 0 →
  localeCompare (Collator := code_unit_order) y z ≤ 0 →
  localeCompare (Collator := code_unit_order) x z ≤ 0.
Proof.
  simpl. intros Hxy Hyz.
  pose proof (string_compare_trans x y z) as Htrans.
  destruct (String.compare x y), (String.compare y z), (String.compare x z);
    try lia; exfalso; by apply Htrans.
Qed.

Lemma scanDirectory_sorted_witness :
  ((∀ x y, localeCompare (Collator := code_unit_order) x y ≤ 0 ∨
           localeCompare (Collator := code_unit_order) y x ≤ 0) ∧
   (∀ x y z, localeCompare (Collator := code_unit_order) x y ≤ 0 →
             localeCompare (Collator := code_unit_order) y z ≤ 0 →
             localeCompare (Collator := code_unit_order) x z ≤ 0) ∧
   readdir mixed_env "/home/u" = Some mixed_listing) ∧
  ∃ its,
    FileScanner.scanDirectory (PM := posix_path) (CO := code_unit_order) mixed_env "/home/u"
      = Some its ∧
    name <$> its = ["archive"; "docs"; "a.txt"; "b.txt"; "c.txt"] ∧
    StronglySorted
      (λ a b, (type a = TDirectory ∧ type b = TFile) ∨
              (type a = type b ∧
               localeCompare (Collator := code_unit_order) (name a) (name b) ≤ 0)) its.
Proof.
  assert (readdir mixed_env "/home/u" = Some mixed_listing) as H3 by reflexivity.
  split; [split; [exact code_unit_order_total|split; [exact code_unit_order_trans|exact H3]]|].
  eexists. split; [vm_compute; reflexivity|]. split; [reflexivity|].
  exact (proj2 (scanDirectory_sorted (PM := posix_path) (CO := code_unit_order)
                  mixed_env "/home/u" mixed_listing _
                  code_unit_order_total code_unit_order_trans H3 eq_refl)).
Defined.
